(** * humanRadar: the radar panel of the RD-03D display

    A shallow embedding of the radar panel (the file that includes
    [radar_panel.h]: grid, sweep, markers) and of the grid of
    [main/radar_screen.c], with the properties of the geometric engine.

    Conventions.
    - C integers are [Z]; a store into an [int16_t], [uint8_t] or
      [uint16_t] object wraps ([to_int16], [to_uint8], [to_uint16]).
    - [float] is an abstract type with the operations the panel uses
      ([FloatOps]); their accuracy is stated separately ([FloatSpec]).
    - LVGL is a collaborator: the model keeps the object allocator, the log
      of the calls made to it and the contents of the [static] point
      buffers whose address [lv_line_set_points] stores.
    - Style set-up (colours, widths, fonts, knob and fill removal) has no
      effect on geometry or lifetimes and is left out of the log. *)

From Stdlib Require Import ZArith List Bool Lia Reals Lra.
From stdpp Require Import base option list.
Import ListNotations.
Open Scope Z_scope.

(** ** Machine integers *)

Definition to_int16 (z : Z) : Z := (z + 32768) mod 65536 - 32768.
Definition to_int32 (z : Z) : Z := (z + 2147483648) mod 4294967296 - 2147483648.
Definition to_uint16 (z : Z) : Z := z mod 65536.
Definition to_uint8 (z : Z) : Z := z mod 256.

Definition int16_range (z : Z) : Prop := -32768 <= z <= 32767.
Definition uint16_range (z : Z) : Prop := 0 <= z <= 65535.
Definition uint8_range (z : Z) : Prop := 0 <= z <= 255.

(** ** Single-precision arithmetic

    The operations of [float] that the panel uses.  [deg2rad x] is the
    expression [(x * M_PI) / 180.0f], which C evaluates in [double] and
    narrows to [float] on assignment; [ftrunc] is the integer part of a
    float, the value of a cast to an integer type. *)

Class FloatOps (F : Type) := {
  of_int : Z -> F;
  fmul : F -> F -> F;
  fdiv : F -> F -> F;
  fltb : F -> F -> bool;
  cosf : F -> F;
  sinf : F -> F;
  deg2rad : F -> F;
  ftrunc : F -> Z
}.

(** [(int16_t)(x)] for a float [x].  ISO C leaves the conversion undefined
    when the integer part does not fit; the target converts to a 32-bit
    integer and keeps the low 16 bits, which is what is modelled. *)
Definition cast_int16 {F} `{FloatOps F} (x : F) : Z := to_int16 (ftrunc x).

(** *** What the operations compute

    [val x] is the real number a finite float denotes, and [finite x] says
    that [x] is neither an infinity nor a NaN.  [FloatSpec] is the standard
    model of binary32 arithmetic with a faithful [libm]: integers up to
    [2^24] convert exactly, every operation that does not overflow returns
    its exact result within a relative error [eps] (one unit in the last
    place) and an absolute error [eta] (for results in the subnormal
    range), [cosf] and [sinf] are accurate to [eps], and a cast to an
    integer type drops the fraction. *)

Class FloatVal (F : Type) := {
  val : F -> R;
  finite : F -> Prop
}.

Definition eps : R := (/ IZR (2 ^ 23))%R.
Definition eta : R := (/ IZR (2 ^ 126))%R.
Definition fmax : R := IZR (2 ^ 127).

(** [t] is the integer part of [x]: [x] with its fraction dropped. *)
Definition is_trunc (x : R) (t : Z) : Prop :=
  ((0 <= x -> IZR t <= x < IZR t + 1) /\
   (x <= 0 -> IZR t - 1 < x <= IZR t))%R.

Class FloatSpec (F : Type) `{FloatOps F} `{FloatVal F} : Prop := {
  of_int_spec : forall n : Z,
    - 2 ^ 24 <= n <= 2 ^ 24 ->
    finite (of_int n) /\ val (of_int n) = IZR n;
  fltb_spec : forall x y : F,
    finite x -> finite y ->
    (fltb x y = true <-> (val x < val y)%R);
  fmul_spec : forall x y : F,
    finite x -> finite y -> (Rabs (val x * val y) <= fmax)%R ->
    finite (fmul x y) /\
    (Rabs (val (fmul x y) - val x * val y)
     <= eps * Rabs (val x * val y) + eta)%R;
  fdiv_spec : forall x y : F,
    finite x -> finite y -> val y <> 0%R ->
    (Rabs (val x / val y) <= fmax)%R ->
    finite (fdiv x y) /\
    (Rabs (val (fdiv x y) - val x / val y)
     <= eps * Rabs (val x / val y) + eta)%R;
  cosf_spec : forall x : F,
    finite x ->
    finite (cosf x) /\ (Rabs (val (cosf x) - cos (val x)) <= eps)%R;
  sinf_spec : forall x : F,
    finite x ->
    finite (sinf x) /\ (Rabs (val (sinf x) - sin (val x)) <= eps)%R;
  deg2rad_spec : forall x : F,
    finite x ->
    finite (deg2rad x) /\
    (Rabs (val (deg2rad x) - val x * PI / 180)
     <= eps * Rabs (val x * PI / 180) + eta)%R;
  ftrunc_spec : forall x : F,
    finite x -> (Rabs (val x) < IZR (2 ^ 31))%R ->
    is_trunc (val x) (ftrunc x)
}.

(** *** Exact arithmetic

    The real numbers with exact operations: the arithmetic that [float]
    approximates.  It satisfies [FloatSpec] with no error at all. *)

Definition Rtrunc (x : R) : Z :=
  if Rle_dec 0 x then Int_part x else (- Int_part (- x))%Z.

#[export] Instance exact_ops : FloatOps R := {
  of_int := IZR;
  fmul := Rmult;
  fdiv := Rdiv;
  fltb := fun x y => if Rlt_dec x y then true else false;
  cosf := cos;
  sinf := sin;
  deg2rad := fun x => (x * PI / 180)%R;
  ftrunc := Rtrunc
}.

#[export] Instance exact_val : FloatVal R := {
  val := fun x => x;
  finite := fun _ => True
}.

(** ** The LVGL side *)

(** [lv_obj_t *]: [None] is [NULL]. *)
Definition lv_obj_ptr : Type := option nat.

Definition lv_point : Type := (Z * Z)%type.

(** The [static] arrays of points.  [lv_line_set_points] keeps the address
    of the array it is given, so a line shows whatever its array holds when
    the screen is rendered.  [Points i] is row [i] of the panel's
    [points[10][2]]; [Line_points] and [H_points] are the [points[2]] and
    [h_points[2]] of [main/radar_screen.c]. *)
Inductive point_buffer : Type :=
| Sweep_points
| Shadow_points
| Points (row : nat)
| Line_points
| H_points.

Inductive obj_class : Type := Lv_obj | Lv_line | Lv_arc | Lv_label.

Inductive lv_call : Type :=
| Create (cls : obj_class) (obj : nat) (parent : lv_obj_ptr)
| Set_size (obj : lv_obj_ptr) (w h : Z)
| Set_pos (obj : lv_obj_ptr) (x y : Z)
| Arc_set_range (obj : lv_obj_ptr) (lo hi : Z)
| Arc_set_bg_angles (obj : lv_obj_ptr) (lo hi : Z)
| Arc_set_value (obj : lv_obj_ptr) (v : Z)
| Line_set_points (obj : lv_obj_ptr) (buf : point_buffer) (n : Z)
| Set_style_line_opa (obj : lv_obj_ptr) (opa : Z)
| Label_set_text (obj : lv_obj_ptr)
| Anim_start (lo hi duration playback repeat_delay : Z) (infinite : bool)
| Screen_load (obj : lv_obj_ptr)
| Obj_clean (obj : lv_obj_ptr)
| Obj_del (obj : lv_obj_ptr)
| Free_sweep.

(** Program state: the file's globals, the static point buffers, and the
    toolkit (allocator and call log, oldest call first). *)
Record state : Type := {
  g_center_x : Z;
  g_center_y : Z;
  g_radius : Z;
  sweep_points : list lv_point;
  shadow_points : list lv_point;
  points : list (list lv_point);
  line_points : list lv_point;
  h_points : list lv_point;
  next_obj : nat;
  calls : list lv_call
}.

Definition origin : lv_point := (0, 0).

(** Zero-initialised statics, no object yet. *)
Definition initial_state : state :=
  {| g_center_x := 0; g_center_y := 0; g_radius := 0;
     sweep_points := [origin; origin];
     shadow_points := [origin; origin];
     points := replicate 10 [origin; origin];
     line_points := [origin; origin];
     h_points := [origin; origin];
     next_obj := 1; calls := [] |}.

Inductive fault : Type :=
| Division_by_zero
| Out_of_bounds
| Null_dereference
| Nontermination.

(** What running an operation from a state gives: a result and the state
    reached, or a fault and the state in which it happened. *)
Inductive outcome (A : Type) : Type :=
| Ok (a : A) (st : state)
| Fault (f : fault) (st : state).
Arguments Ok {A} a st.
Arguments Fault {A} f st.

Definition M (A : Type) : Type := state -> outcome A.

Definition ret {A} (a : A) : M A := fun st => Ok a st.
Definition bind {A B} (m : M A) (k : A -> M B) : M B :=
  fun st => match m st with
            | Ok a st' => k a st'
            | Fault f st' => Fault f st'
            end.
Definition raise {A} (f : fault) : M A := fun st => Fault f st.

Declare Scope radar_scope.
Delimit Scope radar_scope with radar.
Notation "x <- m ;; k" := (bind m (fun x => k))
  (at level 100, m at next level, k at level 200, right associativity)
  : radar_scope.
Notation "m ;; k" := (bind m (fun _ => k))
  (at level 100, k at level 200, right associativity) : radar_scope.
Open Scope radar_scope.

Definition get_state : M state := fun st => Ok st st.

(** Field updates of [state]. *)
Definition set_globals (cx cy r : Z) (st : state) : state :=
  {| g_center_x := cx; g_center_y := cy; g_radius := r;
     sweep_points := sweep_points st; shadow_points := shadow_points st;
     points := points st; line_points := line_points st;
     h_points := h_points st;
     next_obj := next_obj st; calls := calls st |}.
Definition set_sweep_points (v : list lv_point) (st : state) : state :=
  {| g_center_x := g_center_x st; g_center_y := g_center_y st;
     g_radius := g_radius st;
     sweep_points := v; shadow_points := shadow_points st;
     points := points st; line_points := line_points st;
     h_points := h_points st;
     next_obj := next_obj st; calls := calls st |}.
Definition set_shadow_points (v : list lv_point) (st : state) : state :=
  {| g_center_x := g_center_x st; g_center_y := g_center_y st;
     g_radius := g_radius st;
     sweep_points := sweep_points st; shadow_points := v;
     points := points st; line_points := line_points st;
     h_points := h_points st;
     next_obj := next_obj st; calls := calls st |}.
Definition set_points (v : list (list lv_point)) (st : state) : state :=
  {| g_center_x := g_center_x st; g_center_y := g_center_y st;
     g_radius := g_radius st;
     sweep_points := sweep_points st; shadow_points := shadow_points st;
     points := v; line_points := line_points st; h_points := h_points st;
     next_obj := next_obj st; calls := calls st |}.
Definition set_line_points (v : list lv_point) (st : state) : state :=
  {| g_center_x := g_center_x st; g_center_y := g_center_y st;
     g_radius := g_radius st;
     sweep_points := sweep_points st; shadow_points := shadow_points st;
     points := points st; line_points := v; h_points := h_points st;
     next_obj := next_obj st; calls := calls st |}.
Definition set_h_points (v : list lv_point) (st : state) : state :=
  {| g_center_x := g_center_x st; g_center_y := g_center_y st;
     g_radius := g_radius st;
     sweep_points := sweep_points st; shadow_points := shadow_points st;
     points := points st; line_points := line_points st; h_points := v;
     next_obj := next_obj st; calls := calls st |}.
Definition set_toolkit (n : nat) (l : list lv_call) (st : state) : state :=
  {| g_center_x := g_center_x st; g_center_y := g_center_y st;
     g_radius := g_radius st;
     sweep_points := sweep_points st; shadow_points := shadow_points st;
     points := points st; line_points := line_points st;
     h_points := h_points st;
     next_obj := n; calls := l |}.

Definition modify (f : state -> state) : M unit := fun st => Ok tt (f st).

(** A call to the toolkit that returns nothing. *)
Definition call (c : lv_call) : M unit :=
  modify (fun st => set_toolkit (next_obj st) (calls st ++ [c]) st).

(** The state after the calls [l], no object created. *)
Definition log (l : list lv_call) (st : state) : state :=
  set_toolkit (next_obj st) (calls st ++ l) st.

(** The handles that are not [NULL], and the release of one. *)
Definition non_null (l : list lv_obj_ptr) : list nat := omap (fun h => h) l.
Definition del (h : nat) : lv_call := Obj_del (Some h).

(** [lv_obj_create], [lv_line_create], [lv_arc_create], [lv_label_create]:
    a fresh object. *)
Definition create (cls : obj_class) (parent : lv_obj_ptr) : M lv_obj_ptr :=
  fun st => Ok (Some (next_obj st))
    (set_toolkit (S (next_obj st))
       (calls st ++ [Create cls (next_obj st) parent]) st).

Definition lv_obj_create := create Lv_obj.
Definition lv_line_create := create Lv_line.
Definition lv_arc_create := create Lv_arc.
Definition lv_label_create := create Lv_label.

(** ** Loops

    [for (T i = i0; cond; i++) body], the counter stored in an integer type
    whose increment is [next].  [fuel] bounds the number of evaluations of
    the condition; a loop that exhausts a fuel larger than the number of
    values of its counter type does not terminate. *)
Fixpoint for_loop {A} (fuel : nat) (cond : Z -> bool) (next : Z -> Z)
    (body : Z -> A -> M A) (i : Z) (a : A) : M A :=
  match fuel with
  | O => raise Nontermination
  | S fuel' =>
      if cond i
      then a' <- body i a ;; for_loop fuel' cond next body (next i) a'
      else ret a
  end.

Definition uint8_fuel : nat := 257.
Definition incr_uint8 (i : Z) : Z := to_uint8 (i + 1).
Definition incr_int16 (i : Z) : Z := to_int16 (i + 1).
Definition incr_int (i : Z) : Z := to_int32 (i + 1).

(** The same iteration over an explicit list of counter values. *)
Fixpoint for_each {A} (l : list Z) (body : Z -> A -> M A) (a : A) : M A :=
  match l with
  | [] => ret a
  | i :: l' => a' <- body i a ;; for_each l' body a'
  end.

(** ** The sweep ([lv_radar_sweep_t]) *)

(** [lv_obj_t *shadow_lines[5]]: exactly five slots. *)
Inductive shadow_array : Type :=
| Shadows (s0 s1 s2 s3 s4 : lv_obj_ptr).

Definition shadow_get (a : shadow_array) (i : Z) : option lv_obj_ptr :=
  let 'Shadows s0 s1 s2 s3 s4 := a in
  match i with
  | 0 => Some s0 | 1 => Some s1 | 2 => Some s2 | 3 => Some s3 | 4 => Some s4
  | _ => None
  end.

Definition shadow_set (a : shadow_array) (i : Z) (v : lv_obj_ptr)
    : option shadow_array :=
  let 'Shadows s0 s1 s2 s3 s4 := a in
  match i with
  | 0 => Some (Shadows v s1 s2 s3 s4)
  | 1 => Some (Shadows s0 v s2 s3 s4)
  | 2 => Some (Shadows s0 s1 v s3 s4)
  | 3 => Some (Shadows s0 s1 s2 v s4)
  | 4 => Some (Shadows s0 s1 s2 s3 v)
  | _ => None
  end.

Definition shadow_list (a : shadow_array) : list lv_obj_ptr :=
  let 'Shadows s0 s1 s2 s3 s4 := a in [s0; s1; s2; s3; s4].

Record lv_radar_sweep_t : Type := {
  parent : lv_obj_ptr;
  center_x : Z;
  center_y : Z;
  radius : Z;
  current_angle : Z;
  sweep_line : lv_obj_ptr;
  shadow_lines : shadow_array
}.

Definition with_current_angle (v : Z) (s : lv_radar_sweep_t) :=
  {| parent := parent s; center_x := center_x s; center_y := center_y s;
     radius := radius s; current_angle := v;
     sweep_line := sweep_line s; shadow_lines := shadow_lines s |}.
Definition with_sweep_line (v : lv_obj_ptr) (s : lv_radar_sweep_t) :=
  {| parent := parent s; center_x := center_x s; center_y := center_y s;
     radius := radius s; current_angle := current_angle s;
     sweep_line := v; shadow_lines := shadow_lines s |}.
Definition with_shadow_lines (v : shadow_array) (s : lv_radar_sweep_t) :=
  {| parent := parent s; center_x := center_x s; center_y := center_y s;
     radius := radius s; current_angle := current_angle s;
     sweep_line := sweep_line s; shadow_lines := v |}.

(** An array access: out of bounds is a fault. *)
Definition checked {A} (o : option A) : M A :=
  match o with
  | Some a => ret a
  | None => raise Out_of_bounds
  end.

(** ** Reading the log *)

(** The calls an operation adds to the log. *)
Definition new_calls (st st' : state) : list lv_call :=
  drop (length (calls st)) (calls st').

(** The opacities set, the point arrays attached, the positions set, the
    objects created and the objects released, in order. *)
Definition opacity_calls (l : list lv_call) : list (lv_obj_ptr * Z) :=
  omap (fun c => match c with
                 | Set_style_line_opa o v => Some (o, v)
                 | _ => None
                 end) l.
Definition points_calls (l : list lv_call)
    : list (lv_obj_ptr * point_buffer) :=
  omap (fun c => match c with
                 | Line_set_points o b _ => Some (o, b)
                 | _ => None
                 end) l.
Definition pos_calls (l : list lv_call) : list (lv_obj_ptr * (Z * Z)) :=
  omap (fun c => match c with
                 | Set_pos o x y => Some (o, (x, y))
                 | _ => None
                 end) l.
Definition created (l : list lv_call) : list (obj_class * nat) :=
  omap (fun c => match c with
                 | Create cls h _ => Some (cls, h)
                 | _ => None
                 end) l.
Definition size_calls (l : list lv_call) : list (lv_obj_ptr * (Z * Z)) :=
  omap (fun c => match c with
                 | Set_size o w h => Some (o, (w, h))
                 | _ => None
                 end) l.
Definition released (l : list lv_call) : list lv_obj_ptr :=
  omap (fun c => match c with
                 | Obj_del o => Some o
                 | _ => None
                 end) l.

(** [if (angle > 180) angle = 180;] *)
Definition clamp_angle (a : Z) : Z := if 180 <? a then 180 else a.

Section Panel.
Context {F : Type} `{FloatOps F}.

(** The polar-to-screen expression, written out at every use in the C
    source: [c + (int16_t)(r * cosf(a))] and [c - (int16_t)(r * sinf(a))],
    the result stored in an [int16_t]. *)
Definition polar_x (c : Z) (r : F) (a : F) : Z :=
  to_int16 (c + cast_int16 (fmul r (cosf a))).
Definition polar_y (c : Z) (r : F) (a : F) : Z :=
  to_int16 (c - cast_int16 (fmul r (sinf a))).

(** [float shadow_angle = angle - ((i + 1) * 8);
     if (shadow_angle < 0) shadow_angle = 0;] *)
Definition shadow_angle (angle i : Z) : F :=
  let shadow_angle := of_int (angle - (i + 1) * 8) in
  if fltb shadow_angle (of_int 0) then of_int 0 else shadow_angle.

(** [uint8_t opacity = 255 - (i * 50);] *)
Definition shadow_opacity (i : Z) : Z := to_uint8 (255 - i * 50).

(** One round of the shadow loop. *)
Definition shadow_step (angle : Z) (i : Z) (sweep : lv_radar_sweep_t)
    : M lv_radar_sweep_t :=
  let shadow_rad := deg2rad (shadow_angle angle i) in
  let shadow_end_x :=
    polar_x (center_x sweep) (of_int (radius sweep)) shadow_rad in
  let shadow_end_y :=
    polar_y (center_y sweep) (of_int (radius sweep)) shadow_rad in
  line <- checked (shadow_get (shadow_lines sweep) i) ;;
  sweep <- match line with
           | None =>
               h <- lv_line_create (parent sweep) ;;
               a <- checked (shadow_set (shadow_lines sweep) i h) ;;
               ret (with_shadow_lines a sweep)
           | Some _ => ret sweep
           end ;;
  line <- checked (shadow_get (shadow_lines sweep) i) ;;
  call (Set_style_line_opa line (shadow_opacity i)) ;;
  modify (set_shadow_points
            [(center_x sweep, center_y sweep);
             (shadow_end_x, shadow_end_y)]) ;;
  call (Line_set_points line Shadow_points 2) ;;
  ret sweep.

(** [void lv_radar_sweep_update(lv_radar_sweep_t *sweep, uint16_t angle)] *)
Definition lv_radar_sweep_update (sweep : option lv_radar_sweep_t)
    (angle : Z) : M lv_radar_sweep_t :=
  match sweep with
  | None => raise Null_dereference
  | Some sweep =>
      let angle := clamp_angle angle in
      let sweep := with_current_angle angle sweep in
      let angle_rad := deg2rad (of_int angle) in
      let end_x :=
        polar_x (center_x sweep) (of_int (radius sweep)) angle_rad in
      let end_y :=
        polar_y (center_y sweep) (of_int (radius sweep)) angle_rad in
      sweep <- match sweep_line sweep with
               | None =>
                   h <- lv_line_create (parent sweep) ;;
                   ret (with_sweep_line h sweep)
               | Some _ => ret sweep
               end ;;
      modify (set_sweep_points
                [(center_x sweep, center_y sweep); (end_x, end_y)]) ;;
      call (Line_set_points (sweep_line sweep) Sweep_points 2) ;;
      let shadow_count := 5 in
      for_loop 6 (fun i => i <? shadow_count) incr_int16
        (shadow_step angle) 0 sweep
  end.

(** [static void lv_radar_sweep_anim_cb(void *var, int32_t value)] *)
Definition lv_radar_sweep_anim_cb (var : option lv_radar_sweep_t)
    (value : Z) : M lv_radar_sweep_t :=
  lv_radar_sweep_update var (to_uint16 value).

(** [lv_radar_sweep_t *lv_radar_sweep_create(lv_obj_t *parent,
      uint32_t duration_ms, bool loop)].  [malloc_ok] is whether [malloc]
    returns memory; the result is the new structure, or [None] for [NULL]. *)
Definition lv_radar_sweep_create (malloc_ok : bool) (parent_ : lv_obj_ptr)
    (duration_ms : Z) (loop : bool) : M (option lv_radar_sweep_t) :=
  if negb malloc_ok then ret None
  else
    st <- get_state ;;
    let sweep :=
      {| parent := parent_;
         center_x := g_center_x st;
         center_y := g_center_y st;
         radius := g_radius st;
         current_angle := 0;
         sweep_line := None;
         shadow_lines := Shadows None None None None None |} in
    sweep <- lv_radar_sweep_update (Some sweep) 0 ;;
    call (Anim_start 0 180 duration_ms duration_ms 500 loop) ;;
    ret (Some sweep).

(** [void lv_radar_sweep_delete(lv_radar_sweep_t *sweep)] *)
Definition lv_radar_sweep_delete (sweep : option lv_radar_sweep_t) : M unit :=
  match sweep with
  | None => ret tt
  | Some sweep =>
      match sweep_line sweep with
      | Some h => call (Obj_del (Some h))
      | None => ret tt
      end ;;
      for_loop 6 (fun i => i <? 5) incr_int
        (fun i _ =>
           line <- checked (shadow_get (shadow_lines sweep) i) ;;
           match line with
           | Some h => call (Obj_del (Some h))
           | None => ret tt
           end) 0 tt ;;
      call Free_sweep
  end.

(** ** Markers ([lv_radar_marker_t]) *)

Record lv_radar_marker_t : Type := {
  icon : lv_obj_ptr;
  distance : F;
  angle : Z
}.

Definition with_icon (v : lv_obj_ptr) (m : lv_radar_marker_t) :=
  {| icon := v; distance := distance m; angle := angle m |}.

(** One round of the loop of [lv_radar_add_markers]: a new label for slot
    [i], centred on the position computed for the marker. *)
Definition add_markers_round (parent_ : lv_obj_ptr) (cx cy : Z)
    (meters_per_pixel : F) (i : Z) (markers : list lv_radar_marker_t)
    : M (list lv_radar_marker_t) :=
  marker <- checked (markers !! Z.to_nat i) ;;
  let pixel_distance := fdiv (distance marker) meters_per_pixel in
  let angle_rad := deg2rad (of_int (angle marker)) in
  let marker_x := polar_x cx pixel_distance angle_rad in
  let marker_y := polar_y cy pixel_distance angle_rad in
  icon_ <- lv_label_create parent_ ;;
  call (Label_set_text icon_) ;;
  call (Set_pos icon_ (marker_x - 8) (marker_y - 8)) ;;
  ret (<[Z.to_nat i := with_icon icon_ marker]> markers).

(** [void lv_radar_add_markers(lv_obj_t *parent, uint8_t band_count,
      lv_radar_marker_t *markers, uint8_t marker_count)] *)
Definition lv_radar_add_markers (parent_ : lv_obj_ptr) (band_count : Z)
    (markers : list lv_radar_marker_t) (marker_count : Z)
    : M (list lv_radar_marker_t) :=
  st <- get_state ;;
  let total_meters := fmul (of_int band_count) (of_int 2) in
  let meters_per_pixel := fdiv total_meters (of_int (g_radius st)) in
  for_loop uint8_fuel (fun i => i <? marker_count) incr_uint8
    (add_markers_round parent_ (g_center_x st) (g_center_y st)
       meters_per_pixel)
    0 markers.

(** One round of the loop of [lv_radar_update_markers]: the icon of slot
    [i] is moved, whatever the handle holds. *)
Definition update_markers_round (cx cy : Z) (meters_per_pixel : F) (i : Z)
    (markers : list lv_radar_marker_t) : M (list lv_radar_marker_t) :=
  marker <- checked (markers !! Z.to_nat i) ;;
  let pixel_distance := fdiv (distance marker) meters_per_pixel in
  let angle_rad := deg2rad (of_int (angle marker)) in
  let marker_x := polar_x cx pixel_distance angle_rad in
  let marker_y := polar_y cy pixel_distance angle_rad in
  call (Set_pos (icon marker) (marker_x - 8) (marker_y - 8)) ;;
  ret markers.

(** [void lv_radar_update_markers(uint8_t band_count,
      lv_radar_marker_t *markers, uint8_t marker_count)] *)
Definition lv_radar_update_markers (band_count : Z)
    (markers : list lv_radar_marker_t) (marker_count : Z)
    : M (list lv_radar_marker_t) :=
  st <- get_state ;;
  let total_meters := fmul (of_int band_count) (of_int 2) in
  let meters_per_pixel := fdiv total_meters (of_int (g_radius st)) in
  for_loop uint8_fuel (fun i => i <? marker_count) incr_uint8
    (update_markers_round (g_center_x st) (g_center_y st) meters_per_pixel)
    0 markers.

(** One round of the loop of [lv_radar_remove_markers]. *)
Definition remove_markers_round (i : Z) (markers : list lv_radar_marker_t)
    : M (list lv_radar_marker_t) :=
  marker <- checked (markers !! Z.to_nat i) ;;
  match icon marker with
  | Some h =>
      call (Obj_del (Some h)) ;;
      ret (<[Z.to_nat i := with_icon None marker]> markers)
  | None => ret markers
  end.

(** [void lv_radar_remove_markers(lv_radar_marker_t *markers,
      uint8_t marker_count)] *)
Definition lv_radar_remove_markers (markers : list lv_radar_marker_t)
    (marker_count : Z) : M (list lv_radar_marker_t) :=
  for_loop uint8_fuel (fun i => i <? marker_count) incr_uint8
    remove_markers_round 0 markers.

(** ** The grid *)

(** [int16_t band_radius = radius / band_count;]: integer division, which
    traps on a zero divisor. *)
Definition band_radius_of (radius_ band_count : Z) : M Z :=
  if band_count =? 0 then raise Division_by_zero
  else ret (to_int16 (Z.quot radius_ band_count)).

(** [float angle_deg = (180.0f / (line_count - 1)) * i;] *)
Definition line_angle_deg (line_count i : Z) : F :=
  fmul (fdiv (of_int 180) (of_int (line_count - 1))) (of_int i).

(** [points[i][...] = ...] on the ten rows of [points]. *)
Definition store_points_row (i : Z) (row : list lv_point) : M unit :=
  st <- get_state ;;
  if (0 <=? i) && (i <? 10)
  then modify (set_points (<[Z.to_nat i := row]> (points st)))
  else raise Out_of_bounds.

(** One band of the grid: [lv_arc_create] and its geometry. *)
Definition draw_arc (parent_ : lv_obj_ptr) (cx cy band_radius band : Z)
    (lo hi : Z) : M unit :=
  let current_arc_radius := to_int16 (band_radius * band) in
  h_arc <- lv_arc_create parent_ ;;
  call (Set_size h_arc (current_arc_radius * 2) (current_arc_radius * 2)) ;;
  call (Set_pos h_arc (cx - current_arc_radius) (cy - current_arc_radius)) ;;
  call (Arc_set_range h_arc lo hi) ;;
  call (Arc_set_bg_angles h_arc lo hi) ;;
  call (Arc_set_value h_arc 180).

(** One radial line of the panel's grid: round [i] of the first loop, the
    line's points kept in row [i] of [points]. *)
Definition draw_line (parent_ : lv_obj_ptr) (cx cy r line_count : Z)
    (i : Z) (_ : unit) : M unit :=
  let angle_deg := line_angle_deg line_count i in
  let angle_rad := deg2rad angle_deg in
  let end_x := polar_x cx (of_int r) angle_rad in
  let end_y := polar_y cy (of_int r) angle_rad in
  line <- lv_line_create parent_ ;;
  store_points_row i [(cx, cy); (end_x, end_y)] ;;
  call (Line_set_points line (Points (Z.to_nat i)) 2).

(** [void lv_radar_screen_draw(lv_obj_t *parent, uint8_t band_count,
      uint8_t line_count)], the panel's grid: the radial lines, then one
    arc per band. *)
Definition lv_radar_screen_draw (parent_ : lv_obj_ptr)
    (band_count line_count : Z) : M unit :=
  st <- get_state ;;
  let cx := g_center_x st in
  let cy := g_center_y st in
  let r := g_radius st in
  band_radius <- band_radius_of r band_count ;;
  for_loop uint8_fuel (fun i => i <? line_count) incr_uint8
    (draw_line parent_ cx cy r line_count) 0 tt ;;
  for_loop uint8_fuel (fun band => band <=? band_count) incr_uint8
    (fun band _ => draw_arc parent_ cx cy band_radius band 180 360)
    1 tt.

(** [lv_obj_t *lv_radar_screen_create(lv_obj_t *parent, int16_t width,
      int16_t height)] *)
Definition lv_radar_screen_create (parent_ : lv_obj_ptr) (width height : Z)
    : M lv_obj_ptr :=
  radar_cont <- lv_obj_create parent_ ;;
  call (Set_size radar_cont width height) ;;
  modify (set_globals (to_int16 (Z.quot width 2)) height
            (to_int16 (height - 10))) ;;
  lv_radar_screen_draw radar_cont 4 9 ;;
  ret radar_cont.

(** One radial line of the grid of [main/radar_screen.c]: every line goes
    through the one array [points[2]]. *)
Definition radar_screen_c_line (parent_ : lv_obj_ptr) (cx cy r line_count : Z)
    (i : Z) (_ : unit) : M unit :=
  let angle_deg := line_angle_deg line_count i in
  let angle_rad := deg2rad angle_deg in
  let end_x := polar_x cx (of_int r) angle_rad in
  let end_y := polar_y cy (of_int r) angle_rad in
  line <- lv_line_create parent_ ;;
  modify (set_line_points [(cx, cy); (end_x, end_y)]) ;;
  call (Line_set_points line Line_points 2).

(** One horizontal reference line of that grid, through [h_points[2]]. *)
Definition radar_screen_c_h_line (parent_ : lv_obj_ptr)
    (cx cy band_radius : Z) (band : Z) (_ : unit) : M unit :=
  let y_pos := to_int16 (cy - band_radius * band) in
  h_line <- lv_line_create parent_ ;;
  modify (set_h_points
            [(to_int16 (cx - band_radius * band), y_pos);
             (to_int16 (cx + band_radius * band), y_pos)]) ;;
  call (Line_set_points h_line H_points 2).

(** The grid of [main/radar_screen.c], with the centre and the radius as
    arguments: the arcs, then the radial lines, then a horizontal line per
    inner band. *)
Definition radar_screen_c_draw (parent_ : lv_obj_ptr) (cx cy r : Z)
    (band_count line_count : Z) : M unit :=
  band_radius <- band_radius_of r band_count ;;
  for_loop uint8_fuel (fun band => band <=? band_count) incr_uint8
    (fun band _ => draw_arc parent_ cx cy band_radius band 0 180)
    1 tt ;;
  for_loop uint8_fuel (fun i => i <? line_count) incr_uint8
    (radar_screen_c_line parent_ cx cy r line_count) 0 tt ;;
  for_loop uint8_fuel (fun band => band <? band_count) incr_uint8
    (radar_screen_c_h_line parent_ cx cy band_radius) 1 tt.


(** ** What the marker operations leave behind *)

(** The handles of a sweep, the line first. *)
Definition sweep_handles (s : lv_radar_sweep_t) : list lv_obj_ptr :=
  sweep_line s :: shadow_list (shadow_lines s).

(** The position computed for a marker from the globals [cx], [cy], [r]:
    the statements between [// Calculate meters per pixel] and
    [// Calculate position]. *)
Definition marker_xy (cx cy r band_count : Z) (m : lv_radar_marker_t)
    : Z * Z :=
  let total_meters := fmul (of_int band_count) (of_int 2) in
  let meters_per_pixel := fdiv total_meters (of_int r) in
  let pixel_distance := fdiv (distance m) meters_per_pixel in
  let angle_rad := deg2rad (of_int (angle m)) in
  (polar_x cx pixel_distance angle_rad, polar_y cy pixel_distance angle_rad).

(** The coordinates passed to [lv_obj_set_pos] for a marker: its computed
    position less half the icon. *)
Definition icon_xy (cx cy r band_count : Z) (m : lv_radar_marker_t)
    : Z * Z :=
  (fst (marker_xy cx cy r band_count m) - 8,
   snd (marker_xy cx cy r band_count m) - 8).

(** [lv_obj_set_pos(icon, marker_x - 8, marker_y - 8)] *)
Definition place_icon (cx cy r band_count : Z) (m : lv_radar_marker_t)
    (h : lv_obj_ptr) : lv_call :=
  Set_pos h (fst (marker_xy cx cy r band_count m) - 8)
            (snd (marker_xy cx cy r band_count m) - 8).

(** Markers with the icons [n], [n + 1], ... and the calls that create and
    place them. *)
Fixpoint add_icons (n : nat) (ms : list lv_radar_marker_t)
    : list lv_radar_marker_t :=
  match ms with
  | [] => []
  | m :: ms' => with_icon (Some n) m :: add_icons (S n) ms'
  end.

Fixpoint add_calls (parent_ : lv_obj_ptr) (cx cy r band_count : Z)
    (n : nat) (ms : list lv_radar_marker_t) : list lv_call :=
  match ms with
  | [] => []
  | m :: ms' =>
      Create Lv_label n parent_
      :: Label_set_text (Some n)
      :: place_icon cx cy r band_count m (Some n)
      :: add_calls parent_ cx cy r band_count (S n) ms'
  end.

Definition update_calls (cx cy r band_count : Z)
    (ms : list lv_radar_marker_t) : list lv_call :=
  map (fun m => place_icon cx cy r band_count m (icon m)) ms.

Definition remove_calls (ms : list lv_radar_marker_t) : list lv_call :=
  map del (non_null (map icon ms)).

(** The bounds of a call: [marker_count] is a [uint8_t] and the array has
    at least that many slots. *)
Definition slots_ok (markers : list lv_radar_marker_t) (count : Z) : Prop :=
  0 <= count <= 255 /\ (Z.to_nat count <= length markers)%nat.

(** ** What drawing the grid leaves behind *)

(** The end of radial line [i]. *)
Definition line_end (cx cy r line_count i : Z) : lv_point :=
  (polar_x cx (of_int r) (deg2rad (line_angle_deg line_count i)),
   polar_y cy (of_int r) (deg2rad (line_angle_deg line_count i))).

(** The calls that create the lines [idx], from object [n] on, line [i]
    attached to the array [buf i]. *)
Fixpoint line_calls (parent_ : lv_obj_ptr) (buf : Z -> point_buffer)
    (n : nat) (idx : list Z) : list lv_call :=
  match idx with
  | [] => []
  | i :: idx' =>
      Create Lv_line n parent_
      :: Line_set_points (Some n) (buf i) 2
      :: line_calls parent_ buf (S n) idx'
  end.

(** The rows of [points] after the radial lines [idx] of the panel. *)
Definition grid_rows (cx cy r line_count : Z) (idx : list Z)
    (rows : list (list lv_point)) : list (list lv_point) :=
  fold_left
    (fun rows i =>
       <[Z.to_nat i := [(cx, cy); line_end cx cy r line_count i]]> rows)
    idx rows.

(** [points[2]] of [main/radar_screen.c] after its radial lines [idx], and
    [h_points[2]] after its horizontal lines [bands]: the last one drawn. *)
Definition c_line_points (cx cy r line_count : Z) (idx : list Z)
    (v : list lv_point) : list lv_point :=
  fold_left (fun _ i => [(cx, cy); line_end cx cy r line_count i]) idx v.

Definition c_h_points (cx cy band_radius : Z) (bands : list Z)
    (v : list lv_point) : list lv_point :=
  fold_left
    (fun _ band =>
       [(to_int16 (cx - band_radius * band),
         to_int16 (cy - band_radius * band));
        (to_int16 (cx + band_radius * band),
         to_int16 (cy - band_radius * band))])
    bands v.

(** The calls that create the arcs of the bands [bands], from object [n]
    on. *)
Fixpoint arc_calls (parent_ : lv_obj_ptr) (cx cy band_radius lo hi : Z)
    (n : nat) (bands : list Z) : list lv_call :=
  match bands with
  | [] => []
  | band :: bands' =>
      let current_arc_radius := to_int16 (band_radius * band) in
      Create Lv_arc n parent_
      :: Set_size (Some n) (current_arc_radius * 2) (current_arc_radius * 2)
      :: Set_pos (Some n) (cx - current_arc_radius) (cy - current_arc_radius)
      :: Arc_set_range (Some n) lo hi
      :: Arc_set_bg_angles (Some n) lo hi
      :: Arc_set_value (Some n) 180
      :: arc_calls parent_ cx cy band_radius lo hi (S n) bands'
  end.

(** The state the panel's grid leaves, for a band count that is not zero. *)
Definition drawn (parent_ : lv_obj_ptr) (band_count line_count : Z)
    (st : state) : state :=
  let cx := g_center_x st in
  let cy := g_center_y st in
  let r := g_radius st in
  let band_radius := to_int16 (Z.quot r band_count) in
  let lines := seqZ 0 line_count in
  let bands := seqZ 1 band_count in
  set_points (grid_rows cx cy r line_count lines (points st))
    (set_toolkit (next_obj st + length lines + length bands)
       (calls st
        ++ line_calls parent_ (fun i => Points (Z.to_nat i)) (next_obj st)
             lines
        ++ arc_calls parent_ cx cy band_radius 180 360
             (next_obj st + length lines) bands)
       st).

(** The state the grid of [main/radar_screen.c] leaves. *)
Definition c_drawn (parent_ : lv_obj_ptr) (cx cy r band_count line_count : Z)
    (st : state) : state :=
  let band_radius := to_int16 (Z.quot r band_count) in
  let bands := seqZ 1 band_count in
  let lines := seqZ 0 line_count in
  let h_lines := seqZ 1 (band_count - 1) in
  set_h_points (c_h_points cx cy band_radius h_lines (h_points st))
    (set_line_points (c_line_points cx cy r line_count lines (line_points st))
       (set_toolkit
          (next_obj st + length bands + length lines + length h_lines)
          (calls st
           ++ arc_calls parent_ cx cy band_radius 0 180 (next_obj st) bands
           ++ line_calls parent_ (fun _ => Line_points)
                (next_obj st + length bands) lines
           ++ line_calls parent_ (fun _ => H_points)
                (next_obj st + length bands + length lines) h_lines)
          st)).

(** ** What an update of the sweep leaves behind *)

Definition or_fresh (h : lv_obj_ptr) (n : nat) : lv_obj_ptr :=
  match h with Some _ => h | None => Some n end.

(** The end of the line drawn from the centre at [a] degrees. *)
Definition sweep_end (s : lv_radar_sweep_t) (a : F) : lv_point :=
  (polar_x (center_x s) (of_int (radius s)) (deg2rad a),
   polar_y (center_y s) (of_int (radius s)) (deg2rad a)).

Record sweep_update_post (s : lv_radar_sweep_t) (st : state) (a : Z)
    (s' : lv_radar_sweep_t) (st' : state) : Prop := {
  post_angle : current_angle s' = clamp_angle a;
  post_geometry :
    parent s' = parent s /\ center_x s' = center_x s /\
    center_y s' = center_y s /\ radius s' = radius s;
  post_sweep_line : sweep_line s' = or_fresh (sweep_line s) (next_obj st);
  post_shadow_lines : Forall is_Some (shadow_list (shadow_lines s'));
  post_sweep_points :
    sweep_points st' =
      [(center_x s, center_y s); sweep_end s (of_int (clamp_angle a))];
  post_shadow_points :
    shadow_points st' =
      [(center_x s, center_y s);
       sweep_end s (shadow_angle (clamp_angle a) 4)];
  post_calls : calls st' = calls st ++ new_calls st st';
  post_opacity :
    opacity_calls (new_calls st st') =
      zip (shadow_list (shadow_lines s')) [255; 205; 155; 105; 55];
  post_points :
    points_calls (new_calls st st') =
      (sweep_line s', Sweep_points)
      :: map (fun h => (h, Shadow_points)) (shadow_list (shadow_lines s'))
}.

End Panel.

Arguments lv_radar_marker_t F : clear implicits.

(** ** The panel of the 480 x 320 display

    [lv_radar_panel_init(480, 320)] puts the centre at (240, 320) with a
    radius of 310, draws 4 bands and 9 lines, and shows two people: at 2.5
    metres and 45 degrees, and at 4.5 metres and 120 degrees. *)

Definition panel_state : state := set_globals 240 320 310 initial_state.

Definition panel_sweep : lv_radar_sweep_t :=
  {| parent := Some 1%nat; center_x := 240; center_y := 320; radius := 310;
     current_angle := 0; sweep_line := None;
     shadow_lines := Shadows None None None None None |}.

Definition panel_markers : list (lv_radar_marker_t R) :=
  [ {| icon := None; distance := (25 / 10)%R; angle := 45 |};
    {| icon := None; distance := (45 / 10)%R; angle := 120 |} ].

(** The same two people once their icons, objects 1 and 2, are shown. *)
Definition shown_markers : list (lv_radar_marker_t R) :=
  [ {| icon := Some 1%nat; distance := (25 / 10)%R; angle := 45 |};
    {| icon := Some 2%nat; distance := (45 / 10)%R; angle := 120 |} ].

(** A sweep at the right edge of the coordinate range. *)
Definition edge_sweep : lv_radar_sweep_t :=
  {| parent := Some 1%nat; center_x := 32767; center_y := 0; radius := 100;
     current_angle := 0; sweep_line := None;
     shadow_lines := Shadows None None None None None |}.

(** A target at 45 degrees whose distance is 2500, and one at the full
    range of 8 metres straight to the right. *)
Definition target_2500 : lv_radar_marker_t R :=
  {| icon := None; distance := 2500%R; angle := 45 |}.

Definition target_full_range : lv_radar_marker_t R :=
  {| icon := None; distance := 8%R; angle := 0 |}.

(** ** Start-up

    [void lv_radar_panel_init(int16_t xRes, int16_t yRes)]: a new screen,
    the radar on it, the sweep, and two people.  The result of
    [lv_radar_sweep_create] is dropped and the array of markers is a local
    of the function.  [lit_2_5] and [lit_4_5] are the literals [2.5f] and
    [4.5f]. *)

Section Startup.
Context {F : Type} `{FloatOps F}.
Variables (lit_2_5 lit_4_5 : F).

Definition init_markers : list (lv_radar_marker_t F) :=
  [ {| icon := None; distance := lit_2_5; angle := 45 |};
    {| icon := None; distance := lit_4_5; angle := 120 |} ].

Definition lv_radar_panel_init (malloc_ok : bool) (xRes yRes : Z) : M unit :=
  scr <- lv_obj_create None ;;
  call (Screen_load scr) ;;
  call (Obj_clean scr) ;;
  radar <- lv_radar_screen_create scr xRes yRes ;;
  lv_radar_sweep_create malloc_ok radar 4000 true ;;
  lv_radar_add_markers radar 4 init_markers 2 ;;
  ret tt.

End Startup.

(** ** More of the log *)

(** The objects created, each with the parent it was created in, and the
    animations started. *)
Definition created_in (l : list lv_call) : list (nat * lv_obj_ptr) :=
  omap (fun c => match c with
                 | Create _ h p => Some (h, p)
                 | _ => None
                 end) l.
Definition anim_calls (l : list lv_call) : list lv_call :=
  omap (fun c => match c with
                 | Anim_start _ _ _ _ _ _ => Some c
                 | _ => None
                 end) l.

(** The handles of [l] once every [NULL] among them has been given a new
    object, [n] first, and the number of [NULL]s. *)
Fixpoint fresh_handles (n : nat) (l : list lv_obj_ptr) : list lv_obj_ptr :=
  match l with
  | [] => []
  | Some h :: l' => Some h :: fresh_handles n l'
  | None :: l' => Some n :: fresh_handles (S n) l'
  end.

Fixpoint null_count (l : list lv_obj_ptr) : nat :=
  match l with
  | [] => 0
  | Some _ :: l' => null_count l'
  | None :: l' => S (null_count l')
  end.

(** The rectangle around the half disc of centre [(cx, cy)] and radius
    [r] in which the radar is drawn; the y axis of the screen points
    down. *)
Definition in_radar_box (cx cy r : Z) (p : lv_point) : Prop :=
  cx - r <= fst p <= cx + r /\ cy - r <= snd p <= cy.

(** * Properties *)

(** ** Integers *)

Lemma to_int16_id z : int16_range z -> to_int16 z = z.
Proof.
  unfold int16_range, to_int16. intros Hz.
  rewrite Z.mod_small by lia. lia.
Qed.

Lemma to_int16_in_range z : int16_range (to_int16 z).
Proof.
  unfold int16_range, to_int16.
  pose proof (Z.mod_pos_bound (z + 32768) 65536 ltac:(lia)). lia.
Qed.

Lemma to_uint8_id z : uint8_range z -> to_uint8 z = z.
Proof. unfold uint8_range, to_uint8. intros Hz. apply Z.mod_small. lia. Qed.

(** ** Loops *)

(** A [uint8_t] counter running below a [uint8_t] bound visits
    [i, i + 1, ..., n - 1] and stops. *)
Lemma for_loop_uint8_lt {A} (body : Z -> A -> M A) (n : Z) :
  0 <= n <= 255 ->
  forall (fuel : nat) (i : Z) (a : A) (st : state),
    0 <= i <= n -> (Z.to_nat (n - i) < fuel)%nat ->
    for_loop fuel (fun i => i <? n) incr_uint8 body i a st
    = for_each (seqZ i (n - i)) body a st.
Proof.
  intros Hn fuel. induction fuel as [|fuel IH]; intros i a st Hi Hfuel.
  - lia.
  - cbn [for_loop]. destruct (Z.ltb_spec i n) as [Hlt|Hge].
    + replace (n - i) with (Z.succ (n - i - 1)) by lia.
      rewrite seqZ_cons by lia. cbn [for_each]. unfold bind.
      destruct (body i a st) as [a' st'|f st']; [|reflexivity].
      replace (Z.pred (Z.succ (n - i - 1))) with (n - Z.succ i) by lia.
      replace (incr_uint8 i) with (Z.succ i).
      * apply IH; lia.
      * unfold incr_uint8. rewrite to_uint8_id; unfold uint8_range; lia.
    + replace (n - i) with 0 by lia. reflexivity.
Qed.

(** The same for a counter that starts at 1 and runs up to the bound
    included, when the bound is not the largest [uint8_t]. *)
Lemma for_loop_uint8_le {A} (body : Z -> A -> M A) (n : Z) :
  0 <= n <= 254 ->
  forall (fuel : nat) (i : Z) (a : A) (st : state),
    0 <= i <= n + 1 -> (Z.to_nat (n + 1 - i) < fuel)%nat ->
    for_loop fuel (fun i => i <=? n) incr_uint8 body i a st
    = for_each (seqZ i (n + 1 - i)) body a st.
Proof.
  intros Hn fuel. induction fuel as [|fuel IH]; intros i a st Hi Hfuel.
  - lia.
  - cbn [for_loop]. destruct (Z.leb_spec i n) as [Hle|Hgt].
    + replace (n + 1 - i) with (Z.succ (n - i)) by lia.
      rewrite seqZ_cons by lia. cbn [for_each]. unfold bind.
      destruct (body i a st) as [a' st'|f st']; [|reflexivity].
      replace (Z.pred (Z.succ (n - i))) with (n + 1 - Z.succ i) by lia.
      replace (incr_uint8 i) with (Z.succ i).
      * apply IH; lia.
      * unfold incr_uint8. rewrite to_uint8_id; unfold uint8_range; lia.
    + replace (n + 1 - i) with 0 by lia. reflexivity.
Qed.

Lemma new_calls_app st l st' :
  calls st' = calls st ++ l -> new_calls st st' = l.
Proof. unfold new_calls. intros ->. apply drop_app_length. Qed.


(** ** Exact arithmetic is a model of [FloatSpec] *)

Lemma eps_val : eps = (1 / 8388608)%R.
Proof. unfold eps. change (2 ^ 23) with 8388608. lra. Qed.

Lemma eps_pos : (0 < eps)%R.
Proof. rewrite eps_val. lra. Qed.

Lemma eta_bounds : (0 < eta <= 1 / 1000000000000)%R.
Proof.
  unfold eta.
  change (2 ^ 126) with 85070591730234615865843651857942052864.
  split.
  - apply Rinv_0_lt_compat. lra.
  - apply Rmult_le_reg_r
      with (r := 85070591730234615865843651857942052864%R); [lra|].
    rewrite Rinv_l by lra. lra.
Qed.

Lemma eta_pos : (0 < eta)%R.
Proof. apply eta_bounds. Qed.

Lemma fmax_val : fmax = 170141183460469231731687303715884105728%R.
Proof. reflexivity. Qed.

Lemma exact_error (x : R) (k : R) :
  (0 <= k)%R -> (Rabs (x - x) <= eps * k + eta)%R.
Proof.
  intros Hk. replace (x - x)%R with 0%R by lra. rewrite Rabs_R0.
  pose proof eps_pos. pose proof eta_pos. nra.
Qed.

Lemma Rtrunc_is_trunc (x : R) : is_trunc x (Rtrunc x).
Proof.
  unfold is_trunc, Rtrunc. destruct (Rle_dec 0 x) as [Hx|Hx].
  - destruct (base_Int_part x) as [Hlo Hhi]. split; intros Hs.
    + lra.
    + assert (x = 0%R) as -> by lra.
      assert (Int_part 0 = 0) as ->.
      { assert (Int_part 0 <= 0) by (apply le_IZR; lra).
        assert (-1 < Int_part 0) by (apply lt_IZR; lra). lia. }
      lra.
  - destruct (base_Int_part (- x)) as [Hlo Hhi].
    rewrite opp_IZR. split; intros Hs; lra.
Qed.

Lemma exact_spec : FloatSpec R.
Proof.
  constructor; cbn; intros.
  - split; [exact I | reflexivity].
  - destruct (Rlt_dec x y); split; intros; try discriminate; tauto.
  - split; [exact I | apply exact_error, Rabs_pos].
  - split; [exact I | apply exact_error, Rabs_pos].
  - split; [exact I |]. replace (cos x - cos x)%R with 0%R by lra.
    rewrite Rabs_R0. pose proof eps_pos. lra.
  - split; [exact I |]. replace (sin x - sin x)%R with 0%R by lra.
    rewrite Rabs_R0. pose proof eps_pos. lra.
  - split; [exact I | apply exact_error, Rabs_pos].
  - apply Rtrunc_is_trunc.
Qed.

(** ** The sweep *)

Arguments to_int16 !z /.
Arguments to_int32 !z /.
Arguments to_uint8 !z /.
Arguments polar_x : simpl never.
Arguments polar_y : simpl never.
Arguments sweep_end : simpl never.
Arguments shadow_angle : simpl never.
Arguments clamp_angle : simpl never.

(** Runs the monadic structure of a model and leaves the arithmetic alone. *)
Ltac run :=
  lazy -[polar_x polar_y sweep_end shadow_opacity shadow_angle clamp_angle
         app Z.add Z.sub Z.mul Z.quot to_int16 cast_int16 of_int deg2rad
         fmul fdiv cosf sinf ftrunc fltb].

Section SweepProps.
Context {F : Type} `{FloatOps F}.

(** The shadow loop runs its body for [i = 0, 1, 2, 3, 4]. *)
Lemma sweep_loop_unroll {A} (body : Z -> A -> M A) a st :
  for_loop 6 (fun i => i <? 5) incr_int16 body 0 a st
  = for_each [0; 1; 2; 3; 4] body a st.
Proof. reflexivity. Qed.

Lemma clamp_angle_min a : clamp_angle a = Z.min a 180.
Proof. unfold clamp_angle. destruct (Z.ltb_spec 180 a); lia. Qed.

(** An update never fails, whatever was created before, and leaves the
    structure and the toolkit as [sweep_update_post] says. *)
Lemma sweep_update_run (s : lv_radar_sweep_t) (st : state) (a : Z) :
  exists s' st',
    lv_radar_sweep_update (Some s) a st = Ok s' st' /\
    sweep_update_post s st a s' st'.
Proof.
  destruct st as [gx gy gr swp shp pts lp hp n cl].
  destruct s as [p cx cy r ca l [s0 s1 s2 s3 s4]].
  destruct l, s0, s1, s2, s3, s4;
    (eexists; eexists; split;
     [ unfold lv_radar_sweep_update; cbn -[for_loop];
       rewrite sweep_loop_unroll; run; reflexivity | ]).
  all: match goal with
       | |- sweep_update_post ?s ?st _ _ ?st' =>
           assert (exists l, calls st' = calls st ++ l) as [log Hlog]
             by (eexists; cbn [calls]; rewrite <- ?app_assoc; reflexivity);
           pose proof (new_calls_app _ _ _ Hlog) as Hnew
       end.
  all: split; rewrite ?Hnew; try exact Hlog; clear Hnew.
  all: cbn [calls] in Hlog; rewrite <- ?app_assoc in Hlog;
       apply app_inv_head in Hlog; subst log.
  all: try reflexivity.
  all: repeat split.
  all: repeat constructor; eexists; reflexivity.
Qed.

(** Any angle above 180 is the angle 180. *)
Lemma sweep_update_above (s : option lv_radar_sweep_t) (st : state) (a : Z) :
  180 <= a ->
  lv_radar_sweep_update s a st = lv_radar_sweep_update s 180 st.
Proof.
  intros Ha. destruct s as [s|]; [|reflexivity].
  unfold lv_radar_sweep_update.
  replace (clamp_angle a) with (clamp_angle 180); [reflexivity|].
  rewrite !clamp_angle_min. lia.
Qed.

(** C2. [lv_radar_sweep_update] clamps its angle to [0, 180] before anything
    else: the update succeeds, [current_angle] is the clamped angle and lies
    in [0, 180], the sweep line ends where the clamped angle puts it, and an
    update with 181 (or any angle above 180) has exactly the outcome,
    structure, point arrays and toolkit calls included, of an update with
    180. *)
Theorem sweep_update_clamps (s : lv_radar_sweep_t) (st : state) (a : Z) :
  uint16_range a ->
  (exists s' st',
     lv_radar_sweep_update (Some s) a st = Ok s' st' /\
     current_angle s' = Z.min a 180 /\
     0 <= current_angle s' <= 180 /\
     sweep_points st' =
       [(center_x s, center_y s); sweep_end s (of_int (Z.min a 180))]) /\
  lv_radar_sweep_update (Some s) 181 st
  = lv_radar_sweep_update (Some s) 180 st /\
  (180 <= a ->
   lv_radar_sweep_update (Some s) a st
   = lv_radar_sweep_update (Some s) 180 st).
Proof.
  intros Ha. unfold uint16_range in Ha. split; [|split].
  - destruct (sweep_update_run s st a) as (s' & st' & Hrun & Hpost).
    exists s', st'. destruct Hpost. rewrite <- clamp_angle_min.
    repeat split; try assumption; rewrite post_angle0, clamp_angle_min; lia.
  - apply sweep_update_above. lia.
  - apply sweep_update_above.
Qed.

(** The animation callback narrows its [int32_t] value to [uint16_t]; the
    angle it stores is in [0, 180] for every value. *)
Lemma sweep_anim_cb_clamps (s : lv_radar_sweep_t) (st : state) (v : Z) :
  exists s' st',
    lv_radar_sweep_anim_cb (Some s) v st = Ok s' st' /\
    0 <= current_angle s' <= 180.
Proof.
  unfold lv_radar_sweep_anim_cb.
  destruct (sweep_update_run s st (to_uint16 v)) as (s' & st' & Hrun & Hpost).
  exists s', st'. split; [exact Hrun|]. destruct Hpost.
  rewrite post_angle0, clamp_angle_min.
  unfold to_uint16. pose proof (Z.mod_pos_bound v 65536 ltac:(lia)). lia.
Qed.

(** C4. In every update the opacity set on shadow [j] is [255 - 50 * j]:
    the five opacity calls of the update go to the five shadow lines in
    order, with 255, 205, 155, 105 and 55.  The sequence strictly decreases
    and stays positive. *)
Theorem shadow_opacity_sequence (s : lv_radar_sweep_t) (st : state) (a : Z) :
  (exists s' st',
     lv_radar_sweep_update (Some s) a st = Ok s' st' /\
     opacity_calls (new_calls st st') =
       zip (shadow_list (shadow_lines s')) (map shadow_opacity [0; 1; 2; 3; 4]))
  /\ map shadow_opacity [0; 1; 2; 3; 4] = [255; 205; 155; 105; 55]
  /\ (forall j, 0 <= j <= 4 -> shadow_opacity j = 255 - 50 * j)
  /\ (forall j k, 0 <= j -> j < k -> k <= 4 ->
      shadow_opacity k < shadow_opacity j)
  /\ (forall j, 0 <= j <= 4 -> 0 <= shadow_opacity j).
Proof.
  assert (Hf : forall j, 0 <= j <= 4 -> shadow_opacity j = 255 - 50 * j).
  { intros j Hj. unfold shadow_opacity.
    rewrite to_uint8_id; unfold uint8_range; lia. }
  split; [|split; [reflexivity|split; [exact Hf|split]]].
  - destruct (sweep_update_run s st a) as (s' & st' & Hrun & Hpost).
    exists s', st'. split; [exact Hrun|]. apply Hpost.
  - intros j k Hj Hjk Hk. rewrite !Hf by lia. lia.
  - intros j Hj. rewrite Hf by lia. lia.
Qed.

(** After an update the five shadow lines all point at the one array
    [shadow_points], which holds the end computed for the last shadow. *)
Lemma shadow_lines_share_points (s : lv_radar_sweep_t) (st : state) (a : Z) :
  exists s' st',
    lv_radar_sweep_update (Some s) a st = Ok s' st' /\
    points_calls (new_calls st st') =
      (sweep_line s', Sweep_points)
      :: map (fun h => (h, Shadow_points)) (shadow_list (shadow_lines s')) /\
    shadow_points st' =
      [(center_x s, center_y s);
       sweep_end s (shadow_angle (clamp_angle a) 4)].
Proof.
  destruct (sweep_update_run s st a) as (s' & st' & Hrun & Hpost).
  exists s', st'. destruct Hpost. auto.
Qed.

End SweepProps.

Section ShadowProps.
Context {F : Type} `{FloatOps F} `{FloatVal F} `{!FloatSpec F}.

(** Integers that convert exactly compare as floats the way they compare
    as integers. *)
Lemma fltb_of_int (a b : Z) :
  - 2 ^ 24 <= a <= 2 ^ 24 -> - 2 ^ 24 <= b <= 2 ^ 24 ->
  fltb (of_int a) (of_int b) = (a <? b).
Proof.
  intros Ha Hb.
  destruct (of_int_spec a Ha) as [Fa Va], (of_int_spec b Hb) as [Fb Vb].
  pose proof (fltb_spec (of_int a) (of_int b) Fa Fb) as Hlt.
  rewrite Va, Vb in Hlt.
  destruct (Z.ltb_spec a b) as [Hab|Hab].
  - apply Hlt. now apply IZR_lt.
  - destruct (fltb (of_int a) (of_int b)); [|reflexivity].
    assert (IZR a < IZR b)%R as Hr by now apply Hlt.
    apply lt_IZR in Hr. lia.
Qed.

Lemma shadow_angle_max (a j : Z) :
  0 <= a <= 65535 -> 0 <= j <= 4 ->
  shadow_angle a j = of_int (Z.max 0 (a - 8 * (j + 1))).
Proof.
  intros Ha Hj. unfold shadow_angle.
  rewrite fltb_of_int by lia.
  destruct (Z.ltb_spec (a - (j + 1) * 8) 0); f_equal; lia.
Qed.

(** One round of the shadow loop, for a shadow index in range: the line of
    slot [i] exists afterwards, gets the opacity of [i], and is attached to
    [shadow_points], which holds the end computed for [shadow_angle]. *)
Lemma shadow_step_run (angle i : Z) (s : lv_radar_sweep_t) (st : state) :
  0 <= i <= 4 ->
  exists s' st' h,
    shadow_step angle i s st = Ok s' st' /\
    shadow_get (shadow_lines s') i = Some (Some h) /\
    shadow_points st' =
      [(center_x s, center_y s); sweep_end s (shadow_angle angle i)] /\
    points_calls (new_calls st st') = [(Some h, Shadow_points)] /\
    opacity_calls (new_calls st st') = [(Some h, shadow_opacity i)].
Proof.
  intros Hi.
  destruct st as [gx gy gr swp shp pts lp hp n cl].
  destruct s as [p cx cy r ca l [s0 s1 s2 s3 s4]].
  assert (i = 0 \/ i = 1 \/ i = 2 \/ i = 3 \/ i = 4)
    as [->|[->|[->|[->| ->]]]] by lia.
  all: destruct s0, s1, s2, s3, s4.
  all: eexists; eexists; eexists;
       (split; [unfold shadow_step; run; reflexivity|]).
  all: (split; [reflexivity|]); (split; [reflexivity|]).
  all: erewrite new_calls_app
         by (cbn [calls]; rewrite <- ?app_assoc; reflexivity).
  all: split; reflexivity.
Qed.

(** One round of the shadow loop on its own: for an angle from 0 to 180
    and a shadow index [j] in 0..4 the shadow's angle is
    [max 0 (a - 8 * (j + 1))], converted exactly to a float, and the round
    attaches shadow line [j] to the end point computed for that angle. *)
Lemma shadow_round_formula (a j : Z) (s : lv_radar_sweep_t) (st : state) :
  0 <= a <= 180 -> 0 <= j <= 4 ->
  shadow_angle a j = of_int (Z.max 0 (a - 8 * (j + 1))) /\
  (exists s' st' h,
     shadow_step a j s st = Ok s' st' /\
     shadow_get (shadow_lines s') j = Some (Some h) /\
     points_calls (new_calls st st') = [(Some h, Shadow_points)] /\
     shadow_points st' =
       [(center_x s, center_y s);
        sweep_end s (of_int (Z.max 0 (a - 8 * (j + 1))))]) /\
  shadow_angle 10 0 = of_int 2 /\
  (forall k, 1 <= k <= 4 -> shadow_angle 10 k = of_int 0).
Proof.
  intros Ha Hj. split; [|split; [|split]].
  - apply shadow_angle_max; lia.
  - destruct (shadow_step_run a j s st Hj)
      as (s' & st' & h & Hrun & Hslot & Hpts & Hcalls & _).
    exists s', st', h. rewrite <- shadow_angle_max by lia. auto.
  - rewrite shadow_angle_max by lia. reflexivity.
  - intros k Hk. rewrite shadow_angle_max by lia. f_equal. lia.
Qed.

End ShadowProps.

(** ** Teardown of the sweep *)

Section DeleteProps.
Context {F : Type} `{FloatOps F}.

Lemma delete_loop_unroll {A} (body : Z -> A -> M A) a st :
  for_loop 6 (fun i => i <? 5) incr_int body 0 a st
  = for_each [0; 1; 2; 3; 4] body a st.
Proof. reflexivity. Qed.

Lemma sweep_delete_run (s : lv_radar_sweep_t) (st : state) :
  lv_radar_sweep_delete (Some s) st
  = Ok tt (log (map del (non_null (sweep_handles s)) ++ [Free_sweep]) st).
Proof.
  destruct st as [gx gy gr swp shp pts lp hp n cl].
  destruct s as [p cx cy r ca l [s0 s1 s2 s3 s4]].
  destruct l, s0, s1, s2, s3, s4.
  all: unfold lv_radar_sweep_delete; cbn -[for_loop].
  all: unfold bind at 1; cbn -[for_loop]; rewrite delete_loop_unroll.
  all: run.
  all: rewrite <- ?app_assoc; reflexivity.
Qed.

(** C9. [lv_radar_sweep_delete] does nothing on [NULL].  On a structure it
    releases, in order, the sweep line and the shadow lines that exist, then
    frees the structure: a handle that is [NULL] is never passed to
    [lv_obj_del], so the same holds for a structure none or only some of
    whose lines were created.  With all six lines created there are six
    releases; with none, only the structure is freed. *)
Theorem sweep_delete_releases :
  (forall st : state, lv_radar_sweep_delete None st = Ok tt st) /\
  (forall (s : lv_radar_sweep_t) (st : state),
     exists st',
       lv_radar_sweep_delete (Some s) st = Ok tt st' /\
       st' = log (new_calls st st') st /\
       new_calls st st'
       = map del (non_null (sweep_handles s)) ++ [Free_sweep] /\
       Obj_del None ∉ new_calls st st') /\
  (forall p cx cy r a l s0 s1 s2 s3 s4,
     non_null (sweep_handles
                 {| parent := p; center_x := cx; center_y := cy;
                    radius := r; current_angle := a;
                    sweep_line := Some l;
                    shadow_lines :=
                      Shadows (Some s0) (Some s1) (Some s2) (Some s3)
                        (Some s4) |})
     = [l; s0; s1; s2; s3; s4]) /\
  (forall p cx cy r a,
     non_null (sweep_handles
                 {| parent := p; center_x := cx; center_y := cy;
                    radius := r; current_angle := a;
                    sweep_line := None;
                    shadow_lines := Shadows None None None None None |})
     = []).
Proof.
  split; [reflexivity|]. split; [|split; reflexivity].
  intros s st. eexists. split; [apply sweep_delete_run|].
  rewrite new_calls_app
    with (l := map del (non_null (sweep_handles s)) ++ [Free_sweep])
    by reflexivity.
  split; [reflexivity|]. split; [reflexivity|].
  rewrite elem_of_app, list_elem_of_singleton.
  intros [Hin|Hf]; [|discriminate].
  apply list_elem_of_In, in_map_iff in Hin as (h & Hh & _). discriminate.
Qed.

End DeleteProps.

(** ** Markers *)

Arguments marker_xy : simpl never.

Lemma log_nil st : log [] st = st.
Proof. destruct st. unfold log, set_toolkit. cbn. now rewrite app_nil_r. Qed.

Lemma log_log l1 l2 st : log l2 (log l1 st) = log (l1 ++ l2) st.
Proof. unfold log, set_toolkit. cbn. now rewrite app_assoc. Qed.

Lemma log_calls l st : calls (log l st) = calls st ++ l.
Proof. reflexivity. Qed.

Lemma new_calls_log l st : new_calls st (log l st) = l.
Proof. apply new_calls_app. reflexivity. Qed.

Lemma insert_middle {A} (done : list A) (x y : A) (rest : list A) :
  <[length done := y]> (done ++ x :: rest) = done ++ y :: rest.
Proof. induction done as [|d done IH]; cbn; [reflexivity|]. now f_equal. Qed.

Section MarkerProps.
Context {F : Type} `{FloatOps F}.

Implicit Types (markers todo done tail : list (lv_radar_marker_t F)).

(** The loops over the slots, started at slot [length done] with the slots
    [todo] ahead. *)
Ltac next_slot m todo :=
  rewrite seqZ_cons by (cbn [length]; lia); cbn [for_each];
  unfold bind at 1;
  rewrite Nat2Z.id; rewrite <- app_comm_cons;
  replace (Z.pred (Z.of_nat (length (m :: todo))))
    with (Z.of_nat (length todo)) by (cbn [length]; lia).

Lemma remove_each todo done tail (st : state) :
  for_each (seqZ (Z.of_nat (length done)) (Z.of_nat (length todo)))
    remove_markers_round (done ++ todo ++ tail) st
  = Ok (done ++ map (with_icon None) todo ++ tail)
       (log (remove_calls todo) st).
Proof.
  revert done st. induction todo as [|m todo IH]; intros done st.
  - cbn. rewrite log_nil. reflexivity.
  - unfold remove_markers_round at 1. next_slot m todo.
    unfold bind at 1.
    rewrite (list_lookup_middle done (todo ++ tail) m) by reflexivity.
    cbn [checked ret].
    replace (Z.succ (Z.of_nat (length done)))
      with (Z.of_nat (length (done ++ [with_icon None m])))
      by (rewrite length_app; cbn; lia).
    destruct m as [[h|] d a]; cbn [icon].
    + unfold bind at 1. cbn [call modify ret].
      rewrite insert_middle.
      change (done ++ ?x :: todo ++ tail) with (done ++ [x] ++ todo ++ tail).
      rewrite app_assoc, IH, <- app_assoc. f_equal.
      fold (log [Obj_del (Some h)] st). rewrite log_log. reflexivity.
    + change (done ++ ?x :: todo ++ tail) with (done ++ [x] ++ todo ++ tail).
      rewrite app_assoc.
      change [{| icon := None; distance := d; angle := a |}]
        with [with_icon None {| icon := None; distance := d; angle := a |}].
      unfold ret at 1. rewrite IH, <- app_assoc. reflexivity.
Qed.

Lemma update_each (cx cy r b : Z) todo done tail (st : state) :
  for_each (seqZ (Z.of_nat (length done)) (Z.of_nat (length todo)))
    (update_markers_round cx cy
       (fdiv (fmul (of_int b) (of_int 2)) (of_int r)))
    (done ++ todo ++ tail) st
  = Ok (done ++ todo ++ tail) (log (update_calls cx cy r b todo) st).
Proof.
  revert done st. induction todo as [|m todo IH]; intros done st.
  - cbn. rewrite log_nil. reflexivity.
  - unfold update_markers_round at 1. next_slot m todo.
    unfold bind at 1.
    rewrite (list_lookup_middle done (todo ++ tail) m) by reflexivity.
    cbn [checked ret]. unfold bind at 1. cbn [call modify ret].
    replace (Z.succ (Z.of_nat (length done)))
      with (Z.of_nat (length (done ++ [m])))
      by (rewrite length_app; cbn; lia).
    change (done ++ m :: todo ++ tail) with (done ++ [m] ++ todo ++ tail).
    rewrite app_assoc, IH, <- app_assoc. f_equal.
    match goal with
    | |- log _ (set_toolkit _ (_ ++ [?c]) st) = _ =>
        change (set_toolkit (next_obj st) (calls st ++ [c]) st)
          with (log [c] st)
    end.
    rewrite log_log. reflexivity.
Qed.

Lemma add_each (parent_ : lv_obj_ptr) (cx cy r b : Z) todo done tail
    (st : state) :
  for_each (seqZ (Z.of_nat (length done)) (Z.of_nat (length todo)))
    (add_markers_round parent_ cx cy
       (fdiv (fmul (of_int b) (of_int 2)) (of_int r)))
    (done ++ todo ++ tail) st
  = Ok (done ++ add_icons (next_obj st) todo ++ tail)
       (set_toolkit (next_obj st + length todo)
          (calls st ++ add_calls parent_ cx cy r b (next_obj st) todo) st).
Proof.
  revert done st. induction todo as [|m todo IH]; intros done st.
  - cbn. destruct st; unfold set_toolkit; cbn.
    rewrite app_nil_r, Nat.add_0_r. reflexivity.
  - unfold add_markers_round at 1. next_slot m todo.
    unfold bind at 1.
    rewrite (list_lookup_middle done (todo ++ tail) m) by reflexivity.
    cbn [checked ret]. unfold bind at 1.
    cbn [lv_label_create create]. unfold bind at 1. cbn [call modify].
    unfold bind at 1. cbn [call modify ret].
    rewrite insert_middle.
    replace (Z.succ (Z.of_nat (length done)))
      with (Z.of_nat (length (done ++ [with_icon (Some (next_obj st)) m])))
      by (rewrite length_app; cbn; lia).
    change (done ++ ?x :: todo ++ tail) with (done ++ [x] ++ todo ++ tail).
    rewrite app_assoc, IH, <- app_assoc. f_equal.
    destruct st; unfold set_toolkit; cbn -[marker_xy place_icon add_calls].
    f_equal; [lia|]. rewrite <- !app_assoc. reflexivity.
Qed.

Lemma slots_split markers count :
  slots_ok markers count ->
  markers = [] ++ take (Z.to_nat count) markers ++ drop (Z.to_nat count) markers
  /\ Z.of_nat (length (take (Z.to_nat count) markers)) = count - 0.
Proof.
  intros [Hc Hlen]. split.
  - cbn [app]. now rewrite take_drop.
  - rewrite length_take_le by lia. lia.
Qed.

Lemma remove_markers_run markers (count : Z) (st : state) :
  slots_ok markers count ->
  lv_radar_remove_markers markers count st
  = Ok (map (with_icon None) (take (Z.to_nat count) markers)
        ++ drop (Z.to_nat count) markers)
       (log (remove_calls (take (Z.to_nat count) markers)) st).
Proof.
  intros Hok. destruct (slots_split _ _ Hok) as [Hm Hn]. destruct Hok.
  unfold lv_radar_remove_markers.
  rewrite for_loop_uint8_lt by (unfold uint8_fuel; lia).
  rewrite Hm at 1. rewrite <- Hn. apply (remove_each _ []).
Qed.

Lemma update_markers_run (b : Z) markers (count : Z) (st : state) :
  slots_ok markers count ->
  lv_radar_update_markers b markers count st
  = Ok markers
       (log (update_calls (g_center_x st) (g_center_y st) (g_radius st) b
               (take (Z.to_nat count) markers)) st).
Proof.
  intros Hok. destruct (slots_split _ _ Hok) as [Hm Hn]. destruct Hok.
  unfold lv_radar_update_markers, bind, get_state.
  rewrite for_loop_uint8_lt by (unfold uint8_fuel; lia).
  rewrite Hm at 1. rewrite <- Hn. rewrite (update_each _ _ _ _ _ []).
  cbn [app]. now rewrite take_drop.
Qed.

Lemma add_markers_run (parent_ : lv_obj_ptr) (b : Z) markers (count : Z)
    (st : state) :
  slots_ok markers count ->
  lv_radar_add_markers parent_ b markers count st
  = Ok (add_icons (next_obj st) (take (Z.to_nat count) markers)
        ++ drop (Z.to_nat count) markers)
       (set_toolkit (next_obj st + Z.to_nat count)
          (calls st
           ++ add_calls parent_ (g_center_x st) (g_center_y st) (g_radius st)
                b (next_obj st) (take (Z.to_nat count) markers)) st).
Proof.
  intros Hok. destruct (slots_split _ _ Hok) as [Hm Hn]. destruct Hok.
  unfold lv_radar_add_markers, bind, get_state.
  rewrite for_loop_uint8_lt by (unfold uint8_fuel; lia).
  rewrite Hm at 1. rewrite <- Hn. rewrite (add_each _ _ _ _ _ _ []).
  cbn [app]. rewrite length_take_le by lia. reflexivity.
Qed.

End MarkerProps.

Section MarkerTheorems.
Context {F : Type} `{FloatOps F}.

Implicit Types (markers ms : list (lv_radar_marker_t F)).

Lemma length_add_icons n ms : length (add_icons n ms) = length ms.
Proof. revert n. induction ms; intros n; cbn; [reflexivity|]. now f_equal. Qed.

Lemma icons_cleared ms : non_null (map icon (map (with_icon None) ms)) = [].
Proof. induction ms; [reflexivity|]. exact IHms. Qed.

Lemma clear_twice ms :
  map (with_icon None) (map (with_icon None) ms) = map (with_icon None) ms.
Proof. induction ms; cbn; [reflexivity|]. now f_equal. Qed.

Lemma created_add_calls p cx cy r b n ms :
  created (add_calls p cx cy r b n ms)
  = map (fun h => (Lv_label, h)) (seq n (length ms)).
Proof.
  revert n. induction ms as [|m ms IH]; intros n; [reflexivity|].
  cbn. f_equal. apply IH.
Qed.

Lemma created_update_calls cx cy r b ms :
  created (update_calls cx cy r b ms) = [].
Proof. induction ms as [|m ms IH]; [reflexivity|]. exact IH. Qed.

Lemma released_add_calls p cx cy r b n ms :
  released (add_calls p cx cy r b n ms) = [].
Proof.
  revert n. induction ms as [|m ms IH]; intros n; [reflexivity|].
  cbn. apply IH.
Qed.

Lemma pos_update_calls cx cy r b ms :
  pos_calls (update_calls cx cy r b ms)
  = map (fun m => (icon m, (fst (marker_xy cx cy r b m) - 8,
                            snd (marker_xy cx cy r b m) - 8))) ms.
Proof. induction ms as [|m ms IH]; [reflexivity|]. cbn. now f_equal. Qed.

Lemma pos_add_calls p cx cy r b n ms :
  pos_calls (add_calls p cx cy r b n ms)
  = pos_calls (update_calls cx cy r b (add_icons n ms)).
Proof.
  revert n. induction ms as [|m ms IH]; intros n; [reflexivity|].
  cbn. f_equal. apply IH.
Qed.

Lemma add_icons_fields n ms :
  map (fun m => (distance m, angle m)) (add_icons n ms)
  = map (fun m => (distance m, angle m)) ms.
Proof. revert n. induction ms; intros n; cbn; [reflexivity|]. now f_equal. Qed.

Lemma slots_ok_length markers markers' count :
  length markers' = length markers ->
  slots_ok markers count -> slots_ok markers' count.
Proof. unfold slots_ok. intros ->. tauto. Qed.

(** C10. [lv_radar_remove_markers] releases the icon of every slot below
    [marker_count] whose handle is not [NULL], once and in order, and makes
    no other call; afterwards every such slot holds [NULL] (the slots'
    distance and angle and the slots beyond are untouched), so a second call
    on the same array releases nothing and changes nothing. *)
Theorem remove_markers_idempotent markers (count : Z) (st : state) :
  slots_ok markers count ->
  exists markers' st',
    lv_radar_remove_markers markers count st = Ok markers' st' /\
    st' = log (new_calls st st') st /\
    new_calls st st'
    = map del (non_null (map icon (take (Z.to_nat count) markers))) /\
    markers' = map (with_icon None) (take (Z.to_nat count) markers)
               ++ drop (Z.to_nat count) markers /\
    (forall i m', (i < Z.to_nat count)%nat ->
       markers' !! i = Some m' -> icon m' = None) /\
    lv_radar_remove_markers markers' count st' = Ok markers' st'.
Proof.
  intros Hok. pose proof Hok as [Hc Hlen].
  set (c := Z.to_nat count) in *.
  eexists; eexists. split; [apply remove_markers_run, Hok|].
  rewrite new_calls_log. split; [reflexivity|]. split; [reflexivity|].
  split; [reflexivity|]. split.
  - intros i m' Hi. rewrite lookup_app_l
      by (rewrite length_map, length_take_le; lia).
    intros Hm. apply list_elem_of_lookup_2, list_elem_of_In in Hm.
    apply in_map_iff in Hm as (m & <- & _). reflexivity.
  - rewrite remove_markers_run.
    2:{ eapply slots_ok_length; [|exact Hok].
        rewrite length_app, length_map, length_take_le, length_drop; lia. }
    fold c.
    rewrite take_app_length'
      by (rewrite length_map, length_take_le; lia).
    rewrite drop_app_length'
      by (rewrite length_map, length_take_le; lia).
    rewrite clear_twice. unfold remove_calls at 1.
    rewrite icons_cleared. cbn [map]. rewrite log_nil. reflexivity.
Qed.

Lemma coords_add_calls p cx cy r b n ms :
  map snd (pos_calls (add_calls p cx cy r b n ms)) = map (icon_xy cx cy r b) ms.
Proof.
  revert n. induction ms as [|m ms IH]; intros n; [reflexivity|].
  cbn. f_equal. apply IH.
Qed.

Lemma coords_add_icons cx cy r b n ms :
  map (icon_xy cx cy r b) (add_icons n ms) = map (icon_xy cx cy r b) ms.
Proof.
  revert n. induction ms as [|m ms IH]; intros n; [reflexivity|].
  cbn [add_icons map]. f_equal. apply IH.
Qed.

Lemma take_add_icons c n markers :
  (c <= length markers)%nat ->
  take c (add_icons n (take c markers) ++ drop c markers)
  = add_icons n (take c markers).
Proof.
  intros Hc. apply take_app_length'.
  now rewrite length_add_icons, length_take_le.
Qed.

Lemma new_calls_toolkit n l st :
  new_calls st (set_toolkit n (calls st ++ l) st) = l.
Proof. apply new_calls_app. reflexivity. Qed.

Lemma set_toolkit_fields n l st :
  g_center_x (set_toolkit n l st) = g_center_x st /\
  g_center_y (set_toolkit n l st) = g_center_y st /\
  g_radius (set_toolkit n l st) = g_radius st /\
  next_obj (set_toolkit n l st) = n /\
  calls (set_toolkit n l st) = l.
Proof. repeat split. Qed.

(** [lv_radar_add_markers] then [lv_radar_update_markers] on the array it
    returns: the update moves every icon to the position it was created at,
    and creates nothing. *)
Lemma add_then_update_same_positions (parent_ : lv_obj_ptr) (b : Z) markers
    (count : Z) (st : state) :
  slots_ok markers count ->
  exists m1 st1 st2,
    lv_radar_add_markers parent_ b markers count st = Ok m1 st1 /\
    lv_radar_update_markers b m1 count st1 = Ok m1 st2 /\
    pos_calls (new_calls st1 st2) = pos_calls (new_calls st st1) /\
    map snd (pos_calls (new_calls st st1))
    = map (icon_xy (g_center_x st) (g_center_y st) (g_radius st) b)
        (take (Z.to_nat count) markers) /\
    created (new_calls st1 st2) = [].
Proof.
  intros Hok. pose proof Hok as [Hc Hlen].
  assert (Hok1 : forall n,
    slots_ok (add_icons n (take (Z.to_nat count) markers)
              ++ drop (Z.to_nat count) markers) count).
  { intros n. eapply slots_ok_length; [|exact Hok].
    rewrite length_app, length_add_icons, length_take_le, length_drop; lia. }
  eexists; eexists; eexists.
  split; [apply add_markers_run, Hok|].
  split; [apply update_markers_run, Hok1|].
  rewrite new_calls_log, new_calls_toolkit.
  cbn [g_center_x g_center_y g_radius set_toolkit].
  rewrite take_add_icons by lia.
  split; [symmetry; apply pos_add_calls|].
  split; [apply coords_add_calls|apply created_update_calls].
Qed.

(** C7 (as the code has it).  A call with [marker_count = 0] does nothing at
    all: no marker shown before is cleared by it.  [lv_radar_update_markers]
    applied twice to one array sets the same positions on the same icons
    both times and creates no icon.  [lv_radar_add_markers] creates a new
    label for every slot at every call: applied twice, it creates two labels
    per slot, at the same positions, and releases none. *)
Theorem markers_apply_twice (parent_ : lv_obj_ptr) (b : Z) markers
    (count : Z) (st : state) :
  slots_ok markers count ->
  (lv_radar_add_markers parent_ b markers 0 st = Ok markers st /\
   lv_radar_update_markers b markers 0 st = Ok markers st /\
   lv_radar_remove_markers markers 0 st = Ok markers st) /\
  (exists st1 st2,
     lv_radar_update_markers b markers count st = Ok markers st1 /\
     lv_radar_update_markers b markers count st1 = Ok markers st2 /\
     pos_calls (new_calls st1 st2) = pos_calls (new_calls st st1) /\
     created (new_calls st st1) = [] /\
     created (new_calls st1 st2) = []) /\
  (exists m1 st1 m2 st2,
     lv_radar_add_markers parent_ b markers count st = Ok m1 st1 /\
     lv_radar_add_markers parent_ b m1 count st1 = Ok m2 st2 /\
     created (new_calls st st1)
     = map (fun h => (Lv_label, h)) (seq (next_obj st) (Z.to_nat count)) /\
     created (new_calls st1 st2)
     = map (fun h => (Lv_label, h))
         (seq (next_obj st + Z.to_nat count) (Z.to_nat count)) /\
     map snd (pos_calls (new_calls st1 st2))
     = map snd (pos_calls (new_calls st st1)) /\
     released (new_calls st st1) = [] /\
     released (new_calls st1 st2) = []).
Proof.
  intros Hok. pose proof Hok as [Hc Hlen].
  set (c := Z.to_nat count) in *.
  assert (Hok1 : forall n,
    slots_ok (add_icons n (take c markers) ++ drop c markers) count).
  { intros n. eapply slots_ok_length; [|exact Hok].
    rewrite length_app, length_add_icons, length_take_le, length_drop; lia. }
  split; [|split].
  - repeat split; reflexivity.
  - eexists; eexists.
    split; [apply update_markers_run, Hok|].
    split; [apply update_markers_run, Hok|].
    rewrite !new_calls_log. fold c.
    split; [reflexivity|]. split; apply created_update_calls.
  - eexists; eexists; eexists; eexists.
    split; [apply add_markers_run, Hok|].
    split; [apply add_markers_run, Hok1|]. fold c.
    rewrite !new_calls_toolkit.
    cbn [g_center_x g_center_y g_radius next_obj set_toolkit].
    rewrite take_add_icons by lia.
    rewrite !created_add_calls, !coords_add_calls,
      !released_add_calls, coords_add_icons, length_add_icons.
    rewrite !length_take_le by lia. repeat split; reflexivity.
Qed.

End MarkerTheorems.

(** ** The grid *)

(** Brings both sides of an equation between states to their fields. *)
Ltac run_state :=
  lazy -[polar_x polar_y line_end line_angle_deg grid_rows line_calls
         c_line_points c_h_points arc_calls app Nat.add Z.add Z.sub Z.mul
         Z.quot Z.to_nat to_int16 cast_int16 of_int deg2rad fmul fdiv cosf
         sinf ftrunc fltb insert seqZ length].

Section GridProps.
Context {F : Type} `{FloatOps F}.

Lemma grid_lines_each parent_ cx cy r lc (idx : list Z) (st : state) :
  Forall (fun i => 0 <= i < 10) idx ->
  for_each idx (draw_line parent_ cx cy r lc) tt st
  = Ok tt
      (set_points (grid_rows cx cy r lc idx (points st))
         (set_toolkit (next_obj st + length idx)
            (calls st
             ++ line_calls parent_ (fun i => Points (Z.to_nat i))
                  (next_obj st) idx) st)).
Proof.
  intros His. revert st. induction His as [|i idx Hi His IH]; intros st.
  - destruct st. run_state.
    rewrite app_nil_r, Nat.add_0_r. reflexivity.
  - cbn [for_each]. unfold bind at 1. unfold draw_line at 1.
    unfold bind at 1. cbn [lv_line_create create].
    unfold bind at 1. unfold store_points_row at 1.
    unfold bind at 1. cbn [get_state].
    replace ((0 <=? i) && (i <? 10)) with true
      by (symmetry; apply andb_true_iff; split;
          [apply Z.leb_le | apply Z.ltb_lt]; lia).
    cbn [modify call]. rewrite IH. destruct st. run_state.
    do 2 f_equal;
      try (cbn [length]; lia); rewrite <- ?app_assoc; reflexivity.
Qed.

Lemma c_lines_each parent_ cx cy r lc (idx : list Z) (st : state) :
  for_each idx (radar_screen_c_line parent_ cx cy r lc) tt st
  = Ok tt
      (set_line_points (c_line_points cx cy r lc idx (line_points st))
         (set_toolkit (next_obj st + length idx)
            (calls st
             ++ line_calls parent_ (fun _ => Line_points) (next_obj st) idx)
            st)).
Proof.
  revert st. induction idx as [|i idx IH]; intros st.
  - destruct st. run_state.
    rewrite app_nil_r, Nat.add_0_r. reflexivity.
  - cbn [for_each]. unfold bind at 1. unfold radar_screen_c_line at 1.
    cbn [bind lv_line_create create call modify]. rewrite IH.
    destruct st. run_state. do 2 f_equal;
      try (cbn [length]; lia); rewrite <- ?app_assoc; reflexivity.
Qed.

Lemma c_h_lines_each parent_ cx cy br (bands : list Z) (st : state) :
  for_each bands (radar_screen_c_h_line parent_ cx cy br) tt st
  = Ok tt
      (set_h_points (c_h_points cx cy br bands (h_points st))
         (set_toolkit (next_obj st + length bands)
            (calls st
             ++ line_calls parent_ (fun _ => H_points) (next_obj st) bands)
            st)).
Proof.
  revert st. induction bands as [|i bands IH]; intros st.
  - destruct st. run_state.
    rewrite app_nil_r, Nat.add_0_r. reflexivity.
  - cbn [for_each]. unfold bind at 1. unfold radar_screen_c_h_line at 1.
    cbn [bind lv_line_create create call modify]. rewrite IH.
    destruct st. run_state. do 2 f_equal;
      try (cbn [length]; lia); rewrite <- ?app_assoc; reflexivity.
Qed.

Lemma arcs_each parent_ cx cy br lo hi (bands : list Z) (st : state) :
  for_each bands (fun band _ => draw_arc parent_ cx cy br band lo hi) tt st
  = Ok tt
      (set_toolkit (next_obj st + length bands)
         (calls st ++ arc_calls parent_ cx cy br lo hi (next_obj st) bands)
         st).
Proof.
  revert st. induction bands as [|band bands IH]; intros st.
  - destruct st. run_state.
    rewrite app_nil_r, Nat.add_0_r. reflexivity.
  - cbn [for_each]. unfold bind at 1. unfold draw_arc at 1.
    cbn [bind lv_arc_create create call modify]. rewrite IH.
    destruct st. run_state. do 2 f_equal;
      try (cbn [length]; lia); rewrite <- ?app_assoc; reflexivity.
Qed.

Lemma seqZ_below (n : Z) : Forall (fun i => 0 <= i < n) (seqZ 0 n).
Proof. apply Forall_forall. intros i Hi. apply elem_of_seqZ in Hi. lia. Qed.

(** A zero band count stops the grid at its first statement, before any
    object is created. *)
Lemma screen_draw_zero_bands parent_ lc (st : state) :
  lv_radar_screen_draw parent_ 0 lc st = Fault Division_by_zero st.
Proof. reflexivity. Qed.

Lemma radar_screen_c_draw_zero_bands parent_ cx cy r lc (st : state) :
  radar_screen_c_draw parent_ cx cy r 0 lc st = Fault Division_by_zero st.
Proof. reflexivity. Qed.

Lemma screen_draw_run parent_ b lc (st : state) :
  1 <= b <= 254 -> 0 <= lc <= 10 ->
  lv_radar_screen_draw parent_ b lc st = Ok tt (drawn parent_ b lc st).
Proof.
  intros Hb Hlc. unfold lv_radar_screen_draw, bind at 1. cbn [get_state].
  unfold bind at 1, band_radius_of.
  destruct (Z.eqb_spec b 0) as [->|_]; [lia|]. cbn [ret]. unfold bind.
  rewrite for_loop_uint8_lt by (unfold uint8_fuel; lia).
  rewrite Z.sub_0_r, grid_lines_each.
  2:{ eapply Forall_impl; [apply seqZ_below|]. cbn. intros; lia. }
  rewrite for_loop_uint8_le by (unfold uint8_fuel; lia).
  replace (b + 1 - 1) with b by lia. rewrite arcs_each.
  destruct st. unfold drawn. run_state. do 2 f_equal;
    try lia; rewrite <- ?app_assoc; reflexivity.
Qed.

Lemma radar_screen_c_draw_run parent_ cx cy r b lc (st : state) :
  1 <= b <= 254 -> 0 <= lc <= 255 ->
  radar_screen_c_draw parent_ cx cy r b lc st
  = Ok tt (c_drawn parent_ cx cy r b lc st).
Proof.
  intros Hb Hlc. unfold radar_screen_c_draw, bind at 1.
  unfold band_radius_of.
  destruct (Z.eqb_spec b 0) as [->|_]; [lia|]. cbn [ret]. unfold bind.
  rewrite for_loop_uint8_le by (unfold uint8_fuel; lia).
  replace (b + 1 - 1) with b by lia. rewrite arcs_each.
  rewrite for_loop_uint8_lt by (unfold uint8_fuel; lia).
  rewrite Z.sub_0_r, c_lines_each.
  rewrite for_loop_uint8_lt by (unfold uint8_fuel; lia).
  rewrite c_h_lines_each.
  destruct st. unfold c_drawn. run_state. do 2 f_equal;
    try lia; rewrite <- ?app_assoc; reflexivity.
Qed.

Lemma created_app (l1 l2 : list lv_call) :
  created (l1 ++ l2) = created l1 ++ created l2.
Proof. apply omap_app. Qed.

Lemma created_line_calls parent_ buf n (idx : list Z) :
  created (line_calls parent_ buf n idx)
  = map (fun h => (Lv_line, h)) (seq n (length idx)).
Proof.
  revert n. induction idx as [|i idx IH]; intros n; [reflexivity|].
  cbn. f_equal. apply IH.
Qed.

Lemma created_arc_calls parent_ cx cy br lo hi n (bands : list Z) :
  created (arc_calls parent_ cx cy br lo hi n bands)
  = map (fun h => (Lv_arc, h)) (seq n (length bands)).
Proof.
  revert n. induction bands as [|i bands IH]; intros n; [reflexivity|].
  cbn. f_equal. apply IH.
Qed.



Lemma length_seqZ_nat (m n : Z) : 0 <= n -> length (seqZ m n) = Z.to_nat n.
Proof. intros _. apply length_seqZ. Qed.

(** What the panel's grid creates: the radial lines, then the arcs. *)
Lemma drawn_created parent_ b lc (st : state) :
  created (new_calls st (drawn parent_ b lc st))
  = map (fun h => (Lv_line, h)) (seq (next_obj st) (Z.to_nat lc))
    ++ map (fun h => (Lv_arc, h))
         (seq (next_obj st + Z.to_nat lc) (Z.to_nat b)).
Proof.
  erewrite new_calls_app by reflexivity.
  rewrite created_app, created_line_calls, created_arc_calls.
  rewrite !length_seqZ. reflexivity.
Qed.

Lemma c_drawn_created parent_ cx cy r b lc (st : state) :
  created (new_calls st (c_drawn parent_ cx cy r b lc st))
  = map (fun h => (Lv_arc, h)) (seq (next_obj st) (Z.to_nat b))
    ++ map (fun h => (Lv_line, h))
         (seq (next_obj st + Z.to_nat b)
            (Z.to_nat lc + Z.to_nat (b - 1))).
Proof.
  erewrite new_calls_app by reflexivity.
  rewrite !created_app, !created_line_calls, created_arc_calls.
  rewrite !length_seqZ, seq_app, map_app. reflexivity.
Qed.

(** C8 (as the code has it).  The grid validates nothing and reports
    nothing.  With a band count of zero it stops on the division
    [radius / band_count], in the state it was entered in: no object has
    been created.  With a band count from 1 to 254 and at most ten lines
    the panel's grid is drawn in full, [line_count] lines and [band_count]
    arcs, whatever the radius, zero and negative included; the grid of
    [main/radar_screen.c] likewise, with any number of lines and its
    [band_count - 1] horizontal lines besides. *)
Theorem screen_draw_unvalidated parent_ b lc cx cy r (st : state) :
  1 <= b <= 254 -> 0 <= lc <= 10 ->
  lv_radar_screen_draw parent_ 0 lc st = Fault Division_by_zero st /\
  radar_screen_c_draw parent_ cx cy r 0 lc st = Fault Division_by_zero st /\
  (exists st',
     lv_radar_screen_draw parent_ b lc st = Ok tt st' /\
     created (new_calls st st')
     = map (fun h => (Lv_line, h)) (seq (next_obj st) (Z.to_nat lc))
       ++ map (fun h => (Lv_arc, h))
            (seq (next_obj st + Z.to_nat lc) (Z.to_nat b))) /\
  (exists st',
     radar_screen_c_draw parent_ cx cy r b lc st = Ok tt st' /\
     created (new_calls st st')
     = map (fun h => (Lv_arc, h)) (seq (next_obj st) (Z.to_nat b))
       ++ map (fun h => (Lv_line, h))
            (seq (next_obj st + Z.to_nat b)
               (Z.to_nat lc + Z.to_nat (b - 1)))).
Proof.
  intros Hb Hlc. split; [reflexivity|]. split; [reflexivity|]. split.
  - eexists. split; [apply screen_draw_run; lia|]. apply drawn_created.
  - eexists. split; [apply radar_screen_c_draw_run; lia|].
    apply c_drawn_created.
Qed.

(** [lv_radar_screen_create] sets the globals from the size it is given and
    draws the grid of 4 bands and 9 lines, whatever the size. *)
Lemma screen_create_run parent_ w h (st : state) :
  exists st',
    lv_radar_screen_create parent_ w h st = Ok (Some (next_obj st)) st' /\
    g_center_x st' = to_int16 (Z.quot w 2) /\
    g_center_y st' = h /\
    g_radius st' = to_int16 (h - 10) /\
    created (new_calls st st')
    = (Lv_obj, next_obj st)
      :: map (fun h => (Lv_line, h)) (seq (S (next_obj st)) 9)
      ++ map (fun h => (Lv_arc, h)) (seq (S (next_obj st) + 9) 4).
Proof.
  unfold lv_radar_screen_create. unfold bind at 1.
  cbn [lv_obj_create create].
  unfold bind at 1. cbn [call modify]. unfold bind at 1. cbn [modify].
  unfold bind at 1. rewrite screen_draw_run by lia. cbn [ret].
  eexists. split; [reflexivity|]. repeat split.
  match goal with
  | |- created (new_calls st (drawn ?p ?b ?lc ?st1)) = _ =>
      pose proof (drawn_created p b lc st1) as Hd;
      assert (Hc : calls (drawn p b lc st1)
                   = calls st
                     ++ [Create Lv_obj (next_obj st) parent_;
                         Set_size (Some (next_obj st)) w h]
                     ++ new_calls st1 (drawn p b lc st1))
  end.
  { erewrite (new_calls_app _ _ (drawn _ _ _ _)) by reflexivity.
    cbn [drawn calls set_points set_toolkit set_globals next_obj
         g_center_x g_center_y g_radius].
    rewrite <- !app_assoc. reflexivity. }
  rewrite (new_calls_app _ _ _ Hc), created_app, Hd. reflexivity.
Qed.

End GridProps.

(** ** Real numbers *)

Section RealFacts.
Open Scope R_scope.

Lemma Rabs_le_between (x d : R) : Rabs x <= d -> - d <= x <= d.
Proof. unfold Rabs. destruct (Rcase_abs x); lra. Qed.

Lemma Rabs_sin_le (x : R) : Rabs (sin x) <= Rabs x.
Proof.
  assert (Hpos : forall y, 0 < y -> Rabs (sin y) <= y).
  { intros y Hy. pose proof (sin_lt_x y Hy) as Hlt.
    apply Rabs_le. split; [|lra].
    destruct (Rle_dec 1 y) as [H1|H1].
    - pose proof (SIN_bound y). lra.
    - assert (0 < sin y); [|lra].
      apply sin_gt_0; [lra|]. pose proof PI2_1. lra. }
  destruct (Rtotal_order x 0) as [Hx|[->|Hx]].
  - rewrite <- (Ropp_involutive x) at 1. rewrite sin_neg, Rabs_Ropp.
    rewrite (Rabs_left x) by lra. apply Hpos. lra.
  - rewrite sin_0. lra.
  - rewrite (Rabs_right x) by lra. now apply Hpos.
Qed.

Lemma cos_lipschitz (p q : R) : Rabs (cos p - cos q) <= Rabs (p - q).
Proof.
  rewrite form2, !Rabs_mult.
  pose proof (Rabs_sin_le ((p - q) / 2)) as H1.
  pose proof (SIN_bound ((p + q) / 2)) as H2.
  assert (Rabs (sin ((p + q) / 2)) <= 1) by (apply Rabs_le; lra).
  replace (Rabs (-2)) with 2 by (rewrite Rabs_left; lra).
  assert (Rabs ((p - q) / 2) = Rabs (p - q) / 2) as E.
  { unfold Rdiv. rewrite Rabs_mult, (Rabs_right (/ 2)); lra. }
  rewrite E in H1.
  pose proof (Rabs_pos (sin ((p - q) / 2))).
  pose proof (Rabs_pos (sin ((p + q) / 2))).
  nra.
Qed.

Lemma sin_lipschitz (p q : R) : Rabs (sin p - sin q) <= Rabs (p - q).
Proof.
  rewrite form4, !Rabs_mult.
  pose proof (Rabs_sin_le ((p - q) / 2)) as H1.
  pose proof (COS_bound ((p + q) / 2)) as H2.
  assert (Rabs (cos ((p + q) / 2)) <= 1) by (apply Rabs_le; lra).
  replace (Rabs 2) with 2 by (rewrite Rabs_right; lra).
  assert (Rabs ((p - q) / 2) = Rabs (p - q) / 2) as E.
  { unfold Rdiv. rewrite Rabs_mult, (Rabs_right (/ 2)); lra. }
  rewrite E in H1.
  pose proof (Rabs_pos (sin ((p - q) / 2))).
  pose proof (Rabs_pos (cos ((p + q) / 2))).
  nra.
Qed.

Lemma sqrt2_bounds : 14142135 / 10000000 < sqrt 2 < 14142136 / 10000000.
Proof.
  pose proof (sqrt_pos 2) as Hp.
  pose proof (sqrt_sqrt 2 ltac:(lra)) as Hs.
  split; nra.
Qed.

(** The integer part of a real that lies close to an integer. *)
Lemma is_trunc_pos (x : R) (t n : Z) :
  is_trunc x t -> IZR n <= x < IZR n + 1 -> (0 <= n)%Z -> t = n.
Proof.
  intros [Hp _] Hx Hn. apply IZR_le in Hn.
  destruct (Hp ltac:(lra)) as [H1 H2].
  assert (t < n + 1)%Z by (apply lt_IZR; rewrite plus_IZR; lra).
  assert (n < t + 1)%Z by (apply lt_IZR; rewrite plus_IZR; lra).
  lia.
Qed.

Lemma is_trunc_neg (x : R) (t n : Z) :
  is_trunc x t -> IZR n - 1 < x <= IZR n -> (n <= 0)%Z -> t = n.
Proof.
  intros [_ Hn'] Hx Hn. apply IZR_le in Hn.
  destruct (Hn' ltac:(lra)) as [H1 H2].
  assert (t < n + 1)%Z by (apply lt_IZR; rewrite plus_IZR; lra).
  assert (n < t + 1)%Z by (apply lt_IZR; rewrite plus_IZR; lra).
  lia.
Qed.

Lemma is_trunc_zero (x : R) (t : Z) : is_trunc x t -> -1 < x < 1 -> t = 0%Z.
Proof.
  intros Ht Hx. destruct (Rle_dec 0 x).
  - apply (is_trunc_pos x t 0 Ht); [lra|lia].
  - apply (is_trunc_neg x t 0 Ht); [lra|lia].
Qed.

Lemma is_trunc_near_pos (x : R) (t n : Z) :
  is_trunc x t -> (1 <= n)%Z -> Rabs (x - IZR n) <= 1 / 16 ->
  (n - 1 <= t <= n)%Z.
Proof.
  intros Ht Hn Hx. apply Rabs_le_between in Hx. apply IZR_le in Hn as Hn'.
  destruct (Rle_dec (IZR n) x).
  - rewrite (is_trunc_pos x t n Ht); [lia|lra|lia].
  - rewrite (is_trunc_pos x t (n - 1) Ht); [lia| |lia].
    rewrite minus_IZR. lra.
Qed.

Lemma is_trunc_near_neg (x : R) (t n : Z) :
  is_trunc x t -> (n <= -1)%Z -> Rabs (x - IZR n) <= 1 / 16 ->
  (n <= t <= n + 1)%Z.
Proof.
  intros Ht Hn Hx. apply Rabs_le_between in Hx. apply IZR_le in Hn as Hn'.
  destruct (Rle_dec x (IZR n)).
  - rewrite (is_trunc_neg x t n Ht); [lia|lra|lia].
  - rewrite (is_trunc_neg x t (n + 1) Ht); [lia| |lia].
    rewrite plus_IZR. lra.
Qed.

End RealFacts.

(** ** The polar-to-screen transform *)

Section PolarProps.
Context {F : Type} `{FloatOps F} `{FloatVal F} `{!FloatSpec F}.
Open Scope R_scope.

Lemma of_int_finite (n : Z) :
  (- 2 ^ 24 <= n <= 2 ^ 24)%Z -> finite (of_int n).
Proof. intros Hn. apply of_int_spec, Hn. Qed.

Lemma of_int_val (n : Z) :
  (- 2 ^ 24 <= n <= 2 ^ 24)%Z -> val (of_int n) = IZR n.
Proof. intros Hn. apply of_int_spec, Hn. Qed.

(** The radians of a whole number of degrees between 0 and 180. *)
Lemma deg2rad_of_int (d : Z) :
  (0 <= d <= 180)%Z ->
  finite (deg2rad (of_int d)) /\
  Rabs (val (deg2rad (of_int d)) - IZR d * PI / 180) <= 5 * eps.
Proof.
  intros Hd.
  destruct (deg2rad_spec (of_int d) (of_int_finite d ltac:(lia)))
    as [Hf He].
  split; [exact Hf|]. rewrite of_int_val in He by lia.
  assert (0 <= IZR d <= 180) as Hr
    by (split; [apply (IZR_le 0)|apply (IZR_le d 180)]; lia).
  pose proof PI_4. pose proof PI_RGT_0.
  rewrite (Rabs_right (IZR d * PI / 180)) in He by nra.
  pose proof eta_bounds. pose proof eps_val. nra.
Qed.

(** [r * cosf(a)] and [r * sinf(a)] for a radius that is an [int16_t] and
    an angle within [5 * eps] of [theta]: the product is within a sixteenth
    of a pixel of the exact one. *)
Lemma radius_times_cosf (r : Z) (a : F) (theta : R) :
  (0 <= r <= 32767)%Z -> finite a -> Rabs (val a - theta) <= 5 * eps ->
  finite (fmul (of_int r) (cosf a)) /\
  Rabs (val (fmul (of_int r) (cosf a)) - IZR r * cos theta) <= 1 / 16.
Proof.
  intros Hr Fa Ha.
  destruct (cosf_spec a Fa) as [Fc Hc].
  pose proof (Rle_trans _ _ _ (cos_lipschitz (val a) theta) Ha) as Hl.
  pose proof (COS_bound theta) as Hb.
  assert (0 <= IZR r <= 32767) as Hr'
    by (split; [apply (IZR_le 0)|apply (IZR_le r 32767)]; lia).
  pose proof eps_val as Ev. pose proof eta_bounds as Et.
  apply Rabs_le_between in Hc. apply Rabs_le_between in Hl.
  apply Rabs_le_between in Ha.
  assert (Hcv : -2 <= val (cosf a) <= 2) by lra.
  assert (HE : Rabs (val (of_int r) * val (cosf a)) <= 65536).
  { rewrite of_int_val by lia. apply Rabs_le. nra. }
  destruct (fmul_spec (of_int r) (cosf a) (of_int_finite r ltac:(lia)) Fc)
    as [Fp Hp].
  { rewrite fmax_val. lra. }
  split; [exact Fp|].
  rewrite of_int_val in * by lia.
  apply Rabs_le_between in Hp. apply Rabs_le_between in HE.
  pose proof (Rabs_pos (IZR r * val (cosf a))) as Hpos.
  assert (Rabs (IZR r * val (cosf a)) <= 65536) as HE'
    by (apply Rabs_le; lra).
  apply Rabs_le. nra.
Qed.

Lemma radius_times_sinf (r : Z) (a : F) (theta : R) :
  (0 <= r <= 32767)%Z -> finite a -> Rabs (val a - theta) <= 5 * eps ->
  finite (fmul (of_int r) (sinf a)) /\
  Rabs (val (fmul (of_int r) (sinf a)) - IZR r * sin theta) <= 1 / 16.
Proof.
  intros Hr Fa Ha.
  destruct (sinf_spec a Fa) as [Fc Hc].
  pose proof (Rle_trans _ _ _ (sin_lipschitz (val a) theta) Ha) as Hl.
  pose proof (SIN_bound theta) as Hb.
  assert (0 <= IZR r <= 32767) as Hr'
    by (split; [apply (IZR_le 0)|apply (IZR_le r 32767)]; lia).
  pose proof eps_val as Ev. pose proof eta_bounds as Et.
  apply Rabs_le_between in Hc. apply Rabs_le_between in Hl.
  apply Rabs_le_between in Ha.
  assert (Hcv : -2 <= val (sinf a) <= 2) by lra.
  assert (HE : Rabs (val (of_int r) * val (sinf a)) <= 65536).
  { rewrite of_int_val by lia. apply Rabs_le. nra. }
  destruct (fmul_spec (of_int r) (sinf a) (of_int_finite r ltac:(lia)) Fc)
    as [Fp Hp].
  { rewrite fmax_val. lra. }
  split; [exact Fp|].
  rewrite of_int_val in * by lia.
  apply Rabs_le_between in Hp. apply Rabs_le_between in HE.
  pose proof (Rabs_pos (IZR r * val (sinf a))) as Hpos.
  assert (Rabs (IZR r * val (sinf a)) <= 65536) as HE'
    by (apply Rabs_le; lra).
  apply Rabs_le. nra.
Qed.

(** The cast to [int16_t] of a product that lies within a sixteenth of the
    integer [n]. *)
Lemma cast_near (p : F) (n : Z) :
  finite p -> (- 32767 <= n <= 32767)%Z ->
  Rabs (val p - IZR n) <= 1 / 16 ->
  ((1 <= n -> n - 1 <= cast_int16 p <= n) /\
   (n = 0 -> cast_int16 p = 0) /\
   (n <= -1 -> n <= cast_int16 p <= n + 1))%Z.
Proof.
  intros Fp Hn Hp.
  assert (-32767 <= IZR n <= 32767) as Hn'
    by (split; [apply (IZR_le (-32767))|apply (IZR_le n 32767)]; lia).
  pose proof Hp as Hb. apply Rabs_le_between in Hb.
  assert (Ht : is_trunc (val p) (ftrunc p)).
  { apply ftrunc_spec; [exact Fp|].
    change (2 ^ 31)%Z with 2147483648%Z. apply Rabs_def1; lra. }
  unfold cast_int16. split; [|split]; intros Hs.
  - pose proof (is_trunc_near_pos _ _ n Ht Hs Hp).
    rewrite to_int16_id by (unfold int16_range; lia). lia.
  - subst n. rewrite (is_trunc_zero _ _ Ht) by lra. reflexivity.
  - pose proof (is_trunc_near_neg _ _ n Ht Hs Hp).
    rewrite to_int16_id by (unfold int16_range; lia). lia.
Qed.

(** The transform at 0, 90 and 180 degrees, for every centre: the offset
    added to the centre before the result is stored. *)
Lemma polar_cardinal (cx cy r : Z) :
  (1 <= r <= 32767)%Z ->
  ((exists dx, polar_x cx (of_int r) (deg2rad (of_int 0)) = to_int16 (cx + dx)
               /\ r - 1 <= dx <= r) /\
   polar_y cy (of_int r) (deg2rad (of_int 0)) = to_int16 (cy - 0) /\
   polar_x cx (of_int r) (deg2rad (of_int 90)) = to_int16 (cx + 0) /\
   (exists dy, polar_y cy (of_int r) (deg2rad (of_int 90)) = to_int16 (cy - dy)
               /\ r - 1 <= dy <= r) /\
   (exists dx, polar_x cx (of_int r) (deg2rad (of_int 180)) = to_int16 (cx + dx)
               /\ - r <= dx <= - r + 1) /\
   polar_y cy (of_int r) (deg2rad (of_int 180)) = to_int16 (cy - 0))%Z.
Proof.
  intros Hr.
  destruct (deg2rad_of_int 0 ltac:(lia)) as [F0 A0].
  destruct (deg2rad_of_int 90 ltac:(lia)) as [F90 A90].
  destruct (deg2rad_of_int 180 ltac:(lia)) as [F180 A180].
  replace (0 * PI / 180) with 0 in A0 by lra.
  replace (90 * PI / 180) with (PI / 2) in A90 by lra.
  replace (180 * PI / 180) with PI in A180 by lra.
  destruct (radius_times_cosf r _ _ ltac:(lia) F0 A0) as [Fc0 Hc0].
  destruct (radius_times_sinf r _ _ ltac:(lia) F0 A0) as [Fs0 Hs0].
  destruct (radius_times_cosf r _ _ ltac:(lia) F90 A90) as [Fc90 Hc90].
  destruct (radius_times_sinf r _ _ ltac:(lia) F90 A90) as [Fs90 Hs90].
  destruct (radius_times_cosf r _ _ ltac:(lia) F180 A180) as [Fc180 Hc180].
  destruct (radius_times_sinf r _ _ ltac:(lia) F180 A180) as [Fs180 Hs180].
  rewrite cos_0, Rmult_1_r in Hc0. rewrite sin_0, Rmult_0_r in Hs0.
  rewrite cos_PI2, Rmult_0_r in Hc90. rewrite sin_PI2, Rmult_1_r in Hs90.
  rewrite cos_PI in Hc180. rewrite sin_PI, Rmult_0_r in Hs180.
  replace (IZR r * -1) with (IZR (- r)) in Hc180
    by (rewrite opp_IZR; lra).
  unfold polar_x, polar_y.
  destruct (cast_near _ r Fc0 ltac:(lia) Hc0) as (H1 & _ & _).
  destruct (cast_near _ 0 Fs0 ltac:(lia) Hs0) as (_ & H2 & _).
  destruct (cast_near _ 0 Fc90 ltac:(lia) Hc90) as (_ & H3 & _).
  destruct (cast_near _ r Fs90 ltac:(lia) Hs90) as (H4 & _ & _).
  destruct (cast_near _ (- r) Fc180 ltac:(lia) Hc180) as (_ & _ & H5).
  destruct (cast_near _ 0 Fs180 ltac:(lia) Hs180) as (_ & H6 & _).
  rewrite H2, H3, H6 by reflexivity.
  repeat split; try reflexivity; eexists; (split; [reflexivity|]).
  - apply H1; lia.
  - apply H4; lia.
  - apply H5; lia.
Qed.

(** C1 (as the code has it).  For a radius from 1 to 32767 and a centre
    such that the three points fit the [int16_t] coordinates, the line of
    the sweep ends, at 0 degrees, on the row of the centre and at most one
    pixel short of [cx + r]; at 90 degrees, on the column of the centre and
    at most one pixel short of [cy - r]; at 180 degrees, on the row of the
    centre and at most one pixel short of [cx - r].  These are the points
    [lv_radar_sweep_update] stores for the sweep line. *)
Theorem sweep_cardinal_points (s : lv_radar_sweep_t) (st : state) :
  (1 <= radius s <= 32767)%Z ->
  int16_range (center_x s) -> int16_range (center_y s) ->
  int16_range (center_x s + radius s) ->
  int16_range (center_x s - radius s) ->
  int16_range (center_y s - radius s) ->
  (exists x y,
     sweep_end s (of_int 0) = (x, y) /\
     center_x s + radius s - 1 <= x <= center_x s + radius s /\
     y = center_y s)%Z /\
  (exists x y,
     sweep_end s (of_int 90) = (x, y) /\
     x = center_x s /\
     center_y s - radius s <= y <= center_y s - radius s + 1)%Z /\
  (exists x y,
     sweep_end s (of_int 180) = (x, y) /\
     center_x s - radius s <= x <= center_x s - radius s + 1 /\
     y = center_y s)%Z /\
  (forall d : Z, d = 0%Z \/ d = 90%Z \/ d = 180%Z ->
   exists s' st',
     lv_radar_sweep_update (Some s) d st = Ok s' st' /\
     sweep_points st'
     = [(center_x s, center_y s); sweep_end s (of_int d)]).
Proof.
  intros Hr Hx Hy Hxr Hxl Hyu. unfold int16_range in *.
  destruct (polar_cardinal (center_x s) (center_y s) (radius s) Hr)
    as ((dx0 & Ex0 & Hdx0) & Ey0 & Ex90 & (dy90 & Ey90 & Hdy90)
        & (dx180 & Ex180 & Hdx180) & Ey180).
  unfold sweep_end.
  rewrite Ex0, Ey0, Ex90, Ey90, Ex180, Ey180.
  rewrite !to_int16_id by (unfold int16_range; lia).
  split; [|split; [|split]].
  - eexists; eexists. split; [reflexivity|]. lia.
  - eexists; eexists. split; [reflexivity|]. lia.
  - eexists; eexists. split; [reflexivity|]. lia.
  - intros d Hd.
    destruct (sweep_update_run s st d) as (s' & st' & Hrun & Hpost).
    exists s', st'. split; [exact Hrun|].
    destruct Hpost as [_ _ _ _ Hp _ _ _ _]. rewrite Hp.
    replace (clamp_angle d) with d; [reflexivity|].
    rewrite clamp_angle_min. lia.
Qed.

(** Without the bound on the centre the stored coordinate wraps: whatever
    the float arithmetic, the sweep line of a radius 100 around the column
    32767 ends, at 0 degrees, on a negative column. *)
Lemma polar_x_wraps :
  (- 32670 <= polar_x 32767 (of_int 100) (deg2rad (of_int 0)) <= - 32669)%Z.
Proof.
  destruct (polar_cardinal 32767 0 100 ltac:(lia))
    as ((dx0 & Ex0 & Hdx0) & _).
  rewrite Ex0.
  assert (dx0 = 99 \/ dx0 = 100)%Z as [-> | ->] by lia; vm_compute; split; discriminate.
Qed.

End PolarProps.

(** ** Where a marker is placed *)

Section MarkerPlace.
Context {F : Type} `{FloatOps F} `{FloatVal F} `{!FloatSpec F}.
Open Scope R_scope.

Lemma Rdiv_between (x y xl xh yl yh : R) :
  0 <= xl <= x -> x <= xh -> 0 < yl <= y -> y <= yh ->
  xl / yh <= x / y <= xh / yl.
Proof.
  intros Hx Hxh Hy Hyh.
  assert (0 < y) by lra. assert (0 < yh) by lra.
  split.
  - apply Rmult_le_reg_r with (r := y * yh); [nra|].
    replace (xl / yh * (y * yh)) with (xl * y) by (field; lra).
    replace (x / y * (y * yh)) with (x * yh) by (field; lra). nra.
  - apply Rmult_le_reg_r with (r := y * yl); [nra|].
    replace (x / y * (y * yl)) with (x * yl) by (field; lra).
    replace (xh / yl * (y * yl)) with (xh * y) by (field; lra). nra.
Qed.

(** Products and quotients of positive floats, between bounds. *)
Lemma fmul_between (x y : F) (xl xh yl yh : R) :
  finite x -> finite y ->
  0 <= xl <= val x -> val x <= xh -> 0 <= yl <= val y -> val y <= yh ->
  xh * yh <= 1048576 ->
  finite (fmul x y) /\
  xl * yl * (1 - eps) - eta <= val (fmul x y) <= xh * yh * (1 + eps) + eta.
Proof.
  intros Fx Fy Hx Hxh Hy Hyh Hb.
  assert (0 <= val x * val y) by nra.
  assert (xl * yl <= val x * val y <= xh * yh) by nra.
  destruct (fmul_spec x y Fx Fy) as [Fp Hp].
  { rewrite Rabs_right by lra. rewrite fmax_val. lra. }
  split; [exact Fp|].
  rewrite (Rabs_right (val x * val y)) in Hp by lra.
  apply Rabs_le_between in Hp.
  pose proof eps_val. pose proof eta_bounds. nra.
Qed.

Lemma fdiv_between (x y : F) (xl xh yl yh : R) :
  finite x -> finite y ->
  0 <= xl <= val x -> val x <= xh -> 0 < yl <= val y -> val y <= yh ->
  xh / yl <= 1048576 ->
  finite (fdiv x y) /\
  xl / yh * (1 - eps) - eta <= val (fdiv x y) <= xh / yl * (1 + eps) + eta.
Proof.
  intros Fx Fy Hx Hxh Hy Hyh Hb.
  pose proof (Rdiv_between _ _ _ _ _ _ Hx Hxh Hy Hyh) as Hq.
  assert (0 <= xl / yh).
  { apply Rmult_le_pos; [lra|]. apply Rlt_le, Rinv_0_lt_compat. lra. }
  destruct (fdiv_spec x y Fx Fy) as [Fp Hp].
  { lra. }
  { rewrite Rabs_right by lra. rewrite fmax_val. lra. }
  split; [exact Fp|].
  rewrite (Rabs_right (val x / val y)) in Hp by lra.
  apply Rabs_le_between in Hp.
  pose proof eps_val. pose proof eta_bounds. nra.
Qed.

(** The scale of the 310-pixel, 4-band radar: [8 / 310] metres per pixel. *)
Lemma scale_310 :
  let mpp := fdiv (fmul (of_int 4) (of_int 2)) (of_int 310) in
  finite mpp /\ 8 / 310 - 1 / 100000000 <= val mpp <= 8 / 310 + 1 / 100000000.
Proof.
  intros mpp. subst mpp.
  pose proof eps_val as Ev. pose proof eta_bounds as Et.
  destruct (fmul_between (of_int 4) (of_int 2) 4 4 2 2) as [Ft Ht];
    try apply of_int_finite; rewrite ?of_int_val; try lia; try lra.
  destruct (fdiv_between (fmul (of_int 4) (of_int 2)) (of_int 310)
              (79999990 / 10000000) (80000010 / 10000000) 310 310)
    as [Fm Hm];
    try apply of_int_finite; rewrite ?of_int_val; try lia; try lra;
    try exact Ft.
  split; [exact Fm|]. lra.
Qed.

Lemma inv_sqrt2_bounds : 7071067 / 10000000 < 1 / sqrt 2 < 7071069 / 10000000.
Proof.
  pose proof sqrt2_bounds as Hs.
  assert (1 / sqrt 2 * sqrt 2 = 1) as Ht by (field; lra).
  split; nra.
Qed.

(** [cosf] and [sinf] of the radians of 45 degrees. *)
Lemma trig_45 :
  let a := deg2rad (of_int 45) in
  (finite (cosf a) /\
   7071059 / 10000000 <= val (cosf a) <= 7071077 / 10000000) /\
  (finite (sinf a) /\
   7071059 / 10000000 <= val (sinf a) <= 7071077 / 10000000).
Proof.
  intros a. subst a.
  destruct (deg2rad_of_int 45 ltac:(lia)) as [Fa Ha].
  replace (45 * PI / 180) with (PI / 4) in Ha by lra.
  destruct (cosf_spec _ Fa) as [Fc Hc]. destruct (sinf_spec _ Fa) as [Fs Hs].
  pose proof (Rle_trans _ _ _ (cos_lipschitz _ _) Ha) as Lc.
  pose proof (Rle_trans _ _ _ (sin_lipschitz _ _) Ha) as Ls.
  rewrite cos_PI4 in Lc. rewrite sin_PI4 in Ls.
  apply Rabs_le_between in Hc, Hs, Lc, Ls.
  pose proof inv_sqrt2_bounds. pose proof eps_val.
  repeat split; try assumption; lra.
Qed.

Lemma ftrunc_between (p : F) (n : Z) :
  finite p -> (0 <= n <= 100000)%Z -> IZR n <= val p < IZR n + 1 ->
  ftrunc p = n.
Proof.
  intros Fp Hn Hp.
  assert (0 <= IZR n <= 100000) as Hn'
    by (split; [apply (IZR_le 0)|apply (IZR_le n 100000)]; lia).
  apply (is_trunc_pos (val p)); [|exact Hp|lia].
  apply ftrunc_spec; [exact Fp|].
  change (2 ^ 31)%Z with 2147483648%Z. apply Rabs_def1; lra.
Qed.

(** The pixel distance of a target of the 310-pixel, 4-band radar, from its
    distance in metres. *)
Lemma pixel_distance_310 (d : F) (D : R) :
  finite d -> val d = D -> 0 < D <= 4000 ->
  let pd := fdiv d (fdiv (fmul (of_int 4) (of_int 2)) (of_int 310)) in
  finite pd /\
  D / (258065 / 10000000) * (1 - eps) - eta <= val pd
  <= D / (258064 / 10000000) * (1 + eps) + eta.
Proof.
  intros Fd Hd HD pd. subst pd. destruct scale_310 as [Fm Hm].
  apply fdiv_between; try assumption; rewrite ?Hd; try lra.
Qed.

(** At 45 degrees the two offsets of a marker are the integer part of its
    pixel distance over the square root of 2. *)
Lemma offset_45 (pd : F) (lo hi : R) (n : Z) :
  finite pd -> 0 <= lo <= val pd -> val pd <= hi -> hi <= 400000 ->
  (0 <= n <= 100000)%Z ->
  IZR n <= lo * (7071059 / 10000000) * (1 - eps) - eta ->
  hi * (7071077 / 10000000) * (1 + eps) + eta < IZR n + 1 ->
  ftrunc (fmul pd (cosf (deg2rad (of_int 45)))) = n /\
  ftrunc (fmul pd (sinf (deg2rad (of_int 45)))) = n.
Proof.
  intros Fp Hlo Hhi Hb Hn Hl Hh.
  destruct trig_45 as [[Fc Hc] [Fs Hs]].
  destruct (fmul_between pd (cosf (deg2rad (of_int 45))) lo hi
              (7071059 / 10000000) (7071077 / 10000000))
    as [Fpc Hpc]; try assumption; try lra.
  destruct (fmul_between pd (sinf (deg2rad (of_int 45))) lo hi
              (7071059 / 10000000) (7071077 / 10000000))
    as [Fps Hps]; try assumption; try lra.
  split; apply ftrunc_between; try assumption; lra.
Qed.

Lemma marker_xy_45 (cx cy : Z) (m : lv_radar_marker_t F) (lo hi : R)
    (n : Z) :
  finite (distance m) -> angle m = 45%Z ->
  0 < val (distance m) <= 4000 ->
  0 <= lo ->
  lo <= val (distance m) / (258065 / 10000000) * (1 - eps) - eta ->
  val (distance m) / (258064 / 10000000) * (1 + eps) + eta <= hi ->
  hi <= 400000 -> (0 <= n <= 32767)%Z ->
  IZR n <= lo * (7071059 / 10000000) * (1 - eps) - eta ->
  hi * (7071077 / 10000000) * (1 + eps) + eta < IZR n + 1 ->
  marker_xy cx cy 310 4 m = (to_int16 (cx + n), to_int16 (cy - n)).
Proof.
  intros Fd Ha HD Hlo0 Hlo Hhi Hb Hn Hl Hh.
  destruct (pixel_distance_310 (distance m) _ Fd eq_refl HD) as [Fp Hp].
  unfold marker_xy, polar_x, polar_y, cast_int16. rewrite Ha.
  destruct (offset_45 _ lo hi n Fp) as [Hc Hs]; try lra; try lia.
  rewrite Hc, Hs. rewrite (to_int16_id n) by (unfold int16_range; lia).
  reflexivity.
Qed.

(** C6 (as the code has it).  On the radar of radius 310 with 4 bands the
    scale is 8 metres over 310 pixels.  A target at 45 degrees and 2.5
    metres is placed 68 pixels right of the centre and 68 above it, and its
    icon 8 pixels further up and left; the offset (+219, -219) is that of a
    target at 45 degrees and 8 metres, the full range. *)
Theorem marker_at_45_degrees (cx cy : Z) (m : lv_radar_marker_t F)
    (parent_ : lv_obj_ptr) (st : state) :
  finite (distance m) -> angle m = 45%Z ->
  g_center_x st = cx -> g_center_y st = cy -> g_radius st = 310%Z ->
  int16_range cx -> int16_range cy ->
  int16_range (cx + 219) -> int16_range (cy - 219) ->
  (val (distance m) = 25 / 10 ->
   marker_xy cx cy 310 4 m = (cx + 68, cy - 68)%Z /\
   lv_radar_add_markers parent_ 4 [m] 1 st
   = Ok [with_icon (Some (next_obj st)) m]
       (set_toolkit (S (next_obj st))
          (calls st
           ++ [Create Lv_label (next_obj st) parent_;
               Label_set_text (Some (next_obj st));
               Set_pos (Some (next_obj st)) (cx + 68 - 8) (cy - 68 - 8)])
          st)) /\
  (val (distance m) = 8 ->
   marker_xy cx cy 310 4 m = (cx + 219, cy - 219)%Z /\
   lv_radar_add_markers parent_ 4 [m] 1 st
   = Ok [with_icon (Some (next_obj st)) m]
       (set_toolkit (S (next_obj st))
          (calls st
           ++ [Create Lv_label (next_obj st) parent_;
               Label_set_text (Some (next_obj st));
               Set_pos (Some (next_obj st)) (cx + 219 - 8) (cy - 219 - 8)])
          st)).
Proof.
  intros Fd Ha Hcx Hcy Hr Rx Ry Rx' Ry'.
  unfold int16_range in *.
  pose proof eps_val as Ev. pose proof eta_bounds as Et.
  assert (Hrun : forall n : Z,
    marker_xy cx cy 310 4 m = (cx + n, cy - n)%Z ->
    lv_radar_add_markers parent_ 4 [m] 1 st
    = Ok [with_icon (Some (next_obj st)) m]
        (set_toolkit (S (next_obj st))
           (calls st
            ++ [Create Lv_label (next_obj st) parent_;
                Label_set_text (Some (next_obj st));
                Set_pos (Some (next_obj st)) (cx + n - 8) (cy - n - 8)])
           st)).
  { intros n Hxy. rewrite add_markers_run by (split; cbn; lia).
    rewrite Hcx, Hcy, Hr. change (Z.to_nat 1) with 1%nat. cbn.
    unfold place_icon. rewrite Hxy, Nat.add_1_r. reflexivity. }
  split; intros HD.
  - assert (Hxy : marker_xy cx cy 310 4 m = (cx + 68, cy - 68)%Z).
    { rewrite (marker_xy_45 cx cy m (9687 / 100) (9688 / 100) 68);
        rewrite ?HD; try assumption; try lra; try lia.
      rewrite !to_int16_id by (unfold int16_range; lia). reflexivity. }
    split; [exact Hxy|]. apply Hrun, Hxy.
  - assert (Hxy : marker_xy cx cy 310 4 m = (cx + 219, cy - 219)%Z).
    { rewrite (marker_xy_45 cx cy m (30999 / 100) (31001 / 100) 219);
        rewrite ?HD; try assumption; try lra; try lia.
      rewrite !to_int16_id by (unfold int16_range; lia). reflexivity. }
    split; [exact Hxy|]. apply Hrun, Hxy.
Qed.

End MarkerPlace.

(** ** The panel of the 480 x 320 display, in exact arithmetic *)

Section ExactRuns.
Open Scope R_scope.

Lemma Rtrunc_IZR (n : Z) : Rtrunc (IZR n) = n.
Proof.
  destruct (Z_le_gt_dec 0 n) as [Hn|Hn].
  - apply (is_trunc_pos (IZR n)); [apply Rtrunc_is_trunc| |exact Hn]. lra.
  - apply (is_trunc_neg (IZR n)); [apply Rtrunc_is_trunc| |lia]. lra.
Qed.

Lemma exact_polar_x (c : Z) (r a : R) :
  polar_x c r a = to_int16 (c + to_int16 (Rtrunc (r * cos a))).
Proof. reflexivity. Qed.

Lemma exact_polar_y (c : Z) (r a : R) :
  polar_y c r a = to_int16 (c - to_int16 (Rtrunc (r * sin a))).
Proof. reflexivity. Qed.

Lemma exact_deg2rad (d : Z) : deg2rad (of_int d) = IZR d * PI / 180.
Proof. reflexivity. Qed.

(** The end of the sweep line of [edge_sweep] at 0 degrees. *)
Lemma edge_sweep_end : sweep_end edge_sweep (of_int 0) = (-32669, 0)%Z.
Proof.
  unfold sweep_end, edge_sweep. cbn [center_x center_y radius].
  rewrite exact_polar_x, exact_polar_y, exact_deg2rad.
  replace (0 * PI / 180) with 0 by lra. rewrite cos_0, sin_0.
  cbn [of_int exact_ops].
  rewrite Rmult_1_r, Rmult_0_r, !Rtrunc_IZR. reflexivity.
Qed.

(** The position computed for [target_2500] on the panel. *)
Lemma target_2500_xy :
  marker_xy 240 320 310 4 target_2500 = (240 + 2964, 320 - 2964)%Z.
Proof.
  unfold marker_xy, target_2500. cbn [distance angle].
  rewrite exact_polar_x, exact_polar_y, exact_deg2rad.
  cbn [of_int fmul fdiv exact_ops].
  replace (45 * PI / 180) with (PI / 4) by lra.
  rewrite cos_PI4, sin_PI4.
  replace (2500 / (4 * 2 / 310)) with 96875 by (field; lra).
  assert (Rtrunc (96875 * (1 / sqrt 2)) = 68500%Z) as ->.
  { apply (is_trunc_pos (96875 * (1 / sqrt 2)));
      [apply Rtrunc_is_trunc| |lia].
    pose proof inv_sqrt2_bounds. lra. }
  reflexivity.
Qed.

(** The position computed for [target_full_range] on the panel. *)
Lemma target_full_range_xy :
  marker_xy 240 320 310 4 target_full_range = (240 + 310, 320)%Z.
Proof.
  unfold marker_xy, target_full_range. cbn [distance angle].
  rewrite exact_polar_x, exact_polar_y, exact_deg2rad.
  cbn [of_int fmul fdiv exact_ops].
  replace (0 * PI / 180) with 0 by lra. rewrite cos_0, sin_0.
  replace (8 / (4 * 2 / 310)) with 310 by (field; lra).
  rewrite Rmult_1_r, Rmult_0_r, !Rtrunc_IZR. reflexivity.
Qed.

End ExactRuns.

(** ** The theorems at work on the panel *)

(** [sweep_update_clamps] on the panel's sweep: 181 is drawn as 180. *)
Lemma sweep_update_clamps_panel :
  uint16_range 181 /\
  lv_radar_sweep_update (F:=R) (Some panel_sweep) 181 initial_state
  = lv_radar_sweep_update (Some panel_sweep) 180 initial_state.
Proof.
  assert (H : uint16_range 181) by (unfold uint16_range; lia).
  split; [exact H|].
  exact (proj1 (proj2
    (sweep_update_clamps (F:=R) panel_sweep initial_state 181 H))).
Defined.

(** [remove_markers_idempotent] on the two icons of the panel. *)
Lemma remove_markers_idempotent_panel :
  slots_ok shown_markers 2 /\
  exists markers' st',
    lv_radar_remove_markers shown_markers 2 panel_state = Ok markers' st' /\
    new_calls panel_state st' = [Obj_del (Some 1%nat); Obj_del (Some 2%nat)] /\
    lv_radar_remove_markers markers' 2 st' = Ok markers' st'.
Proof.
  assert (H : slots_ok shown_markers 2) by (split; [lia | cbn; lia]).
  split; [exact H|].
  destruct (remove_markers_idempotent (F:=R) shown_markers 2 panel_state H)
    as (markers' & st' & Hrun & _ & Hcalls & _ & _ & Hagain).
  exists markers', st'. repeat split; assumption.
Defined.

(** [markers_apply_twice] on the panel: adding the two people twice makes
    the labels 1 and 2, then the labels 3 and 4. *)
Lemma markers_apply_twice_panel :
  slots_ok panel_markers 2 /\
  exists m1 st1 m2 st2,
    lv_radar_add_markers (Some 0%nat) 4 panel_markers 2 panel_state
    = Ok m1 st1 /\
    lv_radar_add_markers (Some 0%nat) 4 m1 2 st1 = Ok m2 st2 /\
    created (new_calls panel_state st1) = [(Lv_label, 1%nat); (Lv_label, 2%nat)] /\
    created (new_calls st1 st2) = [(Lv_label, 3%nat); (Lv_label, 4%nat)].
Proof.
  assert (H : slots_ok panel_markers 2) by (split; [lia | cbn; lia]).
  split; [exact H|].
  destruct (markers_apply_twice (F:=R) (Some 0%nat) 4 panel_markers 2
              panel_state H)
    as (_ & _ & m1 & st1 & m2 & st2 & H1 & H2 & H3 & H4 & _).
  exists m1, st1, m2, st2. repeat split; assumption.
Defined.

(** [screen_draw_unvalidated] on the panel: 9 lines, then 4 arcs. *)
Lemma screen_draw_unvalidated_panel :
  (1 <= 4 <= 254 /\ 0 <= 9 <= 10) /\
  exists st',
    lv_radar_screen_draw (F:=R) (Some 0%nat) 4 9 panel_state = Ok tt st' /\
    created (new_calls panel_state st')
    = map (fun h => (Lv_line, h)) (seq 1 9)
      ++ map (fun h => (Lv_arc, h)) (seq 10 4).
Proof.
  assert (Hb : 1 <= 4 <= 254) by lia.
  assert (Hl : 0 <= 9 <= 10) by lia.
  split; [exact (conj Hb Hl)|].
  exact (proj1 (proj2 (proj2
    (screen_draw_unvalidated (F:=R) (Some 0%nat) 4 9 240 320 310
       panel_state Hb Hl)))).
Defined.

(** [sweep_cardinal_points] on the panel's sweep: at 0 degrees the line
    ends at (549, 320) or (550, 320). *)
Lemma sweep_cardinal_points_panel :
  exists x y,
    sweep_end (F:=R) panel_sweep (of_int 0) = (x, y) /\
    240 + 310 - 1 <= x <= 240 + 310 /\ y = 320.
Proof.
  refine (proj1
    (@sweep_cardinal_points R exact_ops exact_val exact_spec panel_sweep
       initial_state _ _ _ _ _ _));
    unfold int16_range; cbn; lia.
Defined.

(** [marker_at_45_degrees] on the panel: the person at 2.5 metres and 45
    degrees is 68 pixels right of the centre and 68 above it. *)
Lemma marker_at_45_degrees_panel :
  marker_xy 240 320 310 4
    {| icon := None; distance := (25 / 10)%R; angle := 45 |}
  = (240 + 68, 320 - 68).
Proof.
  refine (proj1 (proj1
    (@marker_at_45_degrees R exact_ops exact_val exact_spec 240 320
       {| icon := None; distance := (25 / 10)%R; angle := 45 |}
       (Some 0%nat) panel_state I eq_refl eq_refl eq_refl eq_refl _ _ _ _)
    eq_refl));
    unfold int16_range; lia.
Defined.

(** ** Where the code leaves the documented behaviour *)

(** A sweep centred at the right edge of the [int16_t] range: the centre
    and the radius are valid, and at 0 degrees the line ends at
    x = -32669, the sum 32767 + 100 wrapped, far from [cx + r]. *)
Lemma sweep_cardinal_point_wraps :
  exists s' st',
    lv_radar_sweep_update (F:=R) (Some edge_sweep) 0 initial_state
    = Ok s' st' /\
    sweep_points st' = [(32767, 0); (-32669, 0)] /\
    int16_range (center_x edge_sweep) /\ 0 < radius edge_sweep /\
    ~ (center_x edge_sweep + radius edge_sweep - 1 <= -32669
       <= center_x edge_sweep + radius edge_sweep + 1).
Proof.
  destruct (sweep_update_run (F:=R) edge_sweep initial_state 0)
    as (s' & st' & Hrun & Hpost).
  exists s', st'. split; [exact Hrun|]. split.
  - rewrite (post_sweep_points _ _ _ _ _ Hpost).
    change (clamp_angle 0) with 0. rewrite edge_sweep_end. reflexivity.
  - unfold int16_range. cbn. lia.
Qed.

(** A target at 45 degrees with distance 2500: the pixel distance is 96875
    and the offset that reaches the toolkit is (+2964, -2964), the integer
    part 68500 wrapped to 16 bits. *)
Lemma marker_2500_wraps :
  marker_xy 240 320 310 4 target_2500 = (240 + 2964, 320 - 2964) /\
  exists ms st',
    lv_radar_add_markers (Some 0%nat) 4 [target_2500] 1 panel_state
    = Ok ms st' /\
    map snd (pos_calls (new_calls panel_state st'))
    = [(240 + 2964 - 8, 320 - 2964 - 8)].
Proof.
  split; [exact target_2500_xy|].
  assert (H : slots_ok [target_2500] 1) by (split; [lia | cbn; lia]).
  do 2 eexists. split; [exact (add_markers_run _ _ _ _ _ H)|].
  rewrite new_calls_toolkit, coords_add_calls.
  change (Z.to_nat 1) with 1%nat. cbn [take map].
  unfold icon_xy. cbn [g_center_x g_center_y g_radius panel_state set_globals].
  rewrite target_2500_xy. reflexivity.
Qed.

(** The two people of the panel, shown, then a call of each operation with
    a count of zero, then the same list added again: the zero count
    releases nothing and leaves both icons in their slots, and the second
    addition creates the labels 3 and 4 over the labels 1 and 2, which are
    never released. *)
Lemma markers_not_cleared_and_doubled :
  exists m1 st1 m2 st2,
    lv_radar_add_markers (Some 0%nat) 4 panel_markers 2 panel_state
    = Ok m1 st1 /\
    map icon m1 = [Some 1%nat; Some 2%nat] /\
    lv_radar_add_markers (Some 0%nat) 4 m1 0 st1 = Ok m1 st1 /\
    lv_radar_update_markers 4 m1 0 st1 = Ok m1 st1 /\
    lv_radar_remove_markers m1 0 st1 = Ok m1 st1 /\
    lv_radar_add_markers (Some 0%nat) 4 m1 2 st1 = Ok m2 st2 /\
    map icon m2 = [Some 3%nat; Some 4%nat] /\
    created (new_calls st1 st2) = [(Lv_label, 3%nat); (Lv_label, 4%nat)] /\
    released (new_calls panel_state st2) = [].
Proof.
  assert (H : slots_ok panel_markers 2) by (split; [lia | cbn; lia]).
  pose proof (add_markers_run (F:=R) (Some 0%nat) 4 panel_markers 2
                panel_state H) as H1.
  change (Z.to_nat 2) with 2%nat in H1.
  cbn [take drop add_icons panel_markers app with_icon distance angle
       next_obj panel_state set_globals initial_state Nat.add] in H1.
  match type of H1 with _ = Ok ?m ?s => set (m1 := m) in *; set (st1 := s) in * end.
  assert (H' : slots_ok m1 2) by (split; [lia | cbn; lia]).
  pose proof (add_markers_run (F:=R) (Some 0%nat) 4 m1 2 st1 H') as H2.
  change (Z.to_nat 2) with 2%nat in H2.
  match type of H2 with _ = Ok ?m ?s => set (m2 := m) in *; set (st2 := s) in * end.
  exists m1, st1, m2, st2.
  split; [exact H1|]. split; [reflexivity|].
  split; [reflexivity|]. split; [reflexivity|]. split; [reflexivity|].
  split; [exact H2|]. split; [reflexivity|].
  split; reflexivity.
Qed.

(** A display 10 pixels high gives the radius 0, and one 5 pixels high the
    radius -5: the construction succeeds and the whole grid is created,
    the container, 9 lines and 4 arcs. *)
Lemma screen_create_zero_radius :
  (exists st',
     lv_radar_screen_create (F:=R) (Some 0%nat) 480 10 initial_state
     = Ok (Some 1%nat) st' /\
     g_radius st' = 0 /\
     created (new_calls initial_state st')
     = (Lv_obj, 1%nat)
       :: map (fun h => (Lv_line, h)) (seq 2 9)
       ++ map (fun h => (Lv_arc, h)) (seq 11 4)) /\
  (exists st',
     lv_radar_screen_create (F:=R) (Some 0%nat) 480 5 initial_state
     = Ok (Some 1%nat) st' /\
     g_radius st' = -5 /\
     created (new_calls initial_state st')
     = (Lv_obj, 1%nat)
       :: map (fun h => (Lv_line, h)) (seq 2 9)
       ++ map (fun h => (Lv_arc, h)) (seq 11 4)).
Proof.
  split.
  - destruct (screen_create_run (F:=R) (Some 0%nat) 480 10 initial_state)
      as (st' & Hrun & _ & _ & Hr & Hc).
    exists st'. split; [exact Hrun|]. split; [exact Hr | exact Hc].
  - destruct (screen_create_run (F:=R) (Some 0%nat) 480 5 initial_state)
      as (st' & Hrun & _ & _ & Hr & Hc).
    exists st'. split; [exact Hrun|]. split; [exact Hr | exact Hc].
Qed.

(** C5.  [lv_radar_add_markers] and [lv_radar_update_markers] compute one
    and the same position for a marker, from the scale
    [band_count * 2 / radius]: an update after an addition sets the
    positions the addition set.  The grid does not draw to that scale.  Its
    bands are [radius / band_count] pixels wide, an integer division: on the
    panel, of radius 310 with 4 bands, the arcs have the diameters 154, 308,
    462 and 616, so the arc of 8 metres has the radius 308, while a target
    at 8 metres and 0 degrees is placed 310 pixels from the centre. *)
Theorem grid_and_marker_scales_differ :
  (forall (parent_ : lv_obj_ptr) (b : Z) (markers : list (lv_radar_marker_t R))
          (count : Z) (st : state),
     slots_ok markers count ->
     exists m1 st1 st2,
       lv_radar_add_markers parent_ b markers count st = Ok m1 st1 /\
       lv_radar_update_markers b m1 count st1 = Ok m1 st2 /\
       pos_calls (new_calls st1 st2) = pos_calls (new_calls st st1)) /\
  (exists st',
     lv_radar_screen_draw (F:=R) (Some 0%nat) 4 9 panel_state = Ok tt st' /\
     map snd (size_calls (new_calls panel_state st'))
     = [(154, 154); (308, 308); (462, 462); (616, 616)]) /\
  marker_xy 240 320 310 4 target_full_range = (240 + 310, 320).
Proof.
  split; [|split].
  - intros parent_ b markers count st Hs.
    destruct (add_then_update_same_positions parent_ b markers count st Hs)
      as (m1 & st1 & st2 & H1 & H2 & H3 & _).
    exists m1, st1, st2. auto.
  - eexists. split; [apply screen_draw_run; lia|].
    lazy -[polar_x polar_y line_end].
    reflexivity.
  - exact target_full_range_xy.
Qed.

(** * More of the panel *)

(** ** The lines of the sweep *)

Lemma fresh_handles_some (n : nat) (l : list lv_obj_ptr) :
  Forall is_Some (fresh_handles n l).
Proof.
  revert n. induction l as [|[h|] l IH]; intros n; cbn; constructor;
    eauto.
Qed.

Lemma fresh_handles_id (n : nat) (l : list lv_obj_ptr) :
  Forall is_Some l -> fresh_handles n l = l /\ null_count l = 0%nat.
Proof.
  induction 1 as [|[h|] l Hh Hl IH]; cbn.
  - auto.
  - destruct IH as [-> ->]. auto.
  - destruct Hh as [x Hx]. discriminate.
Qed.

Section SweepLines.
Context {F : Type} `{FloatOps F}.

(** An update gives a new line to every handle that is [NULL], the sweep
    line first and the shadows in order, each created in the sweep's
    parent; it releases nothing and starts no animation. *)
Lemma sweep_update_lines (s : lv_radar_sweep_t) (st : state) (a : Z) :
  exists s' st',
    lv_radar_sweep_update (Some s) a st = Ok s' st' /\
    sweep_update_post s st a s' st' /\
    sweep_handles s' = fresh_handles (next_obj st) (sweep_handles s) /\
    created_in (new_calls st st')
    = map (fun h => (h, parent s))
        (seq (next_obj st) (null_count (sweep_handles s))) /\
    released (new_calls st st') = [] /\
    anim_calls (new_calls st st') = [] /\
    created (new_calls st st')
    = map (fun h => (Lv_line, h))
        (seq (next_obj st) (null_count (sweep_handles s))) /\
    next_obj st' = (null_count (sweep_handles s) + next_obj st)%nat /\
    (g_center_x st', g_center_y st', g_radius st')
    = (g_center_x st, g_center_y st, g_radius st).
Proof.
  destruct (sweep_update_run s st a) as (s' & st' & Hrun & Hpost).
  exists s', st'. split; [exact Hrun|]. split; [exact Hpost|].
  revert Hrun. clear Hpost.
  destruct st as [gx gy gr swp shp pts lp hp n cl].
  destruct s as [p cx cy r ca l [s0 s1 s2 s3 s4]].
  destruct l, s0, s1, s2, s3, s4.
  all: match goal with |- _ -> ?C => set (Post := C) end.
  all: unfold lv_radar_sweep_update; cbn -[for_loop];
       rewrite sweep_loop_unroll.
  all: match goal with
       | |- ?lhs = _ -> _ =>
           let v := eval lazy -[polar_x polar_y sweep_end shadow_opacity
                     shadow_angle clamp_angle app Z.add Z.sub Z.mul Z.quot
                     to_int16 cast_int16 of_int deg2rad fmul fdiv cosf sinf
                     ftrunc fltb] in lhs in
           change lhs with v
       end.
  all: subst Post; intros [= <- <-].
  all: (split; [reflexivity|]).
  all: erewrite new_calls_app
         by (cbn [calls]; rewrite <- ?app_assoc; reflexivity).
  all: repeat split; reflexivity.
Qed.

End SweepLines.

Lemma created_in_app (l1 l2 : list lv_call) :
  created_in (l1 ++ l2) = created_in l1 ++ created_in l2.
Proof. apply omap_app. Qed.

Lemma released_app (l1 l2 : list lv_call) :
  released (l1 ++ l2) = released l1 ++ released l2.
Proof. apply omap_app. Qed.

Lemma anim_calls_app (l1 l2 : list lv_call) :
  anim_calls (l1 ++ l2) = anim_calls l1 ++ anim_calls l2.
Proof. apply omap_app. Qed.

Lemma released_del (l : list nat) : released (map del l) = map Some l.
Proof. induction l as [|h l IH]; cbn; [reflexivity|]. now f_equal. Qed.

Lemma new_calls_trans (st st1 st2 : state) (l1 l2 : list lv_call) :
  calls st1 = calls st ++ l1 -> calls st2 = calls st1 ++ l2 ->
  new_calls st st2 = l1 ++ l2.
Proof.
  intros E1 E2. apply new_calls_app. rewrite E2, E1. now rewrite app_assoc.
Qed.

Section SweepLife.
Context {F : Type} `{FloatOps F}.

(** X1. The lines of a sweep are created once.  An update creates a line,
    in the sweep's parent, for every handle that is [NULL] and for no
    other: the sweep line first, then the shadows in order.  After it all
    six handles are set, so the next update, whatever its angle, creates
    nothing and keeps the six handles.  No update releases an object or
    changes the parent, the centre or the radius of the sweep. *)
Theorem sweep_lines_created_once (s : lv_radar_sweep_t) (st : state)
    (a b : Z) :
  exists s1 st1 s2 st2,
    lv_radar_sweep_update (Some s) a st = Ok s1 st1 /\
    lv_radar_sweep_update (Some s1) b st1 = Ok s2 st2 /\
    sweep_handles s1 = fresh_handles (next_obj st) (sweep_handles s) /\
    Forall is_Some (sweep_handles s1) /\
    created_in (new_calls st st1)
    = map (fun h => (h, parent s))
        (seq (next_obj st) (null_count (sweep_handles s))) /\
    sweep_handles s2 = sweep_handles s1 /\
    created_in (new_calls st1 st2) = [] /\
    released (new_calls st st1) = [] /\
    released (new_calls st1 st2) = [] /\
    (parent s2, center_x s2, center_y s2, radius s2)
    = (parent s, center_x s, center_y s, radius s).
Proof.
  destruct (sweep_update_lines s st a)
    as (s1 & st1 & Hrun1 & Hpost1 & Hh1 & Hc1 & Hr1 & _).
  destruct (sweep_update_lines s1 st1 b)
    as (s2 & st2 & Hrun2 & Hpost2 & Hh2 & Hc2 & Hr2 & _).
  assert (Hsome : Forall is_Some (sweep_handles s1))
    by (rewrite Hh1; apply fresh_handles_some).
  destruct (fresh_handles_id (next_obj st1) _ Hsome) as [Hid Hnull].
  exists s1, st1, s2, st2.
  rewrite Hid in Hh2. rewrite Hnull in Hc2.
  destruct (post_geometry _ _ _ _ _ Hpost1) as (P1 & X1 & Y1 & R1).
  destruct (post_geometry _ _ _ _ _ Hpost2) as (P2 & X2 & Y2 & R2).
  repeat split; try assumption.
  congruence.
Qed.

(** X3. The animation callback narrows its [int32_t] value to [uint16_t]
    before the update clamps it.  The angle stored is the smaller of
    [value mod 65536] and 180: a value from 0 to 65535 is drawn as the
    update draws it, and a negative value down to -65355 is drawn at 180
    degrees, not at 0. *)
Theorem sweep_anim_cb_narrows (s : lv_radar_sweep_t) (st : state) (v : Z) :
  (exists s' st',
     lv_radar_sweep_anim_cb (Some s) v st = Ok s' st' /\
     current_angle s' = Z.min (v mod 65536) 180) /\
  (0 <= v <= 65535 ->
   lv_radar_sweep_anim_cb (Some s) v st
   = lv_radar_sweep_update (Some s) v st) /\
  (-65355 <= v < 0 ->
   lv_radar_sweep_anim_cb (Some s) v st
   = lv_radar_sweep_update (Some s) 180 st).
Proof.
  unfold lv_radar_sweep_anim_cb, to_uint16. split; [|split].
  - destruct (sweep_update_run s st (v mod 65536))
      as (s' & st' & Hrun & Hpost).
    exists s', st'. split; [exact Hrun|].
    rewrite (post_angle _ _ _ _ _ Hpost). apply clamp_angle_min.
  - intros Hv. now rewrite Z.mod_small by lia.
  - intros Hv. apply sweep_update_above.
    replace v with (v + 65536 - 1 * 65536) by lia.
    rewrite Zminus_mod, Z_mod_mult, Z.sub_0_r, Z.mod_mod by lia.
    rewrite Z.mod_small by lia. lia.
Qed.

(** What [lv_radar_sweep_create] leaves when [malloc] gives memory. *)
Lemma sweep_create_run (parent_ : lv_obj_ptr) (d : Z) (loop : bool)
    (st : state) :
  exists s st',
    lv_radar_sweep_create true parent_ d loop st = Ok (Some s) st' /\
    s = {| parent := parent_; center_x := g_center_x st;
           center_y := g_center_y st; radius := g_radius st;
           current_angle := 0;
           sweep_line := Some (next_obj st);
           shadow_lines :=
             Shadows (Some (1 + next_obj st)%nat) (Some (2 + next_obj st)%nat)
               (Some (3 + next_obj st)%nat) (Some (4 + next_obj st)%nat)
               (Some (5 + next_obj st)%nat) |} /\
    (exists l,
       calls st' = calls st ++ l ++ [Anim_start 0 180 d d 500 loop] /\
       created_in l = map (fun h => (h, parent_)) (seq (next_obj st) 6) /\
       released l = [] /\ anim_calls l = [] /\
       created l = map (fun h => (Lv_line, h)) (seq (next_obj st) 6)) /\
    next_obj st' = (6 + next_obj st)%nat /\
    (g_center_x st', g_center_y st', g_radius st')
    = (g_center_x st, g_center_y st, g_radius st).
Proof.
  unfold lv_radar_sweep_create. cbn [negb]. unfold bind at 1.
  cbn [get_state].
  match goal with
  | |- context [lv_radar_sweep_update (Some ?s0) 0] =>
      destruct (sweep_update_lines s0 st 0)
        as (s1 & st1 & Hrun & Hpost & Hh & Hc & Hr & Ha & Hcl & Hn & Hg)
  end.
  unfold bind at 1. rewrite Hrun. unfold bind at 1. cbn [call modify ret].
  exists s1, (log [Anim_start 0 180 d d 500 loop] st1).
  split; [reflexivity|]. split; [|split].
  - destruct s1 as [p1 cx1 cy1 r1 ca1 l1 [t0 t1 t2 t3 t4]].
    destruct (post_geometry _ _ _ _ _ Hpost) as (P1 & X1 & Y1 & R1).
    pose proof (post_angle _ _ _ _ _ Hpost) as A1.
    cbn in P1, X1, Y1, R1, A1, Hh. injection Hh as -> -> -> -> -> ->.
    subst. reflexivity.
  - exists (new_calls st st1). split; [|auto].
    rewrite log_calls, (post_calls _ _ _ _ _ Hpost).
    now rewrite app_assoc.
  - split; [exact Hn | exact Hg].
Qed.

(** X4. [lv_radar_sweep_create].  When [malloc] fails the result is [NULL]
    and nothing has happened: no object, no animation.  Otherwise the new
    sweep has the centre and the radius that the globals hold at the call,
    the angle 0, and six lines, created in this order in [parent]: the
    sweep line and the five shadows; one animation is started, as the last
    call, from 0 to 180 with the duration given as its duration and as its
    playback duration, a repeat delay of 500 and, with [loop], no end. *)
Theorem sweep_create_result (parent_ : lv_obj_ptr) (d : Z) (loop : bool)
    (st : state) :
  lv_radar_sweep_create false parent_ d loop st = Ok None st /\
  exists s st',
    lv_radar_sweep_create true parent_ d loop st = Ok (Some s) st' /\
    (parent s, center_x s, center_y s, radius s, current_angle s)
    = (parent_, g_center_x st, g_center_y st, g_radius st, 0) /\
    sweep_handles s = map Some (seq (next_obj st) 6) /\
    created_in (new_calls st st')
    = map (fun h => (h, parent_)) (seq (next_obj st) 6) /\
    anim_calls (new_calls st st') = [Anim_start 0 180 d d 500 loop] /\
    last (new_calls st st') = Some (Anim_start 0 180 d d 500 loop) /\
    released (new_calls st st') = [].
Proof.
  split; [reflexivity|].
  destruct (sweep_create_run parent_ d loop st)
    as (s & st' & Hrun & -> & (l & Hl & Hc & Hr & Ha & _) & _).
  eexists _, st'. split; [exact Hrun|].
  rewrite (new_calls_app _ _ _ Hl).
  rewrite created_in_app, anim_calls_app, released_app, Hc, Hr, Ha.
  rewrite last_snoc. repeat split; reflexivity.
Qed.

(** X5. Deleting a sweep that was just created releases the six lines the
    creation made, each once and in the order of their creation, and then
    frees the structure.  It makes no other call: nothing is done about the
    animation that the creation started on the structure. *)
Theorem sweep_create_then_delete (parent_ : lv_obj_ptr) (d : Z)
    (loop : bool) (st : state) :
  exists s st1 st2,
    lv_radar_sweep_create true parent_ d loop st = Ok (Some s) st1 /\
    lv_radar_sweep_delete (Some s) st1 = Ok tt st2 /\
    released (new_calls st1 st2)
    = map (fun c => Some (fst c)) (created_in (new_calls st st1)) /\
    new_calls st1 st2
    = map del (seq (next_obj st) 6) ++ [Free_sweep].
Proof.
  destruct (sweep_create_run parent_ d loop st)
    as (s & st1 & Hrun & -> & (l & Hl & Hc & Hr & Ha & _) & _).
  eexists _, st1, _. split; [exact Hrun|].
  split; [apply sweep_delete_run|].
  rewrite new_calls_log, (new_calls_app _ _ _ Hl).
  rewrite released_app, released_del, created_in_app, Hc.
  repeat split; reflexivity.
Qed.

End SweepLife.

(** ** Markers: adding, moving, removing *)

Section MarkerLife.
Context {F : Type} `{FloatOps F}.

Implicit Types (markers ms : list (lv_radar_marker_t F)).

Lemma icons_add_icons n ms :
  non_null (map icon (add_icons n ms)) = seq n (length ms).
Proof.
  revert n. induction ms as [|m ms IH]; intros n; [reflexivity|].
  cbn. f_equal. apply IH.
Qed.

Lemma handles_add_icons n ms :
  map icon (add_icons n ms) = map Some (seq n (length ms)).
Proof.
  revert n. induction ms as [|m ms IH]; intros n; [reflexivity|].
  cbn. f_equal. apply IH.
Qed.

Lemma clear_add_icons n ms :
  map (with_icon None) (add_icons n ms) = map (with_icon None) ms.
Proof.
  revert n. induction ms as [|m ms IH]; intros n; [reflexivity|].
  cbn. f_equal. apply IH.
Qed.

Lemma clear_no_icon ms :
  Forall (fun m => icon m = None) ms -> map (with_icon None) ms = ms.
Proof.
  induction 1 as [|[i d a] ms Hm _ IH]; [reflexivity|].
  cbn in *. subst i. now f_equal.
Qed.

Lemma handles_update_calls cx cy r b ms :
  map fst (pos_calls (update_calls cx cy r b ms)) = map icon ms.
Proof. rewrite pos_update_calls, map_map. reflexivity. Qed.

Lemma released_update_calls cx cy r b ms :
  released (update_calls cx cy r b ms) = [].
Proof. induction ms as [|m ms IH]; [reflexivity|]. exact IH. Qed.

Lemma icons_all_null ms :
  map icon (map (with_icon None) ms) = replicate (length ms) None.
Proof. induction ms as [|m ms IH]; [reflexivity|]. cbn. now f_equal. Qed.

Lemma length_add_result n c markers :
  (c <= length markers)%nat ->
  length (add_icons n (take c markers) ++ drop c markers) = length markers.
Proof.
  intros Hc. rewrite length_app, length_add_icons, length_take_le, length_drop; lia.
Qed.

(** X6. Adding markers and then removing them releases exactly the labels
    the addition created, each once and in the order of the slots.  The
    addition stores its new label in every slot below [marker_count]
    whatever the slot held, so a handle that was there before is
    overwritten and is not among the objects released.  After the removal
    the slots below [marker_count] hold [NULL] and keep their distance and
    angle: an array whose icons were all [NULL] is back as it was. *)
Theorem add_then_remove_markers (parent_ : lv_obj_ptr) (b : Z) markers
    (count : Z) (st : state) :
  slots_ok markers count ->
  exists m1 st1 m2 st2,
    lv_radar_add_markers parent_ b markers count st = Ok m1 st1 /\
    lv_radar_remove_markers m1 count st1 = Ok m2 st2 /\
    map icon (take (Z.to_nat count) m1)
    = map Some (seq (next_obj st) (Z.to_nat count)) /\
    created (new_calls st st1)
    = map (fun h => (Lv_label, h)) (seq (next_obj st) (Z.to_nat count)) /\
    released (new_calls st1 st2)
    = map Some (seq (next_obj st) (Z.to_nat count)) /\
    m2 = map (with_icon None) (take (Z.to_nat count) markers)
         ++ drop (Z.to_nat count) markers /\
    (Forall (fun m => icon m = None) markers -> m2 = markers).
Proof.
  intros Hok. pose proof Hok as [Hc Hlen].
  set (c := Z.to_nat count) in *.
  assert (Hlt : length (take c markers) = c) by (apply length_take_le; lia).
  assert (Hla : length (add_icons (next_obj st) (take c markers)) = c)
    by (now rewrite length_add_icons).
  eexists _, _, _, _.
  split; [apply add_markers_run, Hok|].
  split.
  { apply remove_markers_run. eapply slots_ok_length; [|exact Hok].
    apply length_add_result. exact Hlen. }
  fold c. rewrite new_calls_toolkit, new_calls_log.
  rewrite take_app_length' by (symmetry; exact Hla).
  rewrite drop_app_length' by (symmetry; exact Hla).
  unfold remove_calls. rewrite icons_add_icons, released_del, Hlt.
  rewrite created_add_calls, handles_add_icons, Hlt, clear_add_icons.
  repeat split.
  intros Hnull.
  rewrite clear_no_icon by (apply Forall_take, Hnull).
  apply take_drop.
Qed.

(** X7. [lv_radar_update_markers] moves the icon of every slot below
    [marker_count] without a test of the handle: the handles it passes to
    [lv_obj_set_pos] are the handles of the slots, [NULL] included.  It
    creates nothing, releases nothing and leaves the array as it is.  So
    after [lv_radar_remove_markers] an update passes [NULL] to
    [lv_obj_set_pos] once for every slot. *)
Theorem update_markers_unchecked (b : Z) markers (count : Z) (st : state) :
  slots_ok markers count ->
  (exists st',
     lv_radar_update_markers b markers count st = Ok markers st' /\
     map fst (pos_calls (new_calls st st'))
     = map icon (take (Z.to_nat count) markers) /\
     created (new_calls st st') = [] /\
     released (new_calls st st') = []) /\
  (exists m1 st1 st2,
     lv_radar_remove_markers markers count st = Ok m1 st1 /\
     lv_radar_update_markers b m1 count st1 = Ok m1 st2 /\
     map fst (pos_calls (new_calls st1 st2))
     = replicate (Z.to_nat count) None).
Proof.
  intros Hok. pose proof Hok as [Hc Hlen].
  set (c := Z.to_nat count) in *.
  assert (Hlt : length (take c markers) = c) by (apply length_take_le; lia).
  split.
  - eexists. split; [apply update_markers_run, Hok|].
    rewrite new_calls_log, handles_update_calls, created_update_calls,
      released_update_calls. auto.
  - eexists _, _, _. split; [apply remove_markers_run, Hok|].
    split.
    { apply update_markers_run. eapply slots_ok_length; [|exact Hok].
      rewrite length_app, length_map, length_take_le, length_drop; lia. }
    fold c. rewrite new_calls_log, handles_update_calls.
    rewrite take_app_length' by (now rewrite length_map).
    rewrite icons_all_null, Hlt. reflexivity.
Qed.

End MarkerLife.

(** ** The grid: lines, arrays and arcs *)

Lemma points_calls_app (l1 l2 : list lv_call) :
  points_calls (l1 ++ l2) = points_calls l1 ++ points_calls l2.
Proof. apply omap_app. Qed.

Lemma points_line_calls parent_ buf n (idx : list Z) :
  points_calls (line_calls parent_ buf n idx)
  = zip (map Some (seq n (length idx))) (map buf idx).
Proof.
  revert n. induction idx as [|i idx IH]; intros n; [reflexivity|].
  cbn. f_equal. apply IH.
Qed.

Lemma points_arc_calls parent_ cx cy br lo hi n (bands : list Z) :
  points_calls (arc_calls parent_ cx cy br lo hi n bands) = [].
Proof.
  revert n. induction bands as [|band bands IH]; intros n; [reflexivity|].
  cbn. apply IH.
Qed.

Lemma zip_const {A B} (l : list A) (b : B) (k : list Z) :
  length k = length l ->
  zip l (map (fun _ => b) k) = map (fun a => (a, b)) l.
Proof.
  revert k. induction l as [|a l IH]; intros [|z k] Hk;
    try discriminate; [reflexivity|].
  cbn. f_equal. apply IH. now injection Hk.
Qed.

Lemma seqZ_to_nat (n : nat) (m : nat) :
  map Z.to_nat (seqZ (Z.of_nat m) (Z.of_nat n)) = seq m n.
Proof.
  revert m. induction n as [|n IH]; intros m; [reflexivity|].
  rewrite seqZ_cons by lia. cbn [map seq]. rewrite Nat2Z.id. f_equal.
  replace (Z.pred (Z.of_nat (S n))) with (Z.of_nat n) by lia.
  replace (Z.succ (Z.of_nat m)) with (Z.of_nat (S m)) by lia.
  apply IH.
Qed.

Lemma fold_left_last {A B} (f : B -> A) (l : list B) (x : B) (v : A) :
  fold_left (fun _ i => f i) (l ++ [x]) v = f x.
Proof. rewrite fold_left_app. reflexivity. Qed.

Lemma seqZ_snoc (m n : Z) :
  1 <= n -> seqZ m n = seqZ m (n - 1) ++ [m + (n - 1)].
Proof.
  intros Hn. replace n with (n - 1 + 1) at 1 by lia.
  rewrite seqZ_app by lia. reflexivity.
Qed.

Section GridArrays.
Context {F : Type} `{FloatOps F}.

(** Row [j] of [points] after the lines [idx]: the points of line [j] when
    [j] is among them, and what the row held otherwise. *)
Lemma grid_rows_lookup cx cy r lc (idx : list Z) (rows : list (list lv_point))
    (j : nat) :
  Forall (fun i => 0 <= i) idx ->
  (Z.of_nat j ∈ idx -> (j < length rows)%nat ->
   grid_rows cx cy r lc idx rows !! j
   = Some [(cx, cy); line_end cx cy r lc (Z.of_nat j)]) /\
  (Z.of_nat j ∉ idx -> grid_rows cx cy r lc idx rows !! j = rows !! j).
Proof.
  unfold grid_rows. intros Hpos. revert rows.
  induction Hpos as [|i idx Hi Hpos IH]; intros rows.
  - split; [intros Hin; apply elem_of_nil in Hin; contradiction|reflexivity].
  - cbn [fold_left].
    set (rows' := <[Z.to_nat i := _]> rows).
    destruct (IH rows') as [IHin IHout].
    assert (Hlen : length rows' = length rows) by apply length_insert.
    destruct (decide (Z.of_nat j ∈ idx)) as [Hj|Hj].
    + split; [|intros Hn; exfalso; apply Hn; now right].
      intros _ Hlt. apply IHin; [exact Hj | now rewrite Hlen].
    + split.
      * intros Hin Hlt. apply elem_of_cons in Hin as [Heq|Hin];
          [|contradiction].
        transitivity (rows' !! j); [exact (IHout Hj)|]. subst i rows'.
        rewrite Nat2Z.id. now apply list_lookup_insert_eq.
      * intros Hn. transitivity (rows' !! j); [exact (IHout Hj)|].
        subst rows'.
        apply list_lookup_insert_ne. intros E.
        apply Hn, elem_of_cons. left. lia.
Qed.

(** X8. In the panel's grid every radial line has a row of [points] to
    itself.  For a band count from 1 to 254 and at most ten lines, line [i]
    is attached to row [i]; when the grid is drawn row [i] holds the centre
    and the end of line [i], for every [i] below [line_count], and the rows
    from [line_count] on hold what they held before. *)
Theorem grid_lines_own_rows parent_ b lc (st : state) :
  1 <= b <= 254 -> 0 <= lc <= 10 -> length (points st) = 10%nat ->
  exists st',
    lv_radar_screen_draw parent_ b lc st = Ok tt st' /\
    points_calls (new_calls st st')
    = zip (map Some (seq (next_obj st) (Z.to_nat lc)))
        (map Points (seq 0 (Z.to_nat lc))) /\
    (forall i, (i < Z.to_nat lc)%nat ->
       points st' !! i
       = Some [(g_center_x st, g_center_y st);
               line_end (g_center_x st) (g_center_y st) (g_radius st) lc
                 (Z.of_nat i)]) /\
    (forall i, (Z.to_nat lc <= i)%nat -> points st' !! i = points st !! i).
Proof.
  intros Hb Hlc Hrows. eexists. split; [apply screen_draw_run; assumption|].
  assert (Hpos : Forall (fun i => 0 <= i) (seqZ 0 lc)).
  { eapply Forall_impl; [apply seqZ_below|]. cbn. intros; lia. }
  split; [|split].
  - unfold drawn. erewrite new_calls_app by reflexivity.
    rewrite points_calls_app, points_line_calls, points_arc_calls, app_nil_r.
    rewrite length_seqZ. f_equal.
    rewrite <- (seqZ_to_nat (Z.to_nat lc) 0), map_map.
    change (Z.of_nat 0) with 0. rewrite Z2Nat.id by lia. reflexivity.
  - intros i Hi. unfold drawn. cbn [points set_points].
    apply (grid_rows_lookup _ _ _ _ _ _ i Hpos).
    + apply elem_of_seqZ. lia.
    + lia.
  - intros i Hi. unfold drawn. cbn [points set_points].
    apply (grid_rows_lookup _ _ _ _ _ _ i Hpos).
    intros Hin. apply elem_of_seqZ in Hin. lia.
Qed.

(** X9. In the grid of [main/radar_screen.c] the radial lines share one
    array and the horizontal lines another.  For a band count from 1 to 254
    and at least one line, every radial line is attached to [points] and
    every horizontal line to [h_points]; when the grid is drawn [points]
    holds the centre and the end of the last radial line, and, with two
    bands or more, [h_points] holds the two ends of the last horizontal
    line, the one of band [band_count - 1]. *)
Theorem radar_screen_c_lines_share_points parent_ cx cy r b lc (st : state) :
  1 <= b <= 254 -> 1 <= lc <= 255 ->
  exists st',
    radar_screen_c_draw parent_ cx cy r b lc st = Ok tt st' /\
    points_calls (new_calls st st')
    = map (fun h => (Some h, Line_points))
        (seq (next_obj st + Z.to_nat b) (Z.to_nat lc))
      ++ map (fun h => (Some h, H_points))
           (seq (next_obj st + Z.to_nat b + Z.to_nat lc) (Z.to_nat (b - 1))) /\
    line_points st' = [(cx, cy); line_end cx cy r lc (lc - 1)] /\
    (2 <= b ->
     let d := to_int16 (Z.quot r b) * (b - 1) in
     h_points st'
     = [(to_int16 (cx - d), to_int16 (cy - d));
        (to_int16 (cx + d), to_int16 (cy - d))]).
Proof.
  intros Hb Hlc. eexists.
  split; [apply radar_screen_c_draw_run; lia|].
  split; [|split].
  - unfold c_drawn. erewrite new_calls_app by reflexivity.
    rewrite !points_calls_app, !points_line_calls, points_arc_calls.
    cbn [app]. rewrite !zip_const by (now rewrite length_map, length_seq).
    rewrite !length_seqZ, !map_map. reflexivity.
  - unfold c_drawn. cbn [line_points set_h_points set_line_points].
    unfold c_line_points. rewrite (seqZ_snoc 0 lc) by lia.
    rewrite fold_left_last. reflexivity.
  - intros Hb2 d. unfold c_drawn. cbn [h_points set_h_points].
    unfold c_h_points. rewrite (seqZ_snoc 1 (b - 1)) by lia.
    rewrite fold_left_last.
    replace (1 + (b - 1 - 1)) with (b - 1) by lia. reflexivity.
Qed.

End GridArrays.

(** ** The grid: the bounds of its loops *)

Lemma for_each_app {A} (l1 l2 : list Z) (body : Z -> A -> M A) (a : A)
    (st : state) :
  for_each (l1 ++ l2) body a st
  = match for_each l1 body a st with
    | Ok a' st' => for_each l2 body a' st'
    | Fault f st' => Fault f st'
    end.
Proof.
  revert a st. induction l1 as [|i l1 IH]; intros a st; [reflexivity|].
  cbn [app for_each]. unfold bind.
  destruct (body i a st) as [a' st'|f st']; [apply IH | reflexivity].
Qed.








Section GridBounds.
Context {F : Type} `{FloatOps F}.

(** X10. The panel's grid has room for ten radial lines.  With a line count
    from 11 to 255 (and a band count that is not zero) the first ten lines
    are drawn, each in its row of [points]; the eleventh line is created
    and its points are then stored in [points[10]], outside the array: the
    drawing stops there, with the eleven lines and no arc. *)
Theorem grid_line_count_above_ten parent_ b lc (st : state) :
  1 <= b <= 255 -> 11 <= lc <= 255 -> length (points st) = 10%nat ->
  exists st',
    lv_radar_screen_draw parent_ b lc st = Fault Out_of_bounds st' /\
    created (new_calls st st')
    = map (fun h => (Lv_line, h)) (seq (next_obj st) 11) /\
    (forall i, (i < 10)%nat ->
       points st' !! i
       = Some [(g_center_x st, g_center_y st);
               line_end (g_center_x st) (g_center_y st) (g_radius st) lc
                 (Z.of_nat i)]).
Proof.
  intros Hb Hlc Hrows.
  unfold lv_radar_screen_draw, bind at 1. cbn [get_state].
  unfold bind at 1, band_radius_of.
  destruct (Z.eqb_spec b 0) as [->|_]; [lia|]. cbn [ret]. unfold bind at 1.
  rewrite for_loop_uint8_lt by (unfold uint8_fuel; lia).
  replace (lc - 0) with (10 + (lc - 10)) by lia.
  rewrite seqZ_app by lia. rewrite for_each_app.
  rewrite grid_lines_each by apply seqZ_below.
  rewrite seqZ_cons by lia. cbn [for_each]. unfold bind at 1.
  unfold draw_line at 1. unfold bind at 1.
  cbn [lv_line_create create]. unfold bind at 1, store_points_row at 1.
  unfold bind at 1. cbn [get_state Z.leb Z.ltb Z.compare andb raise].
  change (0 + 10) with 10.
  eexists. split; [reflexivity|]. split.
  - erewrite new_calls_app
      by (cbn [calls set_toolkit set_points]; rewrite <- app_assoc;
          reflexivity).
    rewrite created_app, created_line_calls, length_seqZ.
    change (Z.to_nat 10) with 10%nat.
    rewrite (seq_S 10), map_app. reflexivity.
  - intros i Hi. cbn [points set_toolkit set_points].
    assert (Hpos : Forall (fun i => 0 <= i) (seqZ 0 10)).
    { eapply Forall_impl; [apply seqZ_below|]. cbn. intros; lia. }
    apply (grid_rows_lookup _ _ _ _ _ _ i Hpos).
    + apply elem_of_seqZ. lia.
    + lia.
Qed.

(** One arc: a new object and its five calls. *)
Lemma draw_arc_run parent_ cx cy br band lo hi (st : state) :
  draw_arc parent_ cx cy br band lo hi st
  = Ok tt
      (set_toolkit (next_obj st + 1)
         (calls st ++ arc_calls parent_ cx cy br lo hi (next_obj st) [band])
         st).
Proof. apply (arcs_each parent_ cx cy br lo hi [band] st). Qed.

(** The loop [for (uint8_t band = 1; band <= 255; band++)] has not ended
    after any number of rounds, and each round creates an arc. *)
Lemma arc_loop_255 parent_ cx cy br lo hi (fuel : nat) :
  forall (band : Z) (st : state), 0 <= band <= 255 ->
  exists st',
    for_loop fuel (fun band => band <=? 255) incr_uint8
      (fun band _ => draw_arc parent_ cx cy br band lo hi) band tt st
    = Fault Nontermination st' /\
    exists l, calls st' = calls st ++ l /\
              created l = map (fun h => (Lv_arc, h)) (seq (next_obj st) fuel).
Proof.
  induction fuel as [|fuel IH]; intros band st Hband.
  - exists st. split; [reflexivity|]. exists []. now rewrite app_nil_r.
  - cbn [for_loop]. destruct (Z.leb_spec band 255) as [_|Hgt]; [|lia].
    unfold bind at 1. rewrite draw_arc_run.
    match goal with
    | |- context [for_loop fuel _ _ _ ?i tt ?s1] =>
        destruct (IH i s1) as (st' & Hrun & l & Hl & Hc)
    end.
    { unfold incr_uint8, to_uint8.
      pose proof (Z.mod_pos_bound (band + 1) 256 ltac:(lia)). lia. }
    exists st'. split; [exact Hrun|].
    eexists. split.
    + rewrite Hl. cbn [calls set_toolkit]. rewrite <- app_assoc. reflexivity.
    + rewrite created_app, Hc, created_arc_calls.
      cbn [next_obj set_toolkit length seq map app].
      now rewrite Nat.add_1_r.
Qed.

(** X11. A band count of 255 is a bound that the [uint8_t] counter of the
    arc loop never passes: [band <= band_count] holds for every value the
    counter can take.  After any number of rounds the loop has not ended
    and has created one arc in each round; the drawing of the grid does not
    return. *)
Theorem grid_band_count_255 parent_ lc (st : state) :
  0 <= lc <= 10 ->
  (forall (fuel : nat) cx cy br (st0 : state),
   exists st',
     for_loop fuel (fun band => band <=? 255) incr_uint8
       (fun band _ => draw_arc parent_ cx cy br band 180 360) 1 tt st0
     = Fault Nontermination st' /\
     created (new_calls st0 st')
     = map (fun h => (Lv_arc, h)) (seq (next_obj st0) fuel)) /\
  exists st',
    lv_radar_screen_draw parent_ 255 lc st = Fault Nontermination st' /\
    created (new_calls st st')
    = map (fun h => (Lv_line, h)) (seq (next_obj st) (Z.to_nat lc))
      ++ map (fun h => (Lv_arc, h))
           (seq (next_obj st + Z.to_nat lc) 257).
Proof.
  intros Hlc. split.
  - intros fuel cx cy br st0.
    destruct (arc_loop_255 parent_ cx cy br 180 360 fuel 1 st0 ltac:(lia))
      as (st' & Hrun & l & Hl & Hc).
    exists st'. split; [exact Hrun|].
    now rewrite (new_calls_app _ _ _ Hl).
  - unfold lv_radar_screen_draw, bind at 1. cbn [get_state].
    unfold bind at 1, band_radius_of. cbn [Z.eqb ret]. unfold bind at 1.
    rewrite for_loop_uint8_lt by (unfold uint8_fuel; lia).
    rewrite Z.sub_0_r, grid_lines_each
      by (eapply Forall_impl; [apply seqZ_below|]; cbn; intros; lia).
    match goal with
    | |- context [for_loop uint8_fuel _ _ ?body 1 tt ?s1] =>
        destruct (arc_loop_255 parent_ (g_center_x st) (g_center_y st)
                    (to_int16 (Z.quot (g_radius st) 255)) 180 360
                    uint8_fuel 1 s1 ltac:(lia))
          as (st' & Hrun & l & Hl & Hc)
    end.
    exists st'. split; [exact Hrun|].
    cbn [calls set_toolkit set_points] in Hl.
    rewrite <- app_assoc in Hl.
    rewrite (new_calls_app _ _ _ Hl), created_app, created_line_calls, Hc.
    cbn [next_obj set_toolkit set_points]. rewrite length_seqZ.
    reflexivity.
Qed.


End GridBounds.

(** ** Start-up *)

Lemma created_in_line_calls parent_ buf n (idx : list Z) :
  created_in (line_calls parent_ buf n idx)
  = map (fun h => (h, parent_)) (seq n (length idx)).
Proof.
  revert n. induction idx as [|i idx IH]; intros n; [reflexivity|].
  cbn. f_equal. apply IH.
Qed.

Lemma created_in_arc_calls parent_ cx cy br lo hi n (bands : list Z) :
  created_in (arc_calls parent_ cx cy br lo hi n bands)
  = map (fun h => (h, parent_)) (seq n (length bands)).
Proof.
  revert n. induction bands as [|band bands IH]; intros n; [reflexivity|].
  cbn. f_equal. apply IH.
Qed.

Lemma anim_line_calls parent_ buf n (idx : list Z) :
  anim_calls (line_calls parent_ buf n idx) = [].
Proof.
  revert n. induction idx as [|i idx IH]; intros n; [reflexivity|].
  cbn. apply IH.
Qed.

Lemma anim_arc_calls parent_ cx cy br lo hi n (bands : list Z) :
  anim_calls (arc_calls parent_ cx cy br lo hi n bands) = [].
Proof.
  revert n. induction bands as [|band bands IH]; intros n; [reflexivity|].
  cbn. apply IH.
Qed.

Lemma released_line_calls parent_ buf n (idx : list Z) :
  released (line_calls parent_ buf n idx) = [].
Proof.
  revert n. induction idx as [|i idx IH]; intros n; [reflexivity|].
  cbn. apply IH.
Qed.

Lemma released_arc_calls parent_ cx cy br lo hi n (bands : list Z) :
  released (arc_calls parent_ cx cy br lo hi n bands) = [].
Proof.
  revert n. induction bands as [|band bands IH]; intros n; [reflexivity|].
  cbn. apply IH.
Qed.

Section StartupProps.
Context {F : Type} `{FloatOps F}.

Lemma created_in_add_calls p cx cy r b n (ms : list (lv_radar_marker_t F)) :
  created_in (add_calls p cx cy r b n ms)
  = map (fun h => (h, p)) (seq n (length ms)).
Proof.
  revert n. induction ms as [|m ms IH]; intros n; [reflexivity|].
  cbn. f_equal. apply IH.
Qed.

Lemma anim_add_calls p cx cy r b n (ms : list (lv_radar_marker_t F)) :
  anim_calls (add_calls p cx cy r b n ms) = [].
Proof.
  revert n. induction ms as [|m ms IH]; intros n; [reflexivity|].
  cbn. apply IH.
Qed.

(** The state [lv_radar_screen_create] leaves: the container, the globals,
    the grid of 4 bands and 9 lines. *)
Lemma screen_create_state parent_ w h (st : state) :
  exists st',
    lv_radar_screen_create parent_ w h st = Ok (Some (next_obj st)) st' /\
    (g_center_x st', g_center_y st', g_radius st')
    = (to_int16 (Z.quot w 2), h, to_int16 (h - 10)) /\
    next_obj st' = (14 + next_obj st)%nat /\
    exists lines arcs,
      calls st'
      = calls st
        ++ [Create Lv_obj (next_obj st) parent_;
            Set_size (Some (next_obj st)) w h]
        ++ lines ++ arcs /\
      lines
      = line_calls (Some (next_obj st)) (fun i => Points (Z.to_nat i))
          (1 + next_obj st) (seqZ 0 9) /\
      arcs
      = arc_calls (Some (next_obj st)) (to_int16 (Z.quot w 2)) h
          (to_int16 (Z.quot (to_int16 (h - 10)) 4)) 180 360
          (10 + next_obj st) (seqZ 1 4).
Proof.
  unfold lv_radar_screen_create. unfold bind at 1.
  cbn [lv_obj_create create].
  unfold bind at 1. cbn [call modify]. unfold bind at 1. cbn [modify].
  unfold bind at 1. rewrite screen_draw_run by lia. cbn [ret].
  eexists. split; [reflexivity|].
  destruct st as [gx gy gr swp shp pts lp hp n cl].
  unfold drawn.
  cbn [g_center_x g_center_y g_radius next_obj calls set_points set_toolkit
       set_globals].
  rewrite !length_seqZ.
  change (Z.to_nat (9 - 0)) with 9%nat. change (Z.to_nat 9) with 9%nat.
  change (Z.to_nat 4) with 4%nat.
  replace (S n + 9)%nat with (10 + n)%nat by lia.
  split; [reflexivity|]. split; [lia|].
  eexists _, _. split; [|split; reflexivity].
  rewrite <- !app_assoc. reflexivity.
Qed.

(** X13. [lv_radar_panel_init] does not fail, whatever the resolution.  It
    sets the centre to [(xRes / 2, yRes)] and the radius to [yRes - 10],
    and creates, in this order: the screen, with no parent; the radar
    container, in the screen; and in the container the 9 lines and the 4
    arcs of the grid, the sweep line and its 5 shadows, and the 2 labels of
    the people: 23 objects, with one animation started and nothing
    released.  When [malloc] fails the six lines of the sweep and the
    animation are missing and everything else is the same: the failure is
    not detected. *)
Theorem panel_init_objects (lit_2_5 lit_4_5 : F) (xRes yRes : Z)
    (st : state) :
  (exists st',
     lv_radar_panel_init lit_2_5 lit_4_5 true xRes yRes st = Ok tt st' /\
     (g_center_x st', g_center_y st', g_radius st')
     = (to_int16 (Z.quot xRes 2), yRes, to_int16 (yRes - 10)) /\
     created_in (new_calls st st')
     = (next_obj st, None)
       :: (1 + next_obj st, Some (next_obj st))%nat
       :: map (fun h => (h, Some (1 + next_obj st)%nat))
            (seq (2 + next_obj st) 21) /\
     created (new_calls st st')
     = [(Lv_obj, next_obj st); (Lv_obj, (1 + next_obj st)%nat)]
       ++ map (fun h => (Lv_line, h)) (seq (2 + next_obj st) 9)
       ++ map (fun h => (Lv_arc, h)) (seq (11 + next_obj st) 4)
       ++ map (fun h => (Lv_line, h)) (seq (15 + next_obj st) 6)
       ++ map (fun h => (Lv_label, h)) (seq (21 + next_obj st) 2) /\
     anim_calls (new_calls st st') = [Anim_start 0 180 4000 4000 500 true] /\
     released (new_calls st st') = []) /\
  (exists st',
     lv_radar_panel_init lit_2_5 lit_4_5 false xRes yRes st = Ok tt st' /\
     created (new_calls st st')
     = [(Lv_obj, next_obj st); (Lv_obj, (1 + next_obj st)%nat)]
       ++ map (fun h => (Lv_line, h)) (seq (2 + next_obj st) 9)
       ++ map (fun h => (Lv_arc, h)) (seq (11 + next_obj st) 4)
       ++ map (fun h => (Lv_label, h)) (seq (15 + next_obj st) 2) /\
     anim_calls (new_calls st st') = [] /\
     released (new_calls st st') = []).
Proof.
  assert (Hok : slots_ok (init_markers lit_2_5 lit_4_5) 2)
    by (split; [lia | cbn; lia]).
  set (st0 := set_toolkit (S (next_obj st))
                (calls st ++ [Create Lv_obj (next_obj st) None;
                              Screen_load (Some (next_obj st));
                              Obj_clean (Some (next_obj st))]) st).
  assert (Hstart : forall ok,
    lv_radar_panel_init lit_2_5 lit_4_5 ok xRes yRes st
    = (radar <- lv_radar_screen_create (Some (next_obj st)) xRes yRes ;;
       lv_radar_sweep_create ok radar 4000 true ;;
       lv_radar_add_markers radar 4 (init_markers lit_2_5 lit_4_5) 2 ;;
       ret tt) st0).
  { intros ok. unfold lv_radar_panel_init. unfold bind at 1.
    cbn [lv_obj_create create]. unfold bind at 1. cbn [call modify].
    unfold bind at 1. cbn [call modify]. subst st0.
    destruct st as [gx gy gr swp shp pts lp hp n cl].
    cbn [set_toolkit next_obj calls g_center_x g_center_y g_radius
         sweep_points shadow_points points line_points h_points].
    rewrite <- !app_assoc. reflexivity. }
  destruct (screen_create_state (Some (next_obj st)) xRes yRes st0)
    as (st1 & Hrun1 & Hg1 & Hn1 & lines & arcs & Hl1 & -> & ->).
  injection Hg1 as Hx1 Hy1 Hr1.
  change (next_obj st0) with (S (next_obj st)) in *.
  change (calls st0)
    with (calls st ++ [Create Lv_obj (next_obj st) None;
                       Screen_load (Some (next_obj st));
                       Obj_clean (Some (next_obj st))]) in Hl1.
  split.
  - destruct (sweep_create_run (Some (S (next_obj st))) 4000 true st1)
      as (s & st2 & Hrun2 & _ & (l & Hl2 & Hc2 & Hr2 & Ha2 & Hcl2) & Hn2 & Hg2).
    injection Hg2 as Hx2 Hy2 Hr2'.
    rewrite Hstart. unfold bind at 1. rewrite Hrun1.
    unfold bind at 1. rewrite Hrun2.
    unfold bind at 1.
    rewrite (add_markers_run (Some (S (next_obj st))) 4 _ 2 st2 Hok).
    cbn [ret]. eexists. split; [reflexivity|].
    cbn [g_center_x g_center_y g_radius set_toolkit].
    split; [congruence|].
    erewrite new_calls_app.
    2:{ cbn [calls set_toolkit]. rewrite Hl2, Hl1, <- !app_assoc.
        reflexivity. }
    rewrite Hn1 in *. rewrite Hn2.
    rewrite !created_in_app, !created_app, !anim_calls_app, !released_app.
    rewrite created_in_line_calls, created_in_arc_calls, created_in_add_calls.
    rewrite created_line_calls, created_arc_calls, created_add_calls.
    rewrite anim_line_calls, anim_arc_calls, anim_add_calls.
    rewrite released_line_calls, released_arc_calls, released_add_calls.
    rewrite Hc2, Hr2, Ha2, Hcl2, !length_seqZ.
    repeat split; reflexivity.
  - rewrite Hstart. unfold bind at 1. rewrite Hrun1.
    unfold bind at 1. unfold lv_radar_sweep_create at 1. cbn [negb ret].
    unfold bind at 1.
    rewrite (add_markers_run (Some (S (next_obj st))) 4 _ 2 st1 Hok).
    cbn [ret]. eexists. split; [reflexivity|].
    erewrite new_calls_app.
    2:{ cbn [calls set_toolkit]. rewrite Hl1, <- !app_assoc. reflexivity. }
    rewrite Hn1.
    rewrite !created_app, !anim_calls_app, !released_app.
    rewrite created_line_calls, created_arc_calls, created_add_calls.
    rewrite anim_line_calls, anim_arc_calls, anim_add_calls.
    rewrite released_line_calls, released_arc_calls, released_add_calls.
    rewrite !length_seqZ.
    repeat split; reflexivity.
Qed.

End StartupProps.

(** ** The two variants of the screen, and the globals *)

Section Variants.
Context {F : Type} `{FloatOps F}.



(** X18. A sweep takes its centre and its radius from the file's globals
    at the moment it is created.  Before any [lv_radar_screen_create] they
    are zero: the sweep has the centre (0, 0) and the radius 0.  After one
    they are those of that screen.  After two they are those of the second
    screen, also for a sweep created in the container of the first. *)
Theorem sweep_follows_globals parent_ w1 h1 w2 h2 (d : Z) (loop : bool) :
  (exists s st',
     lv_radar_sweep_create true parent_ d loop initial_state
     = Ok (Some s) st' /\
     (center_x s, center_y s, radius s) = (0, 0, 0)) /\
  (forall st : state,
   exists radar st1 s st2,
     lv_radar_screen_create parent_ w1 h1 st = Ok radar st1 /\
     lv_radar_sweep_create true radar d loop st1 = Ok (Some s) st2 /\
     parent s = radar /\
     (center_x s, center_y s, radius s)
     = (to_int16 (Z.quot w1 2), h1, to_int16 (h1 - 10))) /\
  (forall st : state,
   exists radar1 st1 radar2 st2 s st3,
     lv_radar_screen_create parent_ w1 h1 st = Ok radar1 st1 /\
     lv_radar_screen_create parent_ w2 h2 st1 = Ok radar2 st2 /\
     lv_radar_sweep_create true radar1 d loop st2 = Ok (Some s) st3 /\
     parent s = radar1 /\
     (center_x s, center_y s, radius s)
     = (to_int16 (Z.quot w2 2), h2, to_int16 (h2 - 10))).
Proof.
  split; [|split].
  - destruct (sweep_create_run parent_ d loop initial_state)
      as (s & st' & Hrun & -> & _).
    eexists _, st'. split; [exact Hrun | reflexivity].
  - intros st.
    destruct (screen_create_state parent_ w1 h1 st)
      as (st1 & Hrun1 & Hg1 & _).
    destruct (sweep_create_run (Some (next_obj st)) d loop st1)
      as (s & st2 & Hrun2 & -> & _).
    eexists _, st1, _, st2. split; [exact Hrun1|]. split; [exact Hrun2|].
    cbn [parent center_x center_y radius]. split; [reflexivity|].
    injection Hg1 as -> -> ->. reflexivity.
  - intros st.
    destruct (screen_create_state parent_ w1 h1 st)
      as (st1 & Hrun1 & _).
    destruct (screen_create_state parent_ w2 h2 st1)
      as (st2 & Hrun2 & Hg2 & _).
    destruct (sweep_create_run (Some (next_obj st)) d loop st2)
      as (s & st3 & Hrun3 & -> & _).
    eexists _, st1, _, st2, _, st3.
    split; [exact Hrun1|]. split; [exact Hrun2|]. split; [exact Hrun3|].
    cbn [parent center_x center_y radius]. split; [reflexivity|].
    injection Hg2 as -> -> ->. reflexivity.
Qed.

End Variants.

(** ** Inside the radar *)

Section RadarBox.
Context {F : Type} `{FloatOps F} `{FloatVal F} `{!FloatSpec F}.
Open Scope R_scope.

(** [r * cosf(a)] and [r * sinf(a)] as in [radius_times_cosf], for an angle
    within [13 * eps] of [theta]. *)
Lemma radius_times_cosf_wide (r : Z) (a : F) (theta : R) :
  (0 <= r <= 32767)%Z -> finite a -> Rabs (val a - theta) <= 13 * eps ->
  finite (fmul (of_int r) (cosf a)) /\
  Rabs (val (fmul (of_int r) (cosf a)) - IZR r * cos theta) <= 1 / 16.
Proof.
  intros Hr Fa Ha.
  destruct (cosf_spec a Fa) as [Fc Hc].
  pose proof (Rle_trans _ _ _ (cos_lipschitz (val a) theta) Ha) as Hl.
  pose proof (COS_bound theta) as Hb.
  assert (0 <= IZR r <= 32767) as Hr'
    by (split; [apply (IZR_le 0)|apply (IZR_le r 32767)]; lia).
  pose proof eps_val as Ev. pose proof eta_bounds as Et.
  apply Rabs_le_between in Hc. apply Rabs_le_between in Hl.
  apply Rabs_le_between in Ha.
  assert (Hcv : -2 <= val (cosf a) <= 2) by lra.
  assert (HE : Rabs (val (of_int r) * val (cosf a)) <= 65536).
  { rewrite of_int_val by lia. apply Rabs_le. nra. }
  destruct (fmul_spec (of_int r) (cosf a) (of_int_finite r ltac:(lia)) Fc)
    as [Fp Hp].
  { rewrite fmax_val. lra. }
  split; [exact Fp|].
  rewrite of_int_val in * by lia.
  apply Rabs_le_between in Hp. apply Rabs_le_between in HE.
  pose proof (Rabs_pos (IZR r * val (cosf a))) as Hpos.
  assert (Rabs (IZR r * val (cosf a)) <= 65536) as HE'
    by (apply Rabs_le; lra).
  apply Rabs_le. nra.
Qed.

Lemma radius_times_sinf_wide (r : Z) (a : F) (theta : R) :
  (0 <= r <= 32767)%Z -> finite a -> Rabs (val a - theta) <= 13 * eps ->
  finite (fmul (of_int r) (sinf a)) /\
  Rabs (val (fmul (of_int r) (sinf a)) - IZR r * sin theta) <= 1 / 16.
Proof.
  intros Hr Fa Ha.
  destruct (sinf_spec a Fa) as [Fc Hc].
  pose proof (Rle_trans _ _ _ (sin_lipschitz (val a) theta) Ha) as Hl.
  pose proof (SIN_bound theta) as Hb.
  assert (0 <= IZR r <= 32767) as Hr'
    by (split; [apply (IZR_le 0)|apply (IZR_le r 32767)]; lia).
  pose proof eps_val as Ev. pose proof eta_bounds as Et.
  apply Rabs_le_between in Hc. apply Rabs_le_between in Hl.
  apply Rabs_le_between in Ha.
  assert (Hcv : -2 <= val (sinf a) <= 2) by lra.
  assert (HE : Rabs (val (of_int r) * val (sinf a)) <= 65536).
  { rewrite of_int_val by lia. apply Rabs_le. nra. }
  destruct (fmul_spec (of_int r) (sinf a) (of_int_finite r ltac:(lia)) Fc)
    as [Fp Hp].
  { rewrite fmax_val. lra. }
  split; [exact Fp|].
  rewrite of_int_val in * by lia.
  apply Rabs_le_between in Hp. apply Rabs_le_between in HE.
  pose proof (Rabs_pos (IZR r * val (sinf a))) as Hpos.
  assert (Rabs (IZR r * val (sinf a)) <= 65536) as HE'
    by (apply Rabs_le; lra).
  apply Rabs_le. nra.
Qed.

(** The integer part of a float that lies within a sixteenth of a real of
    magnitude at most [n]: at most [n] in magnitude, and not negative when
    the real is not. *)
Lemma cast_within (p : F) (y : R) (n : Z) :
  finite p -> (0 <= n <= 32767)%Z ->
  Rabs (val p - y) <= 1 / 16 -> Rabs y <= IZR n ->
  (- n <= cast_int16 p <= n)%Z /\ (0 <= y -> (0 <= cast_int16 p)%Z).
Proof.
  intros Fp Hn Hp Hy.
  assert (0 <= IZR n <= 32767) as Hn'
    by (split; [apply (IZR_le 0)|apply (IZR_le n 32767)]; lia).
  apply Rabs_le_between in Hp. apply Rabs_le_between in Hy.
  assert (Ht : is_trunc (val p) (ftrunc p)).
  { apply ftrunc_spec; [exact Fp|].
    change (2 ^ 31)%Z with 2147483648%Z. apply Rabs_def1; lra. }
  destruct Ht as [Hpos Hneg].
  assert (Hb : (- n <= ftrunc p <= n)%Z).
  { destruct (Rle_dec 0 (val p)) as [Hv|Hv].
    - destruct (Hpos Hv) as [H1 H2]. split.
      + assert (-1 < ftrunc p)%Z by (apply lt_IZR; lra). lia.
      + assert (ftrunc p < n + 1)%Z
          by (apply lt_IZR; rewrite plus_IZR; lra). lia.
    - destruct (Hneg ltac:(lra)) as [H1 H2]. split.
      + assert (- n - 1 < ftrunc p)%Z
          by (apply lt_IZR; rewrite minus_IZR, opp_IZR; lra). lia.
      + assert (ftrunc p < 1)%Z by (apply lt_IZR; lra). lia. }
  unfold cast_int16. rewrite to_int16_id by (unfold int16_range; lia).
  split; [exact Hb|]. intros Hy0.
  destruct (Rle_dec 0 (val p)) as [Hv|Hv].
  - destruct (Hpos Hv) as [H1 H2].
    assert (-1 < ftrunc p)%Z by (apply lt_IZR; lra). lia.
  - destruct (Hneg ltac:(lra)) as [H1 H2].
    assert (-1 < ftrunc p)%Z by (apply lt_IZR; lra). lia.
Qed.

(** The transform of an angle that approximates a [theta] between 0 and
    [PI]: the point lies in the rectangle of the half disc. *)
Lemma polar_in_box (cx cy r : Z) (a : F) (theta : R) :
  (0 <= r <= 32767)%Z -> finite a ->
  Rabs (val a - theta) <= 13 * eps -> 0 <= theta <= PI ->
  int16_range (cx - r) -> int16_range (cx + r) ->
  int16_range (cy - r) -> int16_range cy ->
  in_radar_box cx cy r
    (polar_x cx (of_int r) a, polar_y cy (of_int r) a).
Proof.
  intros Hr Fa Ha Ht Hx1 Hx2 Hy1 Hy2. unfold int16_range in *.
  destruct (radius_times_cosf_wide r a theta Hr Fa Ha) as [Fc Hc].
  destruct (radius_times_sinf_wide r a theta Hr Fa Ha) as [Fs Hs].
  assert (0 <= IZR r) as Hr' by (apply (IZR_le 0); lia).
  pose proof (COS_bound theta) as Bc.
  pose proof (SIN_bound theta) as Bs.
  pose proof (sin_ge_0 theta ltac:(lra) ltac:(lra)) as Bs0.
  destruct (cast_within _ _ r Fc Hr Hc) as [Hdx _].
  { apply Rabs_le. nra. }
  destruct (cast_within _ _ r Fs Hr Hs) as [Hdy Hdy0].
  { apply Rabs_le. nra. }
  specialize (Hdy0 ltac:(nra)).
  unfold in_radar_box, polar_x, polar_y. cbn [fst snd].
  rewrite !to_int16_id by (unfold int16_range; lia). lia.
Qed.

(** X14. The sweep stays inside the radar.  For a radius from 0 to 32767
    and a centre such that the rectangle of the half disc fits the
    [int16_t] coordinates, every update, whatever its angle, leaves in
    [sweep_points] a line from the centre to a point of that rectangle: at
    most the radius left or right of the centre, at most the radius above
    it, and never below it.  The same holds for the end computed for each
    of the five shadows. *)
Theorem sweep_stays_in_radar (s : lv_radar_sweep_t) (st : state) (a : Z) :
  uint16_range a -> (0 <= radius s <= 32767)%Z ->
  int16_range (center_x s - radius s) ->
  int16_range (center_x s + radius s) ->
  int16_range (center_y s - radius s) -> int16_range (center_y s) ->
  exists s' st' p,
    lv_radar_sweep_update (Some s) a st = Ok s' st' /\
    sweep_points st' = [(center_x s, center_y s); p] /\
    in_radar_box (center_x s) (center_y s) (radius s) p /\
    (forall j, (0 <= j <= 4)%Z ->
       in_radar_box (center_x s) (center_y s) (radius s)
         (sweep_end s (shadow_angle (Z.min a 180) j))) /\
    shadow_points st'
    = [(center_x s, center_y s); sweep_end s (shadow_angle (Z.min a 180) 4)].
Proof.
  intros Ha Hr Hx1 Hx2 Hy1 Hy2. unfold uint16_range in Ha.
  assert (Hbox : forall d, (0 <= d <= 180)%Z ->
            in_radar_box (center_x s) (center_y s) (radius s)
              (sweep_end s (of_int d))).
  { intros d Hd. destruct (deg2rad_of_int d Hd) as [Fd Ad].
    unfold sweep_end.
    apply (polar_in_box _ _ _ _ (IZR d * PI / 180)); try assumption.
    - pose proof eps_pos. lra.
    - assert (0 <= IZR d <= 180)
        by (split; [apply (IZR_le 0)|apply (IZR_le d 180)]; lia).
      pose proof PI_RGT_0. nra. }
  destruct (sweep_update_run s st a) as (s' & st' & Hrun & Hpost).
  exists s', st', (sweep_end s (of_int (Z.min a 180))).
  split; [exact Hrun|].
  rewrite (post_sweep_points _ _ _ _ _ Hpost),
    (post_shadow_points _ _ _ _ _ Hpost), clamp_angle_min.
  split; [reflexivity|]. split; [apply Hbox; lia|]. split; [|reflexivity].
  intros j Hj. rewrite shadow_angle_max by lia. apply Hbox. lia.
Qed.

End RadarBox.

Section GridLines.
Context {F : Type} `{FloatOps F} `{FloatVal F} `{!FloatSpec F}.
Open Scope R_scope.

(** A product of a real of magnitude at most [X] and a positive real of
    at most [Y]. *)
Lemma Rmult_between (x y X Y : R) :
  - X <= x <= X -> 0 <= y <= Y -> - (X * Y) <= x * y <= X * Y.
Proof.
  intros Hx Hy. destruct (Rle_dec 0 x) as [Hp|Hn].
  - split.
    + apply Rle_trans with 0; [|apply Rmult_le_pos; lra].
      assert (0 <= X * Y) by (apply Rmult_le_pos; lra). lra.
    + apply Rmult_le_compat; lra.
  - assert (0 <= - x * y) by (apply Rmult_le_pos; lra).
    assert (- x * y <= X * Y) by (apply Rmult_le_compat; lra).
    lra.
Qed.

(** The angle of radial line [i] of [lc] lines, in radians: within
    [13 * eps] of [i / (lc - 1)] of a half turn. *)
Lemma line_angle_rad (lc i : Z) :
  (2 <= lc <= 10)%Z -> (0 <= i <= lc - 1)%Z ->
  finite (deg2rad (line_angle_deg lc i)) /\
  Rabs (val (deg2rad (line_angle_deg lc i))
        - IZR i / IZR (lc - 1) * PI) <= 13 * eps.
Proof.
  intros Hlc Hi. unfold line_angle_deg.
  set (n := (lc - 1)%Z) in *.
  assert (1 <= IZR n <= 9) as Hn
    by (split; [apply (IZR_le 1)|apply (IZR_le n 9)]; lia).
  assert (0 <= IZR i <= IZR n) as Hi'
    by (split; [apply (IZR_le 0)|apply IZR_le]; lia).
  pose proof eta_bounds as Et.
  pose proof PI_4 as P4. pose proof PI_RGT_0 as P0.
  set (Q := 180 / IZR n).
  assert (HQ : Q * IZR n = 180) by (unfold Q; field; lra).
  assert (HQb : 20 <= Q <= 180) by (split; nra).
  destruct (fdiv_spec (of_int 180) (of_int n)) as [Fq Hq];
    try apply of_int_finite; rewrite ?of_int_val; try lia; try lra.
  { fold Q. rewrite Rabs_right by lra. rewrite fmax_val. lra. }
  rewrite !of_int_val in Hq by lia. fold Q in Hq.
  rewrite (Rabs_right Q) in Hq by lra. apply Rabs_le_between in Hq.
  rewrite eps_val in Hq.
  set (q := fdiv (of_int 180) (of_int n)) in *.
  assert (Hqv : 19 <= val q <= 181) by lra.
  assert (Hprod : 0 <= val q * IZR i <= 1629).
  { split; [apply Rmult_le_pos; lra|].
    apply Rle_trans with (181 * 9); [|lra].
    apply Rmult_le_compat; lra. }
  destruct (fmul_spec q (of_int i) Fq) as [Fa Ha];
    try apply of_int_finite; rewrite ?of_int_val; try lia.
  { rewrite Rabs_right by lra. rewrite fmax_val. lra. }
  rewrite !of_int_val in Ha by lia.
  rewrite (Rabs_right (val q * IZR i)) in Ha by lra.
  apply Rabs_le_between in Ha. rewrite eps_val in Ha.
  set (A := fmul q (of_int i)) in *.
  set (D := Q * IZR i).
  assert (HD : 0 <= D <= 180).
  { unfold D. split; [apply Rmult_le_pos; lra|].
    rewrite <- HQ. apply Rmult_le_compat_l; lra. }
  assert (Hup : val q * IZR i
                <= (Q + 1 / 8388608 * Q + eta) * IZR i)
    by (apply Rmult_le_compat_r; lra).
  assert (Hlo : (Q - 1 / 8388608 * Q - eta) * IZR i <= val q * IZR i)
    by (apply Rmult_le_compat_r; lra).
  assert (He : 0 <= eta * IZR i <= 9 * eta).
  { split; [apply Rmult_le_pos; lra|].
    rewrite (Rmult_comm 9). apply Rmult_le_compat_l; lra. }
  assert (HA : - (361 / 8388608) <= val A - D <= 361 / 8388608)
    by (unfold D in *; lra).
  destruct (deg2rad_spec A Fa) as [Fr Hr]. split; [exact Fr|].
  assert (HAb : Rabs (val A * PI / 180) <= 403 / 100).
  { assert (HA1 : - 181 <= val A <= 181) by lra.
    assert (HP : 0 <= PI <= 4) by lra.
    pose proof (Rmult_between (val A) PI 181 4 HA1 HP).
    apply Rabs_le. lra. }
  assert (HP : 0 <= PI <= 4) by lra.
  pose proof (Rmult_between (val A - D) PI (361 / 8388608) 4 HA HP) as HB.
  pose proof (Rabs_pos (val A * PI / 180)) as Hpos.
  apply Rabs_le_between in Hr. rewrite eps_val in Hr.
  replace (IZR i / IZR n * PI) with (D * PI / 180)
    by (unfold D, Q; field; lra).
  rewrite eps_val. apply Rabs_le. lra.
Qed.

(** The end of a radial line lies in the rectangle of the half disc; the
    first line runs to the right along the base, the last to the left, and
    the middle one of an odd number of lines straight up. *)
Lemma line_end_in_radar (cx cy r lc i : Z) :
  (0 <= r <= 32767)%Z -> (2 <= lc <= 10)%Z -> (0 <= i <= lc - 1)%Z ->
  int16_range (cx - r) -> int16_range (cx + r) ->
  int16_range (cy - r) -> int16_range cy ->
  in_radar_box cx cy r (line_end cx cy r lc i) /\
  (i = 0%Z ->
   snd (line_end cx cy r lc i) = cy /\
   (cx + r - 1 <= fst (line_end cx cy r lc i) <= cx + r)%Z) /\
  (i = (lc - 1)%Z ->
   snd (line_end cx cy r lc i) = cy /\
   (cx - r <= fst (line_end cx cy r lc i) <= cx - r + 1)%Z) /\
  ((2 * i)%Z = (lc - 1)%Z ->
   fst (line_end cx cy r lc i) = cx /\
   (cy - r <= snd (line_end cx cy r lc i) <= cy - r + 1)%Z).
Proof.
  intros Hr Hlc Hi Hx1 Hx2 Hy1 Hy2.
  destruct (line_angle_rad lc i Hlc Hi) as [Fa Ha].
  assert (1 <= IZR (lc - 1) <= 9) as Hn
    by (split; [apply (IZR_le 1)|apply (IZR_le (lc - 1) 9)]; lia).
  assert (0 <= IZR i <= IZR (lc - 1)) as Hi'
    by (split; [apply (IZR_le 0)|apply IZR_le]; lia).
  pose proof PI_RGT_0 as P0.
  assert (Hfrac : 0 <= IZR i / IZR (lc - 1) <= 1).
  { split.
    - apply Rmult_le_pos; [lra|]. apply Rlt_le, Rinv_0_lt_compat. lra.
    - apply (Rmult_le_reg_r (IZR (lc - 1))); [lra|].
      unfold Rdiv. rewrite Rmult_assoc, Rinv_l by lra. lra. }
  split; [|split; [|split]].
  - unfold line_end.
    apply (polar_in_box _ _ _ _ (IZR i / IZR (lc - 1) * PI));
      try assumption. nra.
  - intros ->. unfold line_end, polar_x, polar_y. cbn [fst snd].
    replace (0 / IZR (lc - 1) * PI) with 0 in Ha by (unfold Rdiv; lra).
    destruct (radius_times_cosf_wide r _ 0 Hr Fa Ha) as [Fc Hc].
    destruct (radius_times_sinf_wide r _ 0 Hr Fa Ha) as [Fs Hs].
    rewrite cos_0, Rmult_1_r in Hc. rewrite sin_0, Rmult_0_r in Hs.
    destruct (cast_near _ r Fc ltac:(lia) Hc) as (H1 & H1' & _).
    destruct (cast_near _ 0 Fs ltac:(lia) Hs) as (_ & H2 & _).
    rewrite H2 by reflexivity. unfold int16_range in *.
    assert (r - 1 <= cast_int16 (fmul (of_int r)
              (cosf (deg2rad (line_angle_deg lc 0)))) <= r)%Z as Hb.
    { destruct (Z.eq_dec r 0%Z) as [E|E]; [rewrite H1' by exact E|]; lia. }
    rewrite !to_int16_id by (unfold int16_range; lia). lia.
  - intros ->. unfold line_end, polar_x, polar_y. cbn [fst snd].
    replace (IZR (lc - 1) / IZR (lc - 1) * PI) with PI in Ha
      by (field; lra).
    destruct (radius_times_cosf_wide r _ PI Hr Fa Ha) as [Fc Hc].
    destruct (radius_times_sinf_wide r _ PI Hr Fa Ha) as [Fs Hs].
    rewrite cos_PI in Hc. rewrite sin_PI, Rmult_0_r in Hs.
    replace (IZR r * -1) with (IZR (- r)) in Hc by (rewrite opp_IZR; lra).
    destruct (cast_near _ (- r) Fc ltac:(lia) Hc) as (_ & H1' & H1).
    destruct (cast_near _ 0 Fs ltac:(lia) Hs) as (_ & H2 & _).
    rewrite H2 by reflexivity. unfold int16_range in *.
    assert (- r <= cast_int16 (fmul (of_int r)
              (cosf (deg2rad (line_angle_deg lc (lc - 1))))) <= - r + 1)%Z
      as Hb.
    { destruct (Z.eq_dec r 0%Z) as [E|E]; [rewrite H1' by lia|]; lia. }
    rewrite !to_int16_id by (unfold int16_range; lia). lia.
  - intros Hmid. unfold line_end, polar_x, polar_y. cbn [fst snd].
    assert (IZR (lc - 1) = 2 * IZR i) as E
      by (rewrite <- Hmid, mult_IZR; reflexivity).
    replace (IZR i / IZR (lc - 1) * PI) with (PI / 2) in Ha
      by (rewrite E; field; lra).
    destruct (radius_times_cosf_wide r _ (PI / 2) Hr Fa Ha) as [Fc Hc].
    destruct (radius_times_sinf_wide r _ (PI / 2) Hr Fa Ha) as [Fs Hs].
    rewrite cos_PI2, Rmult_0_r in Hc. rewrite sin_PI2, Rmult_1_r in Hs.
    destruct (cast_near _ 0 Fc ltac:(lia) Hc) as (_ & H1 & _).
    destruct (cast_near _ r Fs ltac:(lia) Hs) as (H2 & H2' & _).
    rewrite H1 by reflexivity. unfold int16_range in *.
    assert (r - 1 <= cast_int16 (fmul (of_int r)
              (sinf (deg2rad (line_angle_deg lc i)))) <= r)%Z as Hb.
    { destruct (Z.eq_dec r 0%Z) as [E0|E0]; [rewrite H2' by exact E0|]; lia. }
    rewrite !to_int16_id by (unfold int16_range; lia). lia.
Qed.

(** X15. The radial lines of the panel's grid stay inside the radar.  For
    2 to 10 lines, a band count from 1 to 254, a radius from 0 to 32767 and
    a centre such that the rectangle of the half disc fits the [int16_t]
    coordinates, every line drawn runs from the centre to a point of that
    rectangle.  The first line ends on the base to the right, at most one
    pixel short of the radius; the last ends on the base to the left; and
    with an odd number of lines the middle one ends straight above the
    centre. *)
Theorem grid_lines_in_radar parent_ b lc (st : state) :
  (1 <= b <= 254)%Z -> (2 <= lc <= 10)%Z -> length (points st) = 10%nat ->
  (0 <= g_radius st <= 32767)%Z ->
  int16_range (g_center_x st - g_radius st) ->
  int16_range (g_center_x st + g_radius st) ->
  int16_range (g_center_y st - g_radius st) ->
  int16_range (g_center_y st) ->
  exists st',
    lv_radar_screen_draw parent_ b lc st = Ok tt st' /\
    (forall i, (i < Z.to_nat lc)%nat ->
       exists p,
         points st' !! i = Some [(g_center_x st, g_center_y st); p] /\
         in_radar_box (g_center_x st) (g_center_y st) (g_radius st) p /\
         (i = 0%nat ->
          snd p = g_center_y st /\
          (g_center_x st + g_radius st - 1 <= fst p
           <= g_center_x st + g_radius st)%Z) /\
         (i = Z.to_nat (lc - 1) ->
          snd p = g_center_y st /\
          (g_center_x st - g_radius st <= fst p
           <= g_center_x st - g_radius st + 1)%Z) /\
         ((2 * Z.of_nat i)%Z = (lc - 1)%Z ->
          fst p = g_center_x st /\
          (g_center_y st - g_radius st <= snd p
           <= g_center_y st - g_radius st + 1)%Z)).
Proof.
  intros Hb Hlc Hrows Hr Hx1 Hx2 Hy1 Hy2.
  eexists. split; [apply screen_draw_run; lia|].
  intros i Hi.
  assert (Hpos : Forall (fun i => (0 <= i)%Z) (seqZ 0 lc)).
  { eapply Forall_impl; [apply seqZ_below|]. cbn. intros; lia. }
  destruct (line_end_in_radar (g_center_x st) (g_center_y st) (g_radius st)
              lc (Z.of_nat i) Hr Hlc ltac:(lia) Hx1 Hx2 Hy1 Hy2)
    as (Hbox & Hfirst & Hlast & Hmid).
  eexists. split.
  - unfold drawn. cbn [points set_points].
    apply (grid_rows_lookup _ _ _ _ _ _ i Hpos).
    + apply elem_of_seqZ. lia.
    + lia.
  - split; [exact Hbox|]. split; [|split].
    + intros ->. apply Hfirst. reflexivity.
    + intros ->. apply Hlast. lia.
    + exact Hmid.
Qed.

End GridLines.

Section MarkerBox.
Context {F : Type} `{FloatOps F} `{FloatVal F} `{!FloatSpec F}.
Open Scope R_scope.

(** The cast to [int16_t] of a float whose magnitude is below [n + 1]. *)
Lemma cast_range (p : F) (n : Z) :
  finite p -> (0 <= n <= 32767)%Z ->
  - (IZR n + 1) < val p < IZR n + 1 ->
  (- n <= cast_int16 p <= n)%Z /\ (-1 < val p -> (0 <= cast_int16 p)%Z).
Proof.
  intros Fp Hn Hp.
  assert (0 <= IZR n <= 32767) as Hn'
    by (split; [apply (IZR_le 0)|apply (IZR_le n 32767)]; lia).
  assert (Ht : is_trunc (val p) (ftrunc p)).
  { apply ftrunc_spec; [exact Fp|].
    change (2 ^ 31)%Z with 2147483648%Z. apply Rabs_def1; lra. }
  destruct Ht as [Hpos Hneg].
  assert (Hb : (- n <= ftrunc p <= n)%Z).
  { destruct (Rle_dec 0 (val p)) as [Hv|Hv].
    - destruct (Hpos Hv) as [H1 H2]. split.
      + assert (-1 < ftrunc p)%Z by (apply lt_IZR; lra). lia.
      + assert (ftrunc p < n + 1)%Z
          by (apply lt_IZR; rewrite plus_IZR; lra). lia.
    - destruct (Hneg ltac:(lra)) as [H1 H2]. split.
      + assert (- n - 1 < ftrunc p)%Z
          by (apply lt_IZR; rewrite minus_IZR, opp_IZR; lra). lia.
      + assert (ftrunc p < 1)%Z by (apply lt_IZR; lra). lia. }
  unfold cast_int16. rewrite to_int16_id by (unfold int16_range; lia).
  split; [exact Hb|]. intros Hy0.
  destruct (Rle_dec 0 (val p)) as [Hv|Hv].
  - destruct (Hpos Hv) as [H1 H2].
    assert (-1 < ftrunc p)%Z by (apply lt_IZR; lra). lia.
  - destruct (Hneg ltac:(lra)) as [H1 H2].
    assert (-1 < ftrunc p)%Z by (apply lt_IZR; lra). lia.
Qed.

(** The pixel distance of a target in range: [distance / (band_count * 2 /
    radius)] is at most the radius, up to a fiftieth of a pixel. *)
Lemma pixel_distance_in_range (r b : Z) (d : F) :
  (1 <= r <= 32767)%Z -> (1 <= b <= 255)%Z ->
  finite d -> 0 <= val d <= 2 * IZR b ->
  let pd := fdiv d (fdiv (fmul (of_int b) (of_int 2)) (of_int r)) in
  finite pd /\ - eta <= val pd <= IZR r + 1 / 50.
Proof.
  intros Hr Hb Fd Hd pd. subst pd.
  assert (1 <= IZR r <= 32767) as Hr'
    by (split; [apply (IZR_le 1)|apply (IZR_le r 32767)]; lia).
  assert (1 <= IZR b <= 255) as Hb'
    by (split; [apply (IZR_le 1)|apply (IZR_le b 255)]; lia).
  pose proof eta_bounds as Et.
  (* total_meters *)
  destruct (fmul_spec (of_int b) (of_int 2)) as [Ft Ht];
    try apply of_int_finite; rewrite ?of_int_val; try lia.
  { rewrite Rabs_right by lra. rewrite fmax_val. lra. }
  rewrite !of_int_val in Ht by lia.
  rewrite (Rabs_right (IZR b * 2)) in Ht by lra.
  apply Rabs_le_between in Ht. rewrite eps_val in Ht.
  set (T := fmul (of_int b) (of_int 2)) in *.
  assert (HT : 2 * IZR b * (1 - 2 / 8388608) <= val T
               <= 2 * IZR b * (1 + 2 / 8388608)) by lra.
  (* meters_per_pixel *)
  assert (Hinv : 0 < / IZR r <= 1).
  { split; [apply Rinv_0_lt_compat; lra|].
    rewrite <- Rinv_1. apply Rinv_le_contravar; lra. }
  assert (HTr : 0 < val T / IZR r <= 511).
  { unfold Rdiv. split; [apply Rmult_lt_0_compat; lra|].
    apply Rle_trans with (511 * 1); [|lra].
    apply Rmult_le_compat; lra. }
  destruct (fdiv_spec T (of_int r) Ft) as [Fm Hm];
    try apply of_int_finite; rewrite ?of_int_val; try lia; try lra.
  { rewrite Rabs_right by lra. rewrite fmax_val. lra. }
  rewrite !of_int_val in Hm by lia.
  rewrite (Rabs_right (val T / IZR r)) in Hm by lra.
  apply Rabs_le_between in Hm. rewrite eps_val in Hm.
  set (mpp := fdiv T (of_int r)) in *.
  assert (HTrr : val T / IZR r * IZR r = val T) by (field; lra).
  assert (Hmr : 2 * IZR b * (1 - 3 / 8388608) <= val mpp * IZR r).
  { assert (val T / IZR r * (1 - 1 / 8388608) - eta <= val mpp) as Hlo
      by lra.
    apply (Rmult_le_compat_r (IZR r)) in Hlo; [|lra].
    assert (eta * IZR r <= 2 * IZR b * (1 / 33554432)).
    { apply Rle_trans with (1 / 1000000000000 * 32767).
      - apply Rmult_le_compat; lra.
      - lra. }
    lra. }
  assert (Hmpos : 0 < val mpp).
  { apply (Rmult_lt_reg_r (IZR r)); [lra|]. lra. }
  (* pixel_distance *)
  assert (Hq : 0 <= val d / val mpp <= IZR r * (1 + 4 / 8388608)).
  { split.
    - apply Rmult_le_pos; [lra|]. apply Rlt_le, Rinv_0_lt_compat, Hmpos.
    - apply (Rmult_le_reg_r (val mpp)); [exact Hmpos|].
      unfold Rdiv. rewrite Rmult_assoc, Rinv_l by lra. lra. }
  destruct (fdiv_spec d mpp Fd Fm) as [Fp Hp]; [lra| |].
  { rewrite Rabs_right by lra. rewrite fmax_val. lra. }
  split; [exact Fp|].
  rewrite (Rabs_right (val d / val mpp)) in Hp by lra.
  apply Rabs_le_between in Hp. rewrite eps_val in Hp. lra.
Qed.

(** The position of a target in range, at an angle from 0 to 180 degrees,
    lies in the rectangle of the half disc. *)
Lemma marker_in_radar (cx cy r b : Z) (m : lv_radar_marker_t F) :
  (1 <= r <= 32767)%Z -> (1 <= b <= 255)%Z ->
  finite (distance m) -> 0 <= val (distance m) <= 2 * IZR b ->
  (0 <= angle m <= 180)%Z ->
  int16_range (cx - r) -> int16_range (cx + r) ->
  int16_range (cy - r) -> int16_range cy ->
  in_radar_box cx cy r (marker_xy cx cy r b m).
Proof.
  intros Hr Hb Fd Hd Ha Hx1 Hx2 Hy1 Hy2. unfold int16_range in *.
  destruct (pixel_distance_in_range r b (distance m) Hr Hb Fd Hd)
    as [Fp Hp].
  set (pd := fdiv (distance m) _) in *.
  destruct (deg2rad_of_int (angle m) Ha) as [Fa Aa].
  set (a := deg2rad (of_int (angle m))) in *.
  set (theta := IZR (angle m) * PI / 180) in *.
  assert (1 <= IZR r <= 32767) as Hr'
    by (split; [apply (IZR_le 1)|apply (IZR_le r 32767)]; lia).
  assert (0 <= theta <= PI) as Ht.
  { assert (0 <= IZR (angle m) <= 180)
      by (split; [apply (IZR_le 0)|apply (IZR_le _ 180)]; lia).
    pose proof PI_RGT_0. unfold theta. split.
    - apply Rmult_le_pos; [apply Rmult_le_pos|]; lra.
    - assert (IZR (angle m) * PI <= 180 * PI)
        by (apply Rmult_le_compat_r; lra). lra. }
  pose proof eta_bounds as Et.
  destruct (cosf_spec a Fa) as [Fc Hc]. destruct (sinf_spec a Fa) as [Fs Hs].
  pose proof (Rle_trans _ _ _ (sin_lipschitz (val a) theta) Aa) as Ls.
  pose proof (COS_bound (val a)) as Bc. pose proof (SIN_bound (val a)) as Bs.
  pose proof (sin_ge_0 theta ltac:(lra) ltac:(lra)) as Bs0.
  apply Rabs_le_between in Hc, Hs, Ls. rewrite eps_val in Hc, Hs, Ls.
  assert (Hpb : - (IZR r + 1 / 50) <= val pd <= IZR r + 1 / 50) by lra.
  (* pixel_distance * cosf(angle_rad) *)
  assert (Hpe : 0 <= val pd + eta <= IZR r + 1 / 50 + eta) by lra.
  assert (Hee : 0 <= eta <= 1 / 1000000000000) by lra.
  assert (Hcb : - (1 + 1 / 8388608) <= val (cosf a) <= 1 + 1 / 8388608)
    by lra.
  assert (Hsb : - (1 + 1 / 8388608) <= val (sinf a) <= 1 + 1 / 8388608)
    by lra.
  assert (Epc : Rabs (val pd * val (cosf a)) <= IZR r + 1 / 25).
  { pose proof (Rmult_between (val (cosf a)) (val pd + eta)
                  (1 + 1 / 8388608) (IZR r + 1 / 50 + eta) Hcb Hpe) as Hx.
    pose proof (Rmult_between (val (cosf a)) eta (1 + 1 / 8388608)
                  (1 / 1000000000000) Hcb Hee) as Hy.
    assert ((1 + 1 / 8388608) * (IZR r + 1 / 50 + eta) <= IZR r + 3 / 100).
    { assert ((1 / 8388608) * IZR r <= 1 / 256) by lra. lra. }
    apply Rabs_le. lra. }
  destruct (fmul_spec pd (cosf a) Fp Fc) as [Fx Hx].
  { rewrite fmax_val. lra. }
  pose proof (Rabs_pos (val pd * val (cosf a))) as Pc.
  apply Rabs_le_between in Hx. rewrite eps_val in Hx.
  pose proof (Rabs_le_between _ _ Epc) as Epc'.
  destruct (cast_range _ r Fx ltac:(lia)) as [Hdx _]; [lra|].
  (* pixel_distance * sinf(angle_rad) *)
  assert (Eps : - (1 / 25) <= val pd * val (sinf a) <= IZR r + 1 / 25).
  { pose proof (Rmult_between (val (sinf a)) (val pd + eta)
                  (1 + 1 / 8388608) (IZR r + 1 / 50 + eta) Hsb Hpe) as Hx'.
    pose proof (Rmult_between (val (sinf a)) eta (1 + 1 / 8388608)
                  (1 / 1000000000000) Hsb Hee) as Hy.
    assert ((1 + 1 / 8388608) * (IZR r + 1 / 50 + eta) <= IZR r + 3 / 100).
    { assert ((1 / 8388608) * IZR r <= 1 / 256) by lra. lra. }
    split; [|lra].
    assert (0 <= (val pd + eta) * (val (sinf a) + 6 / 8388608))
      by (apply Rmult_le_pos; lra).
    assert (val pd * (6 / 8388608) <= 1 / 32).
    { assert ((6 / 8388608) * IZR r <= 1 / 40) by lra. lra. }
    lra. }
  destruct (fmul_spec pd (sinf a) Fp Fs) as [Fy Hy].
  { rewrite fmax_val. apply Rle_trans with 32768; [|lra].
    apply Rabs_le. lra. }
  assert (Rabs (val pd * val (sinf a)) <= IZR r + 1 / 25) as Ps
    by (apply Rabs_le; lra).
  apply Rabs_le_between in Hy. rewrite eps_val in Hy.
  destruct (cast_range _ r Fy ltac:(lia)) as [Hdy Hdy0]; [lra|].
  specialize (Hdy0 ltac:(lra)).
  unfold in_radar_box, marker_xy, polar_x, polar_y. cbn [fst snd].
  fold pd a.
  rewrite !to_int16_id by (unfold int16_range; lia). lia.
Qed.

End MarkerBox.

Section RadarContents.
Context {F : Type} `{FloatOps F} `{FloatVal F} `{!FloatSpec F}.
Open Scope R_scope.

(** X16. Markers in range stay inside the radar.  For a radius from 1 to
    32767, a band count from 1 to 255 and a centre such that the rectangle
    of the half disc fits the [int16_t] coordinates, a target whose
    distance is between 0 and [2 * band_count] metres and whose angle is
    between 0 and 180 degrees gets a position in that rectangle: at most
    the radius left or right of the centre, at most the radius above it,
    never below it.  [lv_radar_add_markers] and [lv_radar_update_markers]
    both pass that position, less 8 pixels each way, to
    [lv_obj_set_pos]. *)
Theorem markers_stay_in_radar (parent_ : lv_obj_ptr) (b : Z)
    (markers : list (lv_radar_marker_t F)) (count : Z) (st : state) :
  slots_ok markers count -> (1 <= b <= 255)%Z ->
  (1 <= g_radius st <= 32767)%Z ->
  int16_range (g_center_x st - g_radius st) ->
  int16_range (g_center_x st + g_radius st) ->
  int16_range (g_center_y st - g_radius st) ->
  int16_range (g_center_y st) ->
  Forall (fun m => finite (distance m) /\
                   0 <= val (distance m) <= 2 * IZR b /\
                   (0 <= angle m <= 180)%Z) markers ->
  let xy := marker_xy (g_center_x st) (g_center_y st) (g_radius st) b in
  Forall (fun m => in_radar_box (g_center_x st) (g_center_y st)
                     (g_radius st) (xy m))
    (take (Z.to_nat count) markers) /\
  (exists m1 st1,
     lv_radar_add_markers parent_ b markers count st = Ok m1 st1 /\
     map snd (pos_calls (new_calls st st1))
     = map (fun m => (fst (xy m) - 8, snd (xy m) - 8)%Z)
         (take (Z.to_nat count) markers)) /\
  (exists st1,
     lv_radar_update_markers b markers count st = Ok markers st1 /\
     map snd (pos_calls (new_calls st st1))
     = map (fun m => (fst (xy m) - 8, snd (xy m) - 8)%Z)
         (take (Z.to_nat count) markers)).
Proof.
  intros Hok Hb Hr Hx1 Hx2 Hy1 Hy2 Hall xy. split; [|split].
  - apply Forall_take. eapply Forall_impl; [exact Hall|].
    intros m (Fd & Hd & Ha). apply marker_in_radar; assumption.
  - eexists _, _. split; [apply add_markers_run, Hok|].
    rewrite new_calls_toolkit, coords_add_calls. reflexivity.
  - eexists. split; [apply update_markers_run, Hok|].
    rewrite new_calls_log, pos_update_calls, map_map. reflexivity.
Qed.

(** X2. The five shadows of the sweep share one array of points.  Every
    update attaches the sweep line to [sweep_points] and each of the five
    shadow lines to [shadow_points], and each round of the shadow loop
    overwrites that array: when the update returns, [shadow_points] holds
    the end computed for the last shadow, at [max 0 (angle - 40)] degrees
    for the clamped angle, and that is the line all five shadows have. *)
Theorem shadow_lines_coincide (s : lv_radar_sweep_t) (st : state) (a : Z) :
  uint16_range a ->
  exists s' st' l h0 h1 h2 h3 h4,
    lv_radar_sweep_update (Some s) a st = Ok s' st' /\
    sweep_handles s' = map Some [l; h0; h1; h2; h3; h4] /\
    points_calls (new_calls st st')
    = (Some l, Sweep_points)
      :: map (fun h => (Some h, Shadow_points)) [h0; h1; h2; h3; h4] /\
    sweep_points st'
    = [(center_x s, center_y s); sweep_end s (of_int (Z.min a 180))] /\
    shadow_points st'
    = [(center_x s, center_y s);
       sweep_end s (of_int (Z.max 0 (Z.min a 180 - 40)))].
Proof.
  intros Ha. unfold uint16_range in Ha.
  destruct (sweep_update_lines s st a)
    as (s' & st' & Hrun & Hpost & Hh & _).
  pose proof (fresh_handles_some (next_obj st) (sweep_handles s)) as Hs.
  rewrite <- Hh in Hs.
  pose proof (post_points _ _ _ _ _ Hpost) as Hp.
  destruct s' as [p' cx' cy' r' ca' l' [t0 t1 t2 t3 t4]].
  unfold sweep_handles in Hs |- *.
  cbn [sweep_line shadow_lines shadow_list] in Hs, Hp |- *.
  apply Forall_cons in Hs as [[l ->] Hs].
  apply Forall_cons in Hs as [[h0 ->] Hs].
  apply Forall_cons in Hs as [[h1 ->] Hs].
  apply Forall_cons in Hs as [[h2 ->] Hs].
  apply Forall_cons in Hs as [[h3 ->] Hs].
  apply Forall_cons in Hs as [[h4 ->] _].
  eexists _, st', l, h0, h1, h2, h3, h4. split; [exact Hrun|].
  split; [reflexivity|]. split; [exact Hp|].
  rewrite (post_sweep_points _ _ _ _ _ Hpost),
    (post_shadow_points _ _ _ _ _ Hpost), clamp_angle_min.
  rewrite shadow_angle_max by lia.
  split; [reflexivity|]. reflexivity.
Qed.

End RadarContents.

(** ** The further properties at work on the panel *)

(** [shadow_lines_coincide] at 90 degrees: the five shadows are all at 50
    degrees. *)
Lemma shadow_lines_coincide_panel :
  uint16_range 90 /\
  exists s' st',
    lv_radar_sweep_update (F:=R) (Some panel_sweep) 90 initial_state
    = Ok s' st' /\
    shadow_points st' = [(240, 320); sweep_end panel_sweep (IZR 50)].
Proof.
  assert (Ha : uint16_range 90) by (unfold uint16_range; lia).
  split; [exact Ha|].
  destruct (@shadow_lines_coincide R exact_ops exact_val exact_spec
              panel_sweep initial_state 90 Ha)
    as (s' & st' & l & h0 & h1 & h2 & h3 & h4 & Hrun & _ & _ & _ & Hsh).
  exists s', st'. split; [exact Hrun | exact Hsh].
Defined.

(** [add_then_remove_markers] on the two people of the panel: the array is
    back as it was. *)
Lemma add_then_remove_markers_panel :
  slots_ok panel_markers 2 /\
  exists m1 st1 st2,
    lv_radar_add_markers (Some 0%nat) 4 panel_markers 2 panel_state
    = Ok m1 st1 /\
    lv_radar_remove_markers m1 2 st1 = Ok panel_markers st2 /\
    released (new_calls st1 st2) = [Some 1%nat; Some 2%nat].
Proof.
  assert (H : slots_ok panel_markers 2) by (split; [lia | cbn; lia]).
  split; [exact H|].
  destruct (add_then_remove_markers (F:=R) (Some 0%nat) 4 panel_markers 2
              panel_state H)
    as (m1 & st1 & m2 & st2 & H1 & H2 & _ & _ & H3 & _ & H4).
  assert (Hnull : Forall (fun m => icon m = None) panel_markers)
    by (repeat constructor).
  rewrite (H4 Hnull) in H2.
  exists m1, st1, st2. repeat split; assumption.
Defined.

(** [update_markers_unchecked] on the two icons of the panel. *)
Lemma update_markers_unchecked_panel :
  slots_ok shown_markers 2 /\
  exists m1 st1 st2,
    lv_radar_remove_markers shown_markers 2 panel_state = Ok m1 st1 /\
    lv_radar_update_markers 4 m1 2 st1 = Ok m1 st2 /\
    map fst (pos_calls (new_calls st1 st2)) = [None; None].
Proof.
  assert (H : slots_ok shown_markers 2) by (split; [lia | cbn; lia]).
  split; [exact H|].
  exact (proj2 (update_markers_unchecked (F:=R) 4 shown_markers 2
                  panel_state H)).
Defined.

(** [grid_lines_own_rows] on the panel: line 0 is attached to row 0. *)
Lemma grid_lines_own_rows_panel :
  exists st',
    lv_radar_screen_draw (F:=R) (Some 0%nat) 4 9 panel_state = Ok tt st' /\
    points st' !! 0%nat
    = Some [(240, 320); line_end 240 320 310 9 0].
Proof.
  destruct (grid_lines_own_rows (F:=R) (Some 0%nat) 4 9 panel_state
              ltac:(lia) ltac:(lia) eq_refl)
    as (st' & Hrun & _ & Hrows & _).
  exists st'. split; [exact Hrun|]. apply (Hrows 0%nat). cbn. lia.
Defined.

(** [radar_screen_c_lines_share_points] on the same geometry: the one array
    holds the end of line 8. *)
Lemma radar_screen_c_lines_share_points_panel :
  exists st',
    radar_screen_c_draw (F:=R) (Some 0%nat) 240 320 310 4 9 initial_state
    = Ok tt st' /\
    line_points st' = [(240, 320); line_end 240 320 310 9 (9 - 1)].
Proof.
  destruct (radar_screen_c_lines_share_points (F:=R) (Some 0%nat)
              240 320 310 4 9 initial_state ltac:(lia) ltac:(lia))
    as (st' & Hrun & _ & Hl & _).
  exists st'. split; [exact Hrun | exact Hl].
Defined.

(** [grid_line_count_above_ten] with eleven lines. *)
Lemma grid_line_count_above_ten_panel :
  exists st',
    lv_radar_screen_draw (F:=R) (Some 0%nat) 4 11 panel_state
    = Fault Out_of_bounds st' /\
    created (new_calls panel_state st')
    = map (fun h => (Lv_line, h)) (seq 1 11).
Proof.
  destruct (grid_line_count_above_ten (F:=R) (Some 0%nat) 4 11 panel_state
              ltac:(lia) ltac:(lia) eq_refl)
    as (st' & Hrun & Hc & _).
  exists st'. split; [exact Hrun | exact Hc].
Defined.

(** [grid_band_count_255] with the nine lines of the panel. *)
Lemma grid_band_count_255_panel :
  exists st',
    lv_radar_screen_draw (F:=R) (Some 0%nat) 255 9 panel_state
    = Fault Nontermination st'.
Proof.
  destruct (grid_band_count_255 (F:=R) (Some 0%nat) 9 panel_state
              ltac:(lia))
    as (_ & st' & Hrun & _).
  exists st'. exact Hrun.
Defined.


(** [sweep_stays_in_radar] on the panel's sweep at 135 degrees. *)
Lemma sweep_stays_in_radar_panel :
  exists s' st' p,
    lv_radar_sweep_update (F:=R) (Some panel_sweep) 135 initial_state
    = Ok s' st' /\
    sweep_points st' = [(240, 320); p] /\
    in_radar_box 240 320 310 p.
Proof.
  assert (Ha : uint16_range 135) by (unfold uint16_range; lia).
  assert (Hr : 0 <= radius panel_sweep <= 32767) by (cbn; lia).
  assert (Hx1 : int16_range (center_x panel_sweep - radius panel_sweep))
    by (unfold int16_range; cbn; lia).
  assert (Hx2 : int16_range (center_x panel_sweep + radius panel_sweep))
    by (unfold int16_range; cbn; lia).
  assert (Hy1 : int16_range (center_y panel_sweep - radius panel_sweep))
    by (unfold int16_range; cbn; lia).
  assert (Hy2 : int16_range (center_y panel_sweep))
    by (unfold int16_range; cbn; lia).
  destruct (@sweep_stays_in_radar R exact_ops exact_val exact_spec
              panel_sweep initial_state 135 Ha Hr Hx1 Hx2 Hy1 Hy2)
    as (s' & st' & p & Hrun & Hp & Hbox & _).
  exists s', st', p. repeat split; try assumption; apply Hbox.
Defined.

(** [grid_lines_in_radar] on the panel: the middle line of the nine ends
    straight above the centre. *)
Lemma grid_lines_in_radar_panel :
  exists st' p,
    lv_radar_screen_draw (F:=R) (Some 0%nat) 4 9 panel_state = Ok tt st' /\
    points st' !! 4%nat = Some [(240, 320); p] /\
    fst p = 240 /\ 10 <= snd p <= 11.
Proof.
  assert (Hr : 0 <= g_radius panel_state <= 32767) by (cbn; lia).
  assert (Hx1 : int16_range (g_center_x panel_state - g_radius panel_state))
    by (unfold int16_range; cbn; lia).
  assert (Hx2 : int16_range (g_center_x panel_state + g_radius panel_state))
    by (unfold int16_range; cbn; lia).
  assert (Hy1 : int16_range (g_center_y panel_state - g_radius panel_state))
    by (unfold int16_range; cbn; lia).
  assert (Hy2 : int16_range (g_center_y panel_state))
    by (unfold int16_range; cbn; lia).
  destruct (@grid_lines_in_radar R exact_ops exact_val exact_spec
              (Some 0%nat) 4 9 panel_state ltac:(lia) ltac:(lia) eq_refl
              Hr Hx1 Hx2 Hy1 Hy2)
    as (st' & Hrun & Hrows).
  destruct (Hrows 4%nat ltac:(cbn; lia))
    as (p & Hp & _ & _ & _ & Hmid).
  exists st', p. split; [exact Hrun|]. split; [exact Hp|].
  apply (Hmid eq_refl).
Defined.

(** [markers_stay_in_radar] on the two people of the panel. *)
Lemma markers_stay_in_radar_panel :
  Forall (fun m => in_radar_box 240 320 310 (marker_xy 240 320 310 4 m))
    panel_markers.
Proof.
  assert (H : slots_ok panel_markers 2) by (split; [lia | cbn; lia]).
  assert (Hr : 1 <= g_radius panel_state <= 32767) by (cbn; lia).
  assert (Hx1 : int16_range (g_center_x panel_state - g_radius panel_state))
    by (unfold int16_range; cbn; lia).
  assert (Hx2 : int16_range (g_center_x panel_state + g_radius panel_state))
    by (unfold int16_range; cbn; lia).
  assert (Hy1 : int16_range (g_center_y panel_state - g_radius panel_state))
    by (unfold int16_range; cbn; lia).
  assert (Hy2 : int16_range (g_center_y panel_state))
    by (unfold int16_range; cbn; lia).
  assert (Hall : Forall (fun m : lv_radar_marker_t R =>
                   finite (distance m) /\
                   (0 <= val (distance m) <= 2 * IZR 4)%R /\
                   0 <= angle m <= 180) panel_markers).
  { repeat constructor; cbn; try lia; lra. }
  exact (proj1 (@markers_stay_in_radar R exact_ops exact_val exact_spec
                  (Some 0%nat) 4 panel_markers 2 panel_state
                  H ltac:(lia) Hr Hx1 Hx2 Hy1 Hy2 Hall)).
Defined.

(** ** The rounds of the shadow loop inside an update *)

Section ShadowRounds.
Context {F : Type} `{FloatOps F} `{FloatVal F} `{!FloatSpec F}.





End ShadowRounds.

